(** * xmicro: the invocation pipeline, embedded and verified

    A shallow embedding of the parts of xmicro that the specification's
    claims are about:

    - [Go]      the control effects the sources rely on: calls into code
                that lives outside the function (libraries, callbacks),
                panics, [defer] and [recover];
    - [grpc]    transport/grpc/handler.go ([microTransport.Stream]);
    - [server]  the server options ([Options], [newOptions], the [Option]
                constructors) and the wrapper chain;
    - [rpc]     the rpc server's [newOptions];
    - [jaeger]  the tracing wrappers ([StartSpanFromContext], [otWrapper],
                [NewCallWrapper], [NewHandlerWrapper], ...);
    - [nacos]   config/source/nacos/impl.go ([resolvedGroup], [Destroy],
                [NacosClient.stop], ...).

    Part I holds the embedding, Part II the properties.
*)

From Stdlib Require Import String Ascii List ZArith Lia Permutation.
From stdpp Require Import base option list gmap strings.

Import ListNotations.
Local Open Scope string_scope.
Local Open Scope list_scope.

(* ===================================================================== *)
(** * Part I: the program                                                  *)
(* ===================================================================== *)

(** ** Go control effects *)

Module Go.

(** A Go value of interface type [interface{}], as far as the sources look
    at one: they only format it with [%v]. *)
Inductive any : Type :=
| AString (s : string)
| AError (msg : string)
| AOther (type_name rendering : string).

(** [fmt.Sprint]-style rendering of a value under the verb [%v]. *)
Definition Sprint (a : any) : string :=
  match a with
  | AString s => s
  | AError msg => msg
  | AOther _ r => r
  end.

(** How a Go call ends: it returns, or it panics with a value.  The value
    is what [recover()] yields in a deferred function, which is non-nil
    while a panic is in flight. *)
Inductive Outcome (A : Type) : Type :=
| Returned (a : A)
| Panicked (v : any).
Arguments Returned {A} a.
Arguments Panicked {A} v.

#[global] Instance Outcome_ret : MRet Outcome := fun _ a => Returned a.
#[global] Instance Outcome_bind : MBind Outcome := fun _ _ f o =>
  match o with
  | Returned a => f a
  | Panicked v => Panicked v
  end.

(** The panic of a nil dereference and of a write to a nil map. *)
Definition nil_dereference : any :=
  AError "runtime error: invalid memory address or nil pointer dereference".
Definition nil_map_write : any :=
  AError "assignment to entry in nil map".
Definition close_of_closed_channel : any :=
  AError "close of closed channel".

(** A [*sync.WaitGroup]: one that [new(sync.WaitGroup)] just made, or one
    the caller holds. *)
Inductive WaitGroup : Type :=
| NewWaitGroup
| WaitGroupRef (id : nat).

(** A function body as a tree of calls it makes to code outside of it.
    [E X] is a call whose result has type [X]; the continuation receives
    the result. *)
Inductive Prog (E : Type -> Type) (R : Type) : Type :=
| Ret (r : R)
| Vis (X : Type) (e : E X) (k : X -> Prog E R).
Arguments Ret {E R} r.
Arguments Vis {E R X} e k.

Fixpoint pbind {E A B} (m : Prog E A) (f : A -> Prog E B) : Prog E B :=
  match m with
  | Ret a => f a
  | Vis e k => Vis e (fun x => pbind (k x) f)
  end.

(** A Go function: a body that returns a value or panics. *)
Definition M (E : Type -> Type) (A : Type) : Type := Prog E (Outcome A).

Definition ret {E A} (a : A) : M E A := Ret (Returned a).
Definition panic {E A} (v : any) : M E A := Ret (Panicked v).

(** Sequencing: a panic skips the rest of the body. *)
Definition bind {E A B} (m : M E A) (f : A -> M E B) : M E B :=
  pbind m (fun o => match o with
                    | Returned a => f a
                    | Panicked v => Ret (Panicked v)
                    end).

#[global] Instance M_ret {E} : MRet (M E) := fun _ a => ret a.
#[global] Instance M_bind {E} : MBind (M E) := fun _ _ f m => bind m f.

(** A call into a library, which returns. *)
Definition call {E X} (e : E X) : M E X := Vis e (fun x => Ret (Returned x)).

(** A call into user code, which may panic. *)
Definition invoke {E X} (e : E (Outcome X)) : M E X := Vis e (fun o => Ret o).

(** [defer d(); body]: [d] runs when [body] is left, by return or by
    panic; a panic of [d] itself replaces the outcome. *)
Definition defer {E A} (d : M E unit) (body : M E A) : M E A :=
  pbind body (fun o =>
  pbind d (fun od => match od with
                     | Returned _ => Ret o
                     | Panicked v => Ret (Panicked v)
                     end)).

(** [defer func() { if r := recover(); r != nil { handler } }(); body]
    in a function with a named result: when [body] panics with [r], the
    panic stops here, [handler r] runs and the function returns the named
    result the handler leaves. *)
Definition defer_recover {E A} (handler : any -> M E A) (body : M E A) : M E A :=
  pbind body (fun o => match o with
                       | Returned a => Ret (Returned a)
                       | Panicked r => handler r
                       end).

(** *** Running a body against its environment *)

(** The environment answers every call and may keep state of its own. *)
Record Env (E : Type -> Type) : Type := {
  World : Type;
  answer : forall X, E X -> World -> X * World;
}.
Arguments World {E} _.
Arguments answer {E} _ {X} _ _.

(** One entry of a trace: a call and the answer it got. *)
Inductive Event (E : Type -> Type) : Type :=
| Evt (X : Type) (e : E X) (x : X).
Arguments Evt {E X} e x.

Fixpoint run {E R} (env : Env E) (p : Prog E R) (w : World env)
  : R * list (Event E) * World env :=
  match p with
  | Ret r => (r, [], w)
  | Vis e k =>
      let '(x, w1) := answer env e w in
      let '(r, tr, w2) := run env (k x) w1 in
      (r, Evt e x :: tr, w2)
  end.

End Go.

(** ** Errors *)

Module errors.

(** Modelled from the spec: package errors is declared outside src.  The
    spec's taxonomy names [InternalServerError] (a recovered panic or an
    unhandled handler failure); it is built from an id and a detail text,
    the detail being the formatted message.  Every other error value is
    given by its message; [WithStack] is pkg/errors' annotation. *)
Inductive error : Type :=
| InternalServerError (id detail : string)
| New (msg : string)
| WithStack (err : error).

End errors.

(** ** Metadata *)

Module metadata.

(** [type Metadata map[string]string]. *)
Abbreviation Metadata := (gmap string string).

(** Modelled from the spec: [Metadata.Set] is declared outside src; the
    spec has the tracing wrapper put propagation metadata into the call's
    metadata, key by key. *)
Definition Set_ (md : Metadata) (k v : string) : Metadata := <[k := v]> md.

End metadata.

(** ** opentracing-go, as far as the wrappers use it *)

Module opentracing.

(** Interface values: references to objects of the tracing library. *)
Inductive Tracer : Type := TracerRef (id : nat).
Inductive SpanContext : Type := SpanContextRef (id : nat).

(** A span, with what [sp.Context()] and [sp.Tracer()] return. *)
Record Span : Type := {
  span_ref : nat;
  span_Context : SpanContext;
  span_Tracer : Tracer;
}.

Inductive StartSpanOption : Type :=
| ChildOf (sc : SpanContext)
| StartOption (id : nat).

Inductive TagValue : Type :=
| TagBool (b : bool)
| TagString (s : string).

End opentracing.

(** ** What the embedded code takes from other packages *)

(** Functions and constants that the sources under src call but that are
    declared elsewhere (the standard library, the Go runtime, opentracing,
    and packages of this repository that are not part of src).  None of
    them has an effect; they are parameters of the embedding. *)
Class External : Type := {
  (** [context.Context]. *)
  GoContext : Type;
  (** [context.Background()]. *)
  Background : GoContext;
  (** [context.WithValue(ctx, "wait", wg)], [wg] a wait group. *)
  WithWait : GoContext -> Go.WaitGroup -> GoContext;
  (** [metadata.FromContext(ctx)]: the metadata and [ok]. *)
  FromContext : GoContext -> option metadata.Metadata;
  (** [metadata.NewContext(ctx, md)]. *)
  NewContext : GoContext -> metadata.Metadata -> GoContext;
  (** [opentracing.SpanFromContext(ctx)], [None] for nil. *)
  SpanFromContext : GoContext -> option opentracing.Span;
  (** [opentracing.ContextWithSpan(ctx, sp)]. *)
  ContextWithSpan : GoContext -> opentracing.Span -> GoContext;
  (** [strings.Title]. *)
  Title : string -> string;
  (** The order in which a [range] statement visits a map: Go leaves it
      unspecified, so it is a parameter, constrained by [ExternalLaws]. *)
  range_order : metadata.Metadata -> list (string * string);
  (** [err.Error()]. *)
  Error : errors.error -> string;
}.

(** A [range] over a map visits every entry once. *)
Class ExternalLaws `{External} : Prop := {
  range_order_perm : forall md, range_order md ≡ₚ map_to_list md;
}.

(** ** transport/grpc/handler.go *)

Module grpc.
Import Go errors.

(** [pb.Transport_StreamServer]: the stream, with the peer address that
    [peer.FromContext(ts.Context())] finds ([p.Addr.String()]), if any. *)
Record Transport_StreamServer : Type := {
  stream_ref : nat;
  stream_peer : option string;
}.

(** [grpcTransportSocket], as [Stream] builds it. *)
Record grpcTransportSocket : Type := {
  stream : Transport_StreamServer;
  local : string;
  remote : string;
}.

(** The calls [Stream] and the socket function make. *)
Inductive grpcE : Type -> Type :=
| debug_Stack : grpcE string
| logger_Error (r : any) (stack : string) : grpcE unit
| sock_Close (sock : grpcTransportSocket) : grpcE (option error)
| sock_Recv (sock : grpcTransportSocket) : grpcE (string * option error)
| sock_Send (sock : grpcTransportSocket) (msg : string) : grpcE (option error)
| user_code (label : nat) : grpcE (Outcome unit).

(** [microTransport]: [fn] serves one socket. *)
Record microTransport : Type := {
  addr : string;
  fn : grpcTransportSocket -> M grpcE unit;
}.

(** The socket [Stream] builds: [local] is the transport's address, [remote]
    the peer's when the stream's context has one. *)
Definition new_socket (m : microTransport) (ts : Transport_StreamServer)
  : grpcTransportSocket :=
  let sock := {| stream := ts; local := addr m; remote := "" |} in
  match stream_peer ts with
  | Some a => {| stream := stream sock; local := local sock; remote := a |}
  | None => sock
  end.

Definition Stream (m : microTransport) (ts : Transport_StreamServer)
  : M grpcE (option error) :=
  let sock := new_socket m ts in
  let err : option error := None in
  defer_recover
    (fun r =>
       stack ← call debug_Stack;
       call (logger_Error r stack);;
       call (sock_Close sock);;
       mret (Some (InternalServerError "go.micro.transport"
                     ("panic recovered: " +:+ Sprint r))))
    ((* execute socket func *)
     fn m sock;;
     mret err).

(** What the deferred function does with a recovered value [r], for the
    answers [stack] and [cerr] of [debug.Stack()] and [sock.Close()]. *)
Definition recovery_trace (sock : grpcTransportSocket) (r : any) (stack : string)
    (cerr : option error) : list (Event grpcE) :=
  [Evt debug_Stack stack; Evt (logger_Error r stack) tt; Evt (sock_Close sock) cerr].

End grpc.

(** ** package server: options *)

Module server.
Import Go errors.

(** Interface values held by [Options]: [None] is nil.  The in-memory
    implementations ([mbroker.NewBroker()], [memory.NewRegistry()],
    [tmem.NewTransport()]) and [DefaultRegisterCheck] are declared outside
    src; each is a constructor here. *)
Inductive Broker_ : Type := MemoryBroker | BrokerRef (id : nat).
Inductive Registry_ : Type := MemoryRegistry | RegistryRef (id : nat).
Inductive Transport_ : Type := MemoryTransport | TransportRef (id : nat).
Inductive Trace_ : Type := TraceRef (id : nat).
Inductive Auth_ : Type := AuthRef (id : nat).
Inductive Router_ : Type := RouterRef (id : nat).
Inductive TLSConfig_ : Type := TLSConfigRef (id : nat).
Inductive NewCodec : Type := NewCodecRef (id : nat).
Inductive RegisterCheckFn : Type :=
| DefaultRegisterCheck
| RegisterCheckRef (id : nat).

(** The constants of package server that [newOptions] reads; they are
    declared outside src. *)
Class Defaults : Type := {
  DefaultAddress : string;
  DefaultName : string;
  DefaultId : string;
  DefaultVersion : string;
  DefaultRegisterInterval : Z;
  DefaultRegisterTTL : Z;
}.

(** [server.Request] and [server.Message], as far as they are read. *)
Record Request : Type := {
  Service : string;
  Endpoint : string;
}.
Record Message : Type := {
  Topic : string;
}.

Section Server.
Context `{External} {E : Type -> Type}.

(** [HandlerFunc], [SubscriberFunc] and their wrappers; [rsp] is a reference
    to the response value. *)
Definition HandlerFunc : Type :=
  GoContext -> Request -> nat -> M E (option error).
Definition HandlerWrapper : Type := HandlerFunc -> HandlerFunc.
Definition SubscriberFunc : Type :=
  GoContext -> Message -> M E (option error).
Definition SubscriberWrapper : Type := SubscriberFunc -> SubscriberFunc.

Record Options : Type := mkOptions {
  opts_Codecs : option (gmap string NewCodec);
  opts_Broker : option Broker_;
  opts_Registry : option Registry_;
  opts_Trace : option Trace_;
  opts_Auth : option Auth_;
  opts_Transport : option Transport_;
  opts_Metadata : option (gmap string string);
  opts_Name : string;
  opts_Address : string;
  opts_Advertise : string;
  opts_Id : string;
  opts_Namespace : string;
  opts_Version : string;
  opts_HdlrWrappers : list HandlerWrapper;
  opts_SubWrappers : list SubscriberWrapper;
  opts_RegisterCheck : option RegisterCheckFn;
  opts_RegisterTTL : Z;
  opts_RegisterInterval : Z;
  opts_Router : option Router_;
  opts_TLSConfig : option TLSConfig_;
  opts_Context : option GoContext;
}.

Definition set_Codecs (v : option (gmap string NewCodec)) (o : Options) : Options :=
  let '(mkOptions _ f1 f2 f3 f4 f5 f6 f7 f8 f9 f10 f11 f12 f13 f14 f15 f16 f17 f18 f19 f20) := o in
  mkOptions v f1 f2 f3 f4 f5 f6 f7 f8 f9 f10 f11 f12 f13 f14 f15 f16 f17 f18 f19 f20.
Definition set_Broker (v : option Broker_) (o : Options) : Options :=
  let '(mkOptions f0 _ f2 f3 f4 f5 f6 f7 f8 f9 f10 f11 f12 f13 f14 f15 f16 f17 f18 f19 f20) := o in
  mkOptions f0 v f2 f3 f4 f5 f6 f7 f8 f9 f10 f11 f12 f13 f14 f15 f16 f17 f18 f19 f20.
Definition set_Registry (v : option Registry_) (o : Options) : Options :=
  let '(mkOptions f0 f1 _ f3 f4 f5 f6 f7 f8 f9 f10 f11 f12 f13 f14 f15 f16 f17 f18 f19 f20) := o in
  mkOptions f0 f1 v f3 f4 f5 f6 f7 f8 f9 f10 f11 f12 f13 f14 f15 f16 f17 f18 f19 f20.
Definition set_Trace (v : option Trace_) (o : Options) : Options :=
  let '(mkOptions f0 f1 f2 _ f4 f5 f6 f7 f8 f9 f10 f11 f12 f13 f14 f15 f16 f17 f18 f19 f20) := o in
  mkOptions f0 f1 f2 v f4 f5 f6 f7 f8 f9 f10 f11 f12 f13 f14 f15 f16 f17 f18 f19 f20.
Definition set_Auth (v : option Auth_) (o : Options) : Options :=
  let '(mkOptions f0 f1 f2 f3 _ f5 f6 f7 f8 f9 f10 f11 f12 f13 f14 f15 f16 f17 f18 f19 f20) := o in
  mkOptions f0 f1 f2 f3 v f5 f6 f7 f8 f9 f10 f11 f12 f13 f14 f15 f16 f17 f18 f19 f20.
Definition set_Transport (v : option Transport_) (o : Options) : Options :=
  let '(mkOptions f0 f1 f2 f3 f4 _ f6 f7 f8 f9 f10 f11 f12 f13 f14 f15 f16 f17 f18 f19 f20) := o in
  mkOptions f0 f1 f2 f3 f4 v f6 f7 f8 f9 f10 f11 f12 f13 f14 f15 f16 f17 f18 f19 f20.
Definition set_Metadata (v : option (gmap string string)) (o : Options) : Options :=
  let '(mkOptions f0 f1 f2 f3 f4 f5 _ f7 f8 f9 f10 f11 f12 f13 f14 f15 f16 f17 f18 f19 f20) := o in
  mkOptions f0 f1 f2 f3 f4 f5 v f7 f8 f9 f10 f11 f12 f13 f14 f15 f16 f17 f18 f19 f20.
Definition set_Name (v : string) (o : Options) : Options :=
  let '(mkOptions f0 f1 f2 f3 f4 f5 f6 _ f8 f9 f10 f11 f12 f13 f14 f15 f16 f17 f18 f19 f20) := o in
  mkOptions f0 f1 f2 f3 f4 f5 f6 v f8 f9 f10 f11 f12 f13 f14 f15 f16 f17 f18 f19 f20.
Definition set_Address (v : string) (o : Options) : Options :=
  let '(mkOptions f0 f1 f2 f3 f4 f5 f6 f7 _ f9 f10 f11 f12 f13 f14 f15 f16 f17 f18 f19 f20) := o in
  mkOptions f0 f1 f2 f3 f4 f5 f6 f7 v f9 f10 f11 f12 f13 f14 f15 f16 f17 f18 f19 f20.
Definition set_Advertise (v : string) (o : Options) : Options :=
  let '(mkOptions f0 f1 f2 f3 f4 f5 f6 f7 f8 _ f10 f11 f12 f13 f14 f15 f16 f17 f18 f19 f20) := o in
  mkOptions f0 f1 f2 f3 f4 f5 f6 f7 f8 v f10 f11 f12 f13 f14 f15 f16 f17 f18 f19 f20.
Definition set_Id (v : string) (o : Options) : Options :=
  let '(mkOptions f0 f1 f2 f3 f4 f5 f6 f7 f8 f9 _ f11 f12 f13 f14 f15 f16 f17 f18 f19 f20) := o in
  mkOptions f0 f1 f2 f3 f4 f5 f6 f7 f8 f9 v f11 f12 f13 f14 f15 f16 f17 f18 f19 f20.
Definition set_Namespace (v : string) (o : Options) : Options :=
  let '(mkOptions f0 f1 f2 f3 f4 f5 f6 f7 f8 f9 f10 _ f12 f13 f14 f15 f16 f17 f18 f19 f20) := o in
  mkOptions f0 f1 f2 f3 f4 f5 f6 f7 f8 f9 f10 v f12 f13 f14 f15 f16 f17 f18 f19 f20.
Definition set_Version (v : string) (o : Options) : Options :=
  let '(mkOptions f0 f1 f2 f3 f4 f5 f6 f7 f8 f9 f10 f11 _ f13 f14 f15 f16 f17 f18 f19 f20) := o in
  mkOptions f0 f1 f2 f3 f4 f5 f6 f7 f8 f9 f10 f11 v f13 f14 f15 f16 f17 f18 f19 f20.
Definition set_HdlrWrappers (v : list HandlerWrapper) (o : Options) : Options :=
  let '(mkOptions f0 f1 f2 f3 f4 f5 f6 f7 f8 f9 f10 f11 f12 _ f14 f15 f16 f17 f18 f19 f20) := o in
  mkOptions f0 f1 f2 f3 f4 f5 f6 f7 f8 f9 f10 f11 f12 v f14 f15 f16 f17 f18 f19 f20.
Definition set_SubWrappers (v : list SubscriberWrapper) (o : Options) : Options :=
  let '(mkOptions f0 f1 f2 f3 f4 f5 f6 f7 f8 f9 f10 f11 f12 f13 _ f15 f16 f17 f18 f19 f20) := o in
  mkOptions f0 f1 f2 f3 f4 f5 f6 f7 f8 f9 f10 f11 f12 f13 v f15 f16 f17 f18 f19 f20.
Definition set_RegisterCheck (v : option RegisterCheckFn) (o : Options) : Options :=
  let '(mkOptions f0 f1 f2 f3 f4 f5 f6 f7 f8 f9 f10 f11 f12 f13 f14 _ f16 f17 f18 f19 f20) := o in
  mkOptions f0 f1 f2 f3 f4 f5 f6 f7 f8 f9 f10 f11 f12 f13 f14 v f16 f17 f18 f19 f20.
Definition set_RegisterTTL (v : Z) (o : Options) : Options :=
  let '(mkOptions f0 f1 f2 f3 f4 f5 f6 f7 f8 f9 f10 f11 f12 f13 f14 f15 _ f17 f18 f19 f20) := o in
  mkOptions f0 f1 f2 f3 f4 f5 f6 f7 f8 f9 f10 f11 f12 f13 f14 f15 v f17 f18 f19 f20.
Definition set_RegisterInterval (v : Z) (o : Options) : Options :=
  let '(mkOptions f0 f1 f2 f3 f4 f5 f6 f7 f8 f9 f10 f11 f12 f13 f14 f15 f16 _ f18 f19 f20) := o in
  mkOptions f0 f1 f2 f3 f4 f5 f6 f7 f8 f9 f10 f11 f12 f13 f14 f15 f16 v f18 f19 f20.
Definition set_Router (v : option Router_) (o : Options) : Options :=
  let '(mkOptions f0 f1 f2 f3 f4 f5 f6 f7 f8 f9 f10 f11 f12 f13 f14 f15 f16 f17 _ f19 f20) := o in
  mkOptions f0 f1 f2 f3 f4 f5 f6 f7 f8 f9 f10 f11 f12 f13 f14 f15 f16 f17 v f19 f20.
Definition set_TLSConfig (v : option TLSConfig_) (o : Options) : Options :=
  let '(mkOptions f0 f1 f2 f3 f4 f5 f6 f7 f8 f9 f10 f11 f12 f13 f14 f15 f16 f17 f18 _ f20) := o in
  mkOptions f0 f1 f2 f3 f4 f5 f6 f7 f8 f9 f10 f11 f12 f13 f14 f15 f16 f17 f18 v f20.
Definition set_Context (v : option GoContext) (o : Options) : Options :=
  let '(mkOptions f0 f1 f2 f3 f4 f5 f6 f7 f8 f9 f10 f11 f12 f13 f14 f15 f16 f17 f18 f19 _) := o in
  mkOptions f0 f1 f2 f3 f4 f5 f6 f7 f8 f9 f10 f11 f12 f13 f14 f15 f16 f17 f18 f19 v.

(** [type Option func(o *Options)]: the struct is passed through; an option
    may panic. *)
Definition Option : Type := Options -> Outcome Options.

(** Server name *)
Definition Name (n : string) : Option :=
  fun o => Returned (set_Name n o).

(** Namespace to register handlers in *)
Definition Namespace (n : string) : Option :=
  fun o => Returned (set_Namespace n o).

(** Unique server id *)
Definition Id (id : string) : Option :=
  fun o => Returned (set_Id id o).

(** Version of the service *)
Definition Version (v : string) : Option :=
  fun o => Returned (set_Version v o).

(** Address to bind to - host:port *)
Definition Address (a : string) : Option :=
  fun o => Returned (set_Address a o).

(** The address to advertise for discovery - host:port *)
Definition Advertise (a : string) : Option :=
  fun o => Returned (set_Advertise a o).

(** Broker to use for pub/sub *)
Definition Broker (b : option Broker_) : Option :=
  fun o => Returned (set_Broker b o).

(** Codec to use to encode/decode requests for a given content type:
    [o.Codecs[contentType] = c], which panics on a nil map. *)
Definition Codec (contentType : string) (c : NewCodec) : Option :=
  fun o =>
    match opts_Codecs o with
    | Some m => Returned (set_Codecs (Some (<[contentType := c]> m)) o)
    | None => Panicked nil_map_write
    end.

(** Context specifies a context for the service. *)
Definition Context_ (ctx : option GoContext) : Option :=
  fun o => Returned (set_Context ctx o).

(** Registry used for discovery *)
Definition Registry (r : option Registry_) : Option :=
  fun o => Returned (set_Registry r o).

(** Trace mechanism for distributed tracking *)
Definition Trace (t : option Trace_) : Option :=
  fun o => Returned (set_Trace t o).

(** Auth mechanism for role based access control *)
Definition Auth (a : option Auth_) : Option :=
  fun o => Returned (set_Auth a o).

(** Transport mechanism for communication e.g http, rabbitmq, etc *)
Definition Transport (t : option Transport_) : Option :=
  fun o => Returned (set_Transport t o).

(** Metadata associated with the server *)
Definition Metadata (md : option (gmap string string)) : Option :=
  fun o => Returned (set_Metadata md o).

(** RegisterCheck run func before registry service *)
Definition RegisterCheck (fn : option RegisterCheckFn) : Option :=
  fun o => Returned (set_RegisterCheck fn o).

(** Register the service with a TTL *)
Definition RegisterTTL (t : Z) : Option :=
  fun o => Returned (set_RegisterTTL t o).

(** Register the service with at interval *)
Definition RegisterInterval (t : Z) : Option :=
  fun o => Returned (set_RegisterInterval t o).

(** TLSConfig specifies a *tls.Config.  The source no longer sets a default
    transport first (that code is commented out), so
    [o.Transport.Init(...)] is a method call on a nil interface when no
    transport was set.  [Init] acts on the transport object, which [Options]
    only refers to. *)
Definition TLSConfig (t : option TLSConfig_) : Option :=
  fun o =>
    let o := set_TLSConfig t o in
    match opts_Transport o with
    | Some _ => Returned o
    | None => Panicked nil_dereference
    end.

(** WithRouter sets the request router *)
Definition WithRouter (r : option Router_) : Option :=
  fun o => Returned (set_Router r o).

(** Wait tells the server to wait for requests to finish before exiting *)
Definition Wait (wg : option WaitGroup) : Option :=
  fun o =>
    let o := match opts_Context o with
             | None => set_Context (Some Background) o
             | Some _ => o
             end in
    let wg := match wg with
              | None => NewWaitGroup
              | Some wg => wg
              end in
    Returned (set_Context (option_map (fun ctx => WithWait ctx wg) (opts_Context o)) o).

(** Adds a handler Wrapper to a list of options passed into the server *)
Definition WrapHandler (w : HandlerWrapper) : Option :=
  fun o => Returned (set_HdlrWrappers (opts_HdlrWrappers o ++ [w]) o).

(** Adds a subscriber Wrapper to a list of options passed into the server *)
Definition WrapSubscriber (w : SubscriberWrapper) : Option :=
  fun o => Returned (set_SubWrappers (opts_SubWrappers o ++ [w]) o).

(** [for _, o := range opt { o(&opts) }] *)
Fixpoint apply_options (opts : Options) (opt : list Option) : Outcome Options :=
  match opt with
  | [] => Returned opts
  | o :: rest => opts ← o opts; apply_options opts rest
  end.

(** A text field after [newOptions]: its default when it is empty. *)
Definition or_default (s d : string) : string := if s is "" then d else s.

(** The struct [newOptions] starts from: every field not listed is zero. *)
Definition initial_options `{Defaults} : Options :=
  {| opts_Codecs := Some ∅;
     opts_Broker := None;
     opts_Registry := None;
     opts_Trace := None;
     opts_Auth := None;
     opts_Transport := None;
     opts_Metadata := Some ∅;
     opts_Name := "";
     opts_Address := "";
     opts_Advertise := "";
     opts_Id := "";
     opts_Namespace := "";
     opts_Version := "";
     opts_HdlrWrappers := [];
     opts_SubWrappers := [];
     opts_RegisterCheck := None;
     opts_RegisterTTL := DefaultRegisterTTL;
     opts_RegisterInterval := DefaultRegisterInterval;
     opts_Router := None;
     opts_TLSConfig := None;
     opts_Context := None |}.

Definition newOptions `{Defaults} (opt : list Option) : Outcome Options :=
  let opts := initial_options in
  opts ← apply_options opts opt;
  let opts := if opts_Broker opts is None
              then set_Broker (Some MemoryBroker) opts else opts in
  let opts := if opts_Registry opts is None
              then set_Registry (Some MemoryRegistry) opts else opts in
  let opts := if opts_Transport opts is None
              then set_Transport (Some MemoryTransport) opts else opts in
  let opts := if opts_RegisterCheck opts is None
              then set_RegisterCheck (Some DefaultRegisterCheck) opts else opts in
  let opts := if (String.length (opts_Address opts) =? 0)%nat
              then set_Address DefaultAddress opts else opts in
  let opts := if (String.length (opts_Name opts) =? 0)%nat
              then set_Name DefaultName opts else opts in
  let opts := if (String.length (opts_Id opts) =? 0)%nat
              then set_Id DefaultId opts else opts in
  let opts := if (String.length (opts_Version opts) =? 0)%nat
              then set_Version DefaultVersion opts else opts in
  Returned opts.

(** A wrapper option of either kind, and the wrappers of each kind in a
    list of them. *)
Definition wrap_option (x : HandlerWrapper + SubscriberWrapper) : Option :=
  match x with
  | inl w => WrapHandler w
  | inr w => WrapSubscriber w
  end.
Definition handler_wrappers (l : list (HandlerWrapper + SubscriberWrapper))
  : list HandlerWrapper :=
  omap (fun x => match x with inl w => Some w | inr _ => None end) l.
Definition subscriber_wrappers (l : list (HandlerWrapper + SubscriberWrapper))
  : list SubscriberWrapper :=
  omap (fun x => match x with inl _ => None | inr w => Some w end) l.

(** Modelled from the spec: the code that puts [Options.HdlrWrappers] and
    [Options.SubWrappers] around a handler or subscriber is declared outside
    src.  The spec's composition rule: wrappers are applied in registration
    order such that the first-registered wrapper is the outermost, the
    terminal function being the innermost. *)
Definition wrap_handler (ws : list HandlerWrapper) (h : HandlerFunc) : HandlerFunc :=
  foldr (fun w next => w next) h ws.
Definition wrap_subscriber (ws : list SubscriberWrapper) (h : SubscriberFunc)
  : SubscriberFunc :=
  foldr (fun w next => w next) h ws.

End Server.

Arguments Options {_} E.
Arguments Option {_} E.
Arguments HandlerFunc {_} E.
Arguments HandlerWrapper {_} E.
Arguments SubscriberFunc {_} E.
Arguments SubscriberWrapper {_} E.

End server.

(** *** Observing a wrapper chain *)

Module chain.
Import Go errors.

(** The calls of a wrapper that reports when it is entered and left, and of
    the terminal handler. *)
Inductive chainE : Type -> Type :=
| Pre (name : string) : chainE unit
| Post (name : string) : chainE unit
| Terminal : chainE (Outcome (option error)).

Section Chain.
Context `{External}.

(** A wrapper that reports, calls [next] once and reports again. *)
Definition observing (name : string) : server.HandlerWrapper chainE :=
  fun next =>
    fun ctx req rsp =>
      call (Pre name);;
      err ← next ctx req rsp;
      call (Post name);;
      mret err.

(** The terminal function: the user's handler body. *)
Definition terminal : server.HandlerFunc chainE :=
  fun ctx req rsp => invoke Terminal.

End Chain.

(** A trace, call by call. *)
Definition pre (name : string) : string := name +:+ "-pre".
Definition post (name : string) : string := name +:+ "-post".
Definition label (ev : Event chainE) : string :=
  match ev with
  | Evt e _ =>
      match e with
      | Pre name => pre name
      | Post name => post name
      | Terminal => "T"
      end
  end.

End chain.

(** ** package rpc: the rpc server's options *)

Module rpc.
Import Go errors.

Definition newOptions `{External} `{server.Defaults} {E : Type -> Type}
    (opt : list (server.Option E)) : Outcome (server.Options E) :=
  let opts := server.initial_options in
  opts ← server.apply_options opts opt;
  let opts := if server.opts_Broker opts is None
              then server.set_Broker (Some server.MemoryBroker) opts else opts in
  let opts := if server.opts_Registry opts is None
              then server.set_Registry (Some server.MemoryRegistry) opts else opts in
  let opts := if server.opts_Transport opts is None
              then server.set_Transport (Some server.MemoryTransport) opts else opts in
  let opts := if server.opts_RegisterCheck opts is None
              then server.set_RegisterCheck (Some server.DefaultRegisterCheck) opts
              else opts in
  let opts := if (String.length (server.opts_Address opts) =? 0)%nat
              then server.set_Address server.DefaultAddress opts else opts in
  let opts := if (String.length (server.opts_Name opts) =? 0)%nat
              then server.set_Name server.DefaultName opts else opts in
  let opts := if (String.length (server.opts_Id opts) =? 0)%nat
              then server.set_Id server.DefaultId opts else opts in
  let opts := if (String.length (server.opts_Version opts) =? 0)%nat
              then server.set_Version server.DefaultVersion opts else opts in
  Returned opts.

End rpc.

(** ** package client, as far as the tracing wrappers use it *)

Module client.
Import Go errors.

(** [client.Request], [client.Message]: what the wrappers read. *)
Record Request : Type := {
  Service : string;
  Endpoint : string;
}.
Record Message : Type := {
  Topic : string;
}.

Inductive CallOption : Type := CallOptionRef (id : nat).
Inductive PublishOption : Type := PublishOptionRef (id : nat).
Inductive CallOptions : Type := CallOptionsVal (id : nat).
Inductive Stream_ : Type := StreamRef (id : nat).

Section Client.
Context `{External} {E : Type -> Type}.

(** The methods of [client.Client] that [otWrapper] overrides; the others
    are promoted from the embedded client unchanged. *)
Record Client : Type := {
  Call : GoContext -> Request -> nat -> list CallOption -> M E (option error);
  Stream : GoContext -> Request -> list CallOption
           -> M E (option Stream_ * option error);
  Publish : GoContext -> Message -> list PublishOption -> M E (option error);
}.

(** [type Wrapper func(Client) Client]; the wrapper's body is Go code. *)
Definition Wrapper : Type := Client -> M E Client.

Definition CallFunc : Type :=
  GoContext -> string -> Request -> nat -> CallOptions -> M E (option error).
Definition CallWrapper : Type := CallFunc -> CallFunc.

End Client.

Arguments Client {_} E.
Arguments Wrapper {_} E.
Arguments CallFunc {_} E.
Arguments CallWrapper {_} E.

End client.

(** ** package component: the registry of named wrappers *)

Module component.

Section Component.
Context `{External} {E : Type -> Type}.

(** Modelled from the spec: package component is declared outside src.  The
    spec's design notes call it global mutable wrapper registration, fed by
    package-level side effects: a package-level table from a name to a
    wrapper, one for server wrappers and one for client wrappers, which
    [SetServerWrapper] and [SetClientWrapper] write. *)
Record Registry : Type := {
  serverWrappers : gmap string (server.HandlerWrapper E);
  clientWrappers : gmap string (client.Wrapper E);
}.

Definition empty : Registry :=
  {| serverWrappers := ∅; clientWrappers := ∅ |}.

Definition SetServerWrapper (name : string) (w : server.HandlerWrapper E)
    (g : Registry) : Registry :=
  {| serverWrappers := <[name := w]> (serverWrappers g);
     clientWrappers := clientWrappers g |}.

Definition SetClientWrapper (name : string) (w : client.Wrapper E)
    (g : Registry) : Registry :=
  {| serverWrappers := serverWrappers g;
     clientWrappers := <[name := w]> (clientWrappers g) |}.

End Component.

Arguments Registry {_} E.

End component.

(** ** package jaeger: the tracing wrappers *)

Module jaeger.
Import Go errors opentracing.

Section Jaeger.
Context `{External}.

(** What a wrapped function is called with. *)
Inductive Args : Type :=
| ClientCall (req : client.Request) (rsp : nat) (opts : list client.CallOption)
| ClientStream (req : client.Request) (opts : list client.CallOption)
| ClientPublish (p : client.Message) (opts : list client.PublishOption)
| CallFuncArgs (addr : string) (req : client.Request) (rsp : nat)
               (opts : client.CallOptions)
| HandlerArgs (req : server.Request) (rsp : nat)
| SubscriberArgs (msg : server.Message).

(** The calls the wrappers make: to the tracer, to a span, and to the
    function they wrap ([Next], [NextStream]), which is user code. *)
Inductive traceE : Type -> Type :=
| GlobalTracer : traceE Tracer
| Extract (t : Tracer) (carrier : metadata.Metadata) : traceE (SpanContext + error)
| StartSpan (t : Tracer) (name : string) (opts : list StartSpanOption) : traceE Span
| Inject (t : Tracer) (sc : SpanContext) (carrier : metadata.Metadata)
  : traceE (metadata.Metadata * option error)
| LogFields (sp : Span) (key value : string) : traceE unit
| SetTag (sp : Span) (key : string) (value : TagValue) : traceE unit
| Finish (sp : Span) : traceE unit
| Next (ctx : GoContext) (a : Args) : traceE (Outcome (option error))
| NextStream (ctx : GoContext) (a : Args)
  : traceE (Outcome (option client.Stream_ * option error)).

(** [ext.SpanKindRPCClient.Set(span)] and its siblings set the tag
    [span.kind]. *)
Definition SpanKind_Set (kind : string) (span : Span) : M traceE unit :=
  call (SetTag span "span.kind" (TagString kind)).

(** trace wrapper *)
Record otWrapper : Type := {
  ot : Tracer;
  Client : client.Client traceE;
}.

(** [md.Set(strings.Title(k), v)] *)
Definition set_one (md : metadata.Metadata) (kv : string * string)
  : metadata.Metadata :=
  metadata.Set_ md (Title kv.1) kv.2.

(** [for k, v := range nmd { md.Set(strings.Title(k), v) }] *)
Definition set_titled (md nmd : metadata.Metadata) : metadata.Metadata :=
  foldl set_one md (range_order nmd).

(** StartSpanFromContext returns a new span with the given operation name
    and options.  If a span is found in the context, it will be used as the
    parent of the resulting span.  The result is [(ctx, sp, nil)] or
    [(nil, nil, err)]. *)
Definition StartSpanFromContext (ctx : GoContext) (tracer : Tracer)
    (name : string) (opts : list StartSpanOption)
  : M traceE (GoContext * Span + error) :=
  let md := match FromContext ctx with
            | Some md => md
            | None => ∅
            end in
  (* Find parent span. *)
  opts ← match SpanFromContext ctx with
         | Some parentSpan =>
             mret (opts ++ [ChildOf (span_Context parentSpan)])
         | None =>
             r ← call (Extract tracer md);
             match r with
             | inl spanCtx => mret (opts ++ [ChildOf spanCtx])
             | inr _ => mret opts
             end
         end;
  (* allocate new map with only one element *)
  let nmd : metadata.Metadata := ∅ in
  sp ← call (StartSpan tracer name opts);
  r ← call (Inject (span_Tracer sp) (span_Context sp) nmd);
  let '(nmd, err) := r in
  match err with
  | Some err => mret (inr err)
  | None =>
      let md := set_titled md nmd in
      let ctx := ContextWithSpan ctx sp in
      let ctx := NewContext ctx md in
      mret (inl (ctx, sp))
  end.

(** [if err = next(...); err != nil { span.LogFields(...); span.SetTag(...) }] *)
Definition mark_failed (span : Span) (err : option error) : M traceE unit :=
  match err with
  | Some e =>
      call (LogFields span "error" (Error e));;
      call (SetTag span "error" (TagBool true))
  | None => mret tt
  end.

Definition otWrapper_Call (o : otWrapper) (ctx : GoContext) (req : client.Request)
    (rsp : nat) (opts : list client.CallOption) : M traceE (option error) :=
  let name := client.Service req +:+ "." +:+ client.Endpoint req in
  r ← StartSpanFromContext ctx (ot o) name [];
  match r with
  | inr err => mret (Some err)
  | inl (ctx, span) =>
      defer (call (Finish span))
        (err ← client.Call (Client o) ctx req rsp opts;
         mark_failed span err;;
         mret err)
  end.

Definition otWrapper_Stream (o : otWrapper) (ctx : GoContext) (req : client.Request)
    (opts : list client.CallOption)
  : M traceE (option client.Stream_ * option error) :=
  let name := client.Service req +:+ "." +:+ client.Endpoint req in
  r ← StartSpanFromContext ctx (ot o) name [];
  match r with
  | inr err => mret (None, Some err)
  | inl (ctx, span) =>
      defer (call (Finish span))
        (r ← client.Stream (Client o) ctx req opts;
         let '(stream, err) := r in
         mark_failed span err;;
         mret (stream, err))
  end.

Definition otWrapper_Publish (o : otWrapper) (ctx : GoContext) (p : client.Message)
    (opts : list client.PublishOption) : M traceE (option error) :=
  let name := "Pub to " +:+ client.Topic p in
  r ← StartSpanFromContext ctx (ot o) name [];
  match r with
  | inr err => mret (Some err)
  | inl (ctx, span) =>
      SpanKind_Set "producer" span;;
      defer (call (Finish span))
        (err ← client.Publish (Client o) ctx p opts;
         mark_failed span err;;
         mret err)
  end.

(** [if ot == nil { ot = opentracing.GlobalTracer() }] *)
Definition tracer_or_global (ot : option Tracer) : M traceE Tracer :=
  match ot with
  | None => call GlobalTracer
  | Some t => mret t
  end.

(** NewClientWrapper accepts an open tracing Trace and returns a Client
    Wrapper.  The client it returns has [otWrapper]'s three methods. *)
Definition NewClientWrapper (ot : option Tracer) : client.Wrapper traceE :=
  fun c =>
    ot ← tracer_or_global ot;
    let o := {| ot := ot; Client := c |} in
    mret {| client.Call := otWrapper_Call o;
            client.Stream := otWrapper_Stream o;
            client.Publish := otWrapper_Publish o |}.

(** NewCallWrapper accepts an opentracing Tracer and returns a Call Wrapper *)
Definition NewCallWrapper (ot : option Tracer) : client.CallWrapper traceE :=
  fun cf =>
    fun ctx addr req rsp opts =>
      ot ← tracer_or_global ot;
      let name := client.Service req +:+ "." +:+ client.Endpoint req in
      r ← StartSpanFromContext ctx ot name [];
      match r with
      | inr err => mret (Some err)
      | inl (ctx, span) =>
          SpanKind_Set "client" span;;
          defer (call (Finish span))
            (err ← cf ctx addr req rsp opts;
             mark_failed span err;;
             mret err)
      end.

(** NewHandlerWrapper accepts an opentracing Tracer and returns a Handler
    Wrapper *)
Definition NewHandlerWrapper (ot : option Tracer) : server.HandlerWrapper traceE :=
  fun h =>
    fun ctx req rsp =>
      ot ← tracer_or_global ot;
      let name := server.Service req +:+ "." +:+ server.Endpoint req in
      r ← StartSpanFromContext ctx ot name [];
      match r with
      | inr err => mret (Some err)
      | inl (ctx, span) =>
          SpanKind_Set "server" span;;
          defer (call (Finish span))
            (err ← h ctx req rsp;
             mark_failed span err;;
             mret err)
      end.

(** NewSubscriberWrapper accepts an opentracing Tracer and returns a
    Subscriber Wrapper *)
Definition NewSubscriberWrapper (ot : option Tracer)
  : server.SubscriberWrapper traceE :=
  fun next =>
    fun ctx msg =>
      let name := "Sub from " +:+ server.Topic msg in
      ot ← tracer_or_global ot;
      r ← StartSpanFromContext ctx ot name [];
      match r with
      | inr err => mret (Some err)
      | inl (ctx, span) =>
          SpanKind_Set "consumer" span;;
          defer (call (Finish span))
            (err ← next ctx msg;
             mark_failed span err;;
             mret err)
      end.

(** [func init()]: run when the package is imported.  [WrapperTraceKey] is
    [constant.WrapperTraceKey], declared outside src. *)
Definition init (WrapperTraceKey : string) (g : component.Registry traceE)
  : component.Registry traceE :=
  let g := component.SetServerWrapper WrapperTraceKey (NewHandlerWrapper None) g in
  component.SetClientWrapper WrapperTraceKey (NewClientWrapper None) g.

(** The wrapped functions as user code: opaque calls, answered by the
    environment, which may return any error or panic. *)
Definition opaque_client : client.Client traceE :=
  {| client.Call := fun ctx req rsp opts => invoke (Next ctx (ClientCall req rsp opts));
     client.Stream := fun ctx req opts => invoke (NextStream ctx (ClientStream req opts));
     client.Publish := fun ctx p opts => invoke (Next ctx (ClientPublish p opts)) |}.
Definition opaque_otWrapper (t : Tracer) : otWrapper :=
  {| ot := t; Client := opaque_client |}.
Definition opaque_call : client.CallFunc traceE :=
  fun ctx addr req rsp opts => invoke (Next ctx (CallFuncArgs addr req rsp opts)).
Definition opaque_handler : server.HandlerFunc traceE :=
  fun ctx req rsp => invoke (Next ctx (HandlerArgs req rsp)).
Definition opaque_subscriber : server.SubscriberFunc traceE :=
  fun ctx msg => invoke (Next ctx (SubscriberArgs msg)).

(** *** Reading a trace *)

(** What the wrapper records on the span when the wrapped function returns
    [err]: nothing for nil, else the error text and the error tag. *)
Definition failure_marks (span : Span) (err : option error) : list (Event traceE) :=
  match err with
  | Some e => [Evt (LogFields span "error" (Error e)) tt;
               Evt (SetTag span "error" (TagBool true)) tt]
  | None => []
  end.

(** The tag a wrapper sets on its span before it calls on. *)
Definition kind_tag (kind : string) (span : Span) : Event traceE :=
  Evt (SetTag span "span.kind" (TagString kind)) tt.

(** The calls of the wrapped function in a trace, with the context and the
    arguments of each. *)
Definition next_call (ev : Event traceE) : option (GoContext * Args) :=
  match ev with
  | Evt e _ =>
      match e with
      | Next ctx a => Some (ctx, a)
      | NextStream ctx a => Some (ctx, a)
      | _ => None
      end
  end.
Definition next_calls (tr : list (Event traceE)) : list (GoContext * Args) :=
  omap next_call tr.

(** The error of the first [Inject] call in a trace, if it had one. *)
Definition inject_error (ev : Event traceE) : option (option error) :=
  match ev with
  | Evt e x =>
      match e in traceE X return X -> option (option error) with
      | Inject _ _ _ => fun x => Some x.2
      | _ => fun _ => None
      end x
  end.
Definition inject_failure (tr : list (Event traceE)) : option error :=
  mjoin (head (omap inject_error tr)).

(** The calls of [tracer.Extract] in a trace. *)
Definition is_Extract (ev : Event traceE) : bool :=
  match ev with
  | Evt e _ => match e with Extract _ _ => true | _ => false end
  end.

(** The tracer a wrapper made with [ot] works with, the call it makes to
    find it and the world after that. *)
Definition resolve (env : Env traceE) (ot : option Tracer) (w : World env)
  : Tracer * list (Event traceE) * World env :=
  match ot with
  | Some t => (t, [], w)
  | None => ((answer env GlobalTracer w).1,
             [Evt GlobalTracer (answer env GlobalTracer w).1],
             (answer env GlobalTracer w).2)
  end.

(** The trace of a wrapper around an opaque function: when the span was
    made, one call of the function, with the context that
    [StartSpanFromContext] returned; when it was not, no call, and the
    error of [Inject] is the result. *)
Definition summary {R} (failed : error -> R) (args : Args)
    (started : Outcome (GoContext * Span + error) * list (Event traceE))
    (r : Outcome R) (tr : list (Event traceE)) : Prop :=
  match started.1 with
  | Returned (inl (ctx', span)) =>
      next_calls tr = [(ctx', args)] /\ inject_failure tr = None
  | Returned (inr e) =>
      next_calls tr = [] /\ inject_failure tr = Some e /\ r = Returned (failed e)
  | Panicked _ => False
  end.

(** Whether [StartSpanFromContext] returned a span. *)
Definition span_created (r : Outcome (GoContext * Span + error)) : bool :=
  match r with
  | Returned (inl _) => true
  | _ => false
  end.

(** What happens to spans and to the wrapped function in a trace:
    [StartSpan] hands out a span, the wrapped function is called, [Finish]
    is called on a span. *)
Inductive Milestone : Type :=
| Started (sp : Span)
| Called (a : Args)
| Finished (sp : Span).
Definition milestone (ev : Event traceE) : option Milestone :=
  match ev with
  | Evt e x =>
      match e in traceE X return X -> option Milestone with
      | StartSpan _ _ _ => fun sp => Some (Started sp)
      | Next _ a => fun _ => Some (Called a)
      | NextStream _ a => fun _ => Some (Called a)
      | Finish sp => fun _ => Some (Finished sp)
      | _ => fun _ => None
      end x
  end.

(** The [span.kind] tags set in a trace. *)
Definition kind_set (ev : Event traceE) : option string :=
  match ev with
  | Evt e _ =>
      match e with
      | SetTag _ "span.kind" (TagString k) => Some k
      | _ => None
      end
  end.

(** The [span.kind] tags and the calls of the wrapped function in a trace,
    in the order they happen. *)
Definition kind_or_call (ev : Event traceE) : option (string + Args) :=
  match kind_set ev with
  | Some k => Some (inl k)
  | None =>
      match next_call ev with
      | Some (_, a) => Some (inr a)
      | None => None
      end
  end.

(** One span in a trace of a wrapper around a function called with [args]:
    the span is started, the function is called, then the same span is
    finished, and that is the last thing that happens; when [Inject]
    failed, the span is started and nothing else: no call, no [Finish]. *)
Definition one_span (args : Args) (tr : list (Event traceE)) : Prop :=
  exists sp,
    omap milestone tr
    = Started sp :: match inject_failure tr with
                    | None => [Called args; Finished sp]
                    | Some _ => []
                    end /\
    (inject_failure tr = None -> last tr = Some (Evt (Finish sp) tt)).

(** What a wrapper that tags its span with [kind] does around the wrapped
    function: the tag, if it sets one, then the call; nothing when [Inject]
    failed. *)
Definition tag_then_call (kind : option string) (args : Args)
    (tr : list (Event traceE)) : Prop :=
  omap kind_or_call tr
  = match inject_failure tr with
    | None => match kind with
              | Some k => [inl k; inr args]
              | None => [inr args]
              end
    | Some _ => []
    end.

End Jaeger.

End jaeger.

(** ** config/source/nacos/impl.go *)

Module nacos.
Import Go errors.

(** *** strings.ReplaceAll *)

(** The scan of [strings.Replace] for a non-empty [old]: matches are taken
    leftmost first and do not overlap; [skip] counts the bytes of a match
    still to be dropped. *)
Fixpoint replace_scan (old new : string) (skip : nat) (s : string) : string :=
  match s with
  | EmptyString => EmptyString
  | String c rest =>
      match skip with
      | S k => replace_scan old new k rest
      | O =>
          if String.prefix old s
          then new +:+ replace_scan old new (String.length old - 1) rest
          else String c (replace_scan old new 0 rest)
      end
  end.

(** For an empty [old], [new] goes before every character and after the
    last one (bytewise here; the source never passes an empty [old]). *)
Fixpoint replace_empty (new : string) (s : string) : string :=
  match s with
  | EmptyString => new
  | String c rest => new +:+ String c (replace_empty new rest)
  end.

Definition ReplaceAll (s old new : string) : string :=
  match old with
  | EmptyString => replace_empty new s
  | _ => replace_scan old new 0 s
  end.

(** resolvedGroup will regular the group. Now, it will replace the '/' with
    '-'.  '/' is a special character for nacos *)
Definition resolvedGroup (group : string) : string :=
  if (String.length group <=? 0)%nat then group
  else ReplaceAll group "/" "-".

(** *** The configuration client *)

(** [config_client.IConfigClient], a reference. *)
Inductive IConfigClient : Type := IConfigClientRef (id : nat).

(** [vo.ConfigParam]: the fields the source sets. *)
Record ConfigParam : Type := {
  DataId : string;
  Group : string;
  Content : string;
}.

(** [config.Options], declared outside src: the key and the group of a
    lookup; [config.Option] changes it. *)
Record config_Options : Type := {
  opt_Key : string;
  opt_Group : string;
}.
Definition config_Option : Type := config_Options -> config_Options.

(** The calls into the nacos SDK and the logger. *)
Inductive nacosE : Type -> Type :=
| sdk_PublishConfig (c : IConfigClient) (p : ConfigParam) : nacosE (bool * option error)
| sdk_GetConfig (c : IConfigClient) (p : ConfigParam) : nacosE (string * option error)
| logger_Infof (msg : string) : nacosE unit.

(** NacosClient Nacos client.  [exit] is open until closed, [once] has run
    or not; [exit_closes] counts the executions of [close(n.exit)] (it is
    not a field of the source). *)
Record NacosClient : Type := {
  name : string;
  client : option IConfigClient;
  exit_closed : bool;
  once_done : bool;
  exit_closes : nat;
}.

(** Client Get Client *)
Definition Client (n : NacosClient) : option IConfigClient := client n.

(** SetClient Set client *)
Definition SetClient (c : option IConfigClient) (n : NacosClient) : NacosClient :=
  {| name := name n; client := c; exit_closed := exit_closed n;
     once_done := once_done n; exit_closes := exit_closes n |}.

(** [onceClose: func() { close(n.exit) }]; closing a closed channel
    panics. *)
Definition onceClose (n : NacosClient) : Outcome NacosClient :=
  if exit_closed n then Panicked close_of_closed_channel
  else Returned {| name := name n; client := client n; exit_closed := true;
                   once_done := once_done n; exit_closes := S (exit_closes n) |}.

(** [n.once.Do(f)]: [f] runs unless [once] has run already. *)
Definition once_Do (f : NacosClient -> Outcome NacosClient) (n : NacosClient)
  : Outcome NacosClient :=
  if once_done n then Returned n
  else
    n ← f n;
    Returned {| name := name n; client := client n; exit_closed := exit_closed n;
                once_done := true; exit_closes := exit_closes n |}.

Definition stop (n : NacosClient) : Outcome (bool * NacosClient) :=
  if exit_closed n then Returned (true, n)
  else
    n ← once_Do onceClose n;
    Returned (false, n).

(** NacosClientValid Get nacos client valid status *)
Definition NacosClientValid (n : NacosClient) : bool :=
  if exit_closed n then false
  else if Client n is None then false else true.

(** The objects [*NacosClient] points to. *)
Abbreviation Heap := (gmap nat NacosClient).

(** Close Close nacos client , then set null.  The receiver is a pointer,
    which may be nil or dangling in [h] only if the caller made it so. *)
Definition Close (p : option nat) (h : Heap) : Outcome Heap :=
  match p with
  | None => Returned h
  | Some a =>
      match h !! a with
      | None => Panicked nil_dereference
      | Some n =>
          r ← stop n;
          Returned (<[a := SetClient None r.2]> h)
      end
  end.

(** nacosDynamicConfiguration is the implementation of DynamicConfiguration
    based on nacos: the fields the methods below use.  [wg] is the counter
    of the wait group, [done_closed] tells whether [done] is closed,
    [n_client] is the pointer [client]. *)
Record nacosDynamicConfiguration : Type := {
  rootPath : string;
  wg : Z;
  done_closed : bool;
  n_client : option nat;
}.

Definition set_n_client (p : option nat) (n : nacosDynamicConfiguration)
  : nacosDynamicConfiguration :=
  {| rootPath := rootPath n; wg := wg n; done_closed := done_closed n;
     n_client := p |}.

(** [( *n.client.Client() )]: both pointers are dereferenced. *)
Definition the_client (n : nacosDynamicConfiguration) (h : Heap)
  : Outcome IConfigClient :=
  match n_client n with
  | None => Panicked nil_dereference
  | Some a =>
      match h !! a with
      | None => Panicked nil_dereference
      | Some c =>
          match Client c with
          | None => Panicked nil_dereference
          | Some cc => Returned cc
          end
      end
  end.

Definition lift_outcome {E A} (o : Outcome A) : M E A := Ret o.

(** PublishConfig will publish the config with the (key, group, value)
    pair *)
Definition PublishConfig (n : nacosDynamicConfiguration) (h : Heap)
    (key group value : string) : M nacosE (option error) :=
  let group := resolvedGroup group in
  c ← lift_outcome (the_client n h);
  r ← call (sdk_PublishConfig c {| DataId := key; Group := group; Content := value |});
  let '(ok, err) := r in
  match err with
  | Some err => mret (Some (WithStack err))
  | None =>
      if negb ok then mret (Some (New "publish config to Nocos failed"))
      else mret None
  end.

(** GetRule Get router rule *)
Definition GetRule (n : nacosDynamicConfiguration) (h : Heap)
    (key : string) (opts : list config_Option) : M nacosE (string * option error) :=
  let tmpOpts := {| opt_Key := ""; opt_Group := "" |} in
  let tmpOpts := foldl (fun o opt => opt o) tmpOpts opts in
  c ← lift_outcome (the_client n h);
  r ← call (sdk_GetConfig c {| DataId := key;
                               Group := resolvedGroup (opt_Group tmpOpts);
                               Content := "" |});
  let '(content, err) := r in
  match err with
  | Some err => mret ("", Some (WithStack err))
  | None => mret (content, None)
  end.

(** GetProperties, GetInternalProperty *)
Definition GetProperties := GetRule.
Definition GetInternalProperty := GetProperties.

(** IsAvailable Get available status: a receive from [done] is ready once
    [done] is closed. *)
Definition IsAvailable (n : nacosDynamicConfiguration) : bool :=
  if done_closed n then false else true.

Definition closeConfigs (n : nacosDynamicConfiguration) (h : Heap)
  : Outcome (nacosDynamicConfiguration * Heap) :=
  let client := n_client n in
  let n := set_n_client None n in
  (* Close the old client first to close the tmp node *)
  h ← Close client h;
  Returned (n, h).

(** *** Destroy, statement by statement, next to the background task *)

(** Where [Destroy] stands. *)
Inductive Pc : Type :=
| AtCloseDone
| AtWait
| AtCloseConfigs
| Done
| Crashed (v : any).

(** The configuration, the objects, [Destroy]'s position and whether the
    task started by [go HandleClientRestart(c)] still runs. *)
Record System : Type := {
  conf : nacosDynamicConfiguration;
  heap : Heap;
  pc : Pc;
  task_running : bool;
}.

Inductive Thread : Type := Main | Task.

(** One step of [Destroy]: [close(n.done)], then [n.wg.Wait()], which can
    only be passed when the counter is zero, then [n.closeConfigs()]. *)
Definition step_main (s : System) : option System :=
  match pc s with
  | AtCloseDone =>
      if done_closed (conf s)
      then Some {| conf := conf s; heap := heap s;
                   pc := Crashed close_of_closed_channel;
                   task_running := task_running s |}
      else Some {| conf := {| rootPath := rootPath (conf s); wg := wg (conf s);
                              done_closed := true; n_client := n_client (conf s) |};
                   heap := heap s; pc := AtWait; task_running := task_running s |}
  | AtWait =>
      if (wg (conf s) =? 0)%Z
      then Some {| conf := conf s; heap := heap s; pc := AtCloseConfigs;
                   task_running := task_running s |}
      else None
  | AtCloseConfigs =>
      match closeConfigs (conf s) (heap s) with
      | Returned (n, h) =>
          Some {| conf := n; heap := h; pc := Done; task_running := task_running s |}
      | Panicked v =>
          Some {| conf := conf s; heap := heap s; pc := Crashed v;
                  task_running := task_running s |}
      end
  | Done => None
  | Crashed _ => None
  end.

(** Modelled from the spec: [HandleClientRestart] is declared outside src.
    The spec has the reconnect task owned by the configuration, with a
    cancellation signal and a join on shutdown: the task ends once, and on
    its way out it calls [wg.Done()].  When it ends is left open. *)
Definition step_task (s : System) : option System :=
  if task_running s
  then Some {| conf := {| rootPath := rootPath (conf s); wg := (wg (conf s) - 1)%Z;
                          done_closed := done_closed (conf s);
                          n_client := n_client (conf s) |};
               heap := heap s; pc := pc s; task_running := false |}
  else None.

Definition step (t : Thread) (s : System) : option System :=
  match t with
  | Main => step_main s
  | Task => step_task s
  end.

(** Running a schedule: a thread that cannot move is passed over. *)
Fixpoint exec (sched : list Thread) (s : System) : System :=
  match sched with
  | [] => s
  | t :: rest => exec rest (default s (step t s))
  end.

(** [newNacosClient] on its successful path: [exit] is made, [once] has not
    run, the SDK client [cc] is set. *)
Definition newNacosClient (name : string) (cc : IConfigClient) : NacosClient :=
  {| name := name; client := Some cc; exit_closed := false; once_done := false;
     exit_closes := 0 |}.

(** [newNacosDynamicConfiguration] on its successful path, [Destroy] about
    to start: [done] is made, the client is created at address [0],
    [c.wg.Add(1)] has run and the task is started. *)
Definition started (root : string) (cc : IConfigClient) : System :=
  {| conf := {| rootPath := root; wg := 1; done_closed := false; n_client := Some 0 |};
     heap := {[ 0 := newNacosClient "nacos config" cc ]};
     pc := AtCloseDone;
     task_running := true |}.

(** *** Reading states and traces *)

(** A text without the character ['/']. *)
Definition slash_free (s : string) : Prop :=
  ~ In "/"%char (list_ascii_of_string s).

(** ['/'] becomes ['-'], every other character stays. *)
Definition dash_for_slash (c : ascii) : ascii :=
  if Ascii.eqb c "/" then "-"%char else c.

Fixpoint map_string (f : ascii -> ascii) (s : string) : string :=
  match s with
  | EmptyString => EmptyString
  | String c rest => String (f c) (map_string f rest)
  end.

(** The group name a call hands to the nacos SDK. *)
Definition group_passed (ev : Event nacosE) : option string :=
  match ev with
  | Evt e _ =>
      match e with
      | sdk_PublishConfig _ p => Some (Group p)
      | sdk_GetConfig _ p => Some (Group p)
      | logger_Infof _ => None
      end
  end.

(** [k] calls of [stop], one after the other. *)
Fixpoint stop_times (k : nat) (n : NacosClient) : Outcome NacosClient :=
  match k with
  | O => Returned n
  | S k => r ← stop n; stop_times k r.2
  end.

(** The client after [Close]: no SDK client, [exit] closed, by the one run
    of [once]. *)
Definition closed_client (name : string) : NacosClient :=
  {| name := name; client := None; exit_closed := true; once_done := true;
     exit_closes := 1 |}.

(** The states that interleavings of [Destroy] and the task reach. *)
Inductive reachable (s0 : System) : System -> Prop :=
| reach_start : reachable s0 s0
| reach_step s t s' : reachable s0 s -> step t s = Some s' -> reachable s0 s'.

(** What holds of every such state, by the position of [Destroy]. *)
Definition destroy_inv (root : string) (cc : IConfigClient) (s : System) : Prop :=
  rootPath (conf s) = root /\
  wg (conf s) = (if task_running s then 1 else 0)%Z /\
  match pc s with
  | AtCloseDone =>
      done_closed (conf s) = false /\ n_client (conf s) = Some 0 /\
      heap s = {[ 0 := newNacosClient "nacos config" cc ]}
  | AtWait =>
      done_closed (conf s) = true /\ n_client (conf s) = Some 0 /\
      heap s = {[ 0 := newNacosClient "nacos config" cc ]}
  | AtCloseConfigs =>
      done_closed (conf s) = true /\ task_running s = false /\
      n_client (conf s) = Some 0 /\
      heap s = {[ 0 := newNacosClient "nacos config" cc ]}
  | Done =>
      done_closed (conf s) = true /\ task_running s = false /\
      n_client (conf s) = None /\
      heap s = {[ 0 := closed_client "nacos config" ]}
  | Crashed _ => False
  end.

(** The steps [Destroy] and the task still have to take. *)
Definition remaining (s : System) : nat :=
  match pc s with
  | AtCloseDone => 3
  | AtWait => 2
  | AtCloseConfigs => 1
  | Done => 0
  | Crashed _ => 0
  end + (if task_running s then 1 else 0).

(** *** newNacosClient's configuration: timeout and server addresses *)

(** [time.Millisecond], in nanoseconds. *)
Definition Millisecond : Z := 1000000.

(** Conversion of an integer to [int32] and to [uint64]: the low bits, read
    as a signed and as an unsigned number. *)
Definition to_int32 (z : Z) : Z := ((z + 2 ^ 31) mod 2 ^ 32 - 2 ^ 31)%Z.
Definition to_uint64 (z : Z) : Z := (z mod 2 ^ 64)%Z.

(** [uint64(int32(timeout / time.Millisecond))], the value of [TimeoutMs]
    and of [ListenInterval]; [timeout] is a [time.Duration] and the division
    truncates towards zero. *)
Definition TimeoutMs (timeout : Z) : Z :=
  to_uint64 (to_int32 (timeout ÷ Millisecond)).

(** [strings.Split(s, sep)] for a one-character [sep]. *)
Fixpoint Split (s : string) (sep : ascii) : list string :=
  match s with
  | EmptyString => [EmptyString]
  | String a rest =>
      if Ascii.eqb a sep then EmptyString :: Split rest sep
      else match Split rest sep with
           | hd :: tl => String a hd :: tl
           | [] => [String a EmptyString]
           end
  end.

(** [strconv.ParseUint(s, 10, 64)]: [None] stands for an error, which is a
    syntax error (empty text, a character that is no decimal digit) or a
    range error (a value above [2^64 - 1]). *)
Definition digit (c : ascii) : option Z :=
  let n := Z.of_nat (nat_of_ascii c) in
  if ((48 <=? n) && (n <=? 57))%Z then Some (n - 48)%Z else None.
Fixpoint parse_digits (n : Z) (s : string) : option Z :=
  match s with
  | EmptyString => Some n
  | String c rest =>
      match digit c with
      | None => None
      | Some d =>
          let n1 := (n * 10 + d)%Z in
          if (n1 <=? 2 ^ 64 - 1)%Z then parse_digits n1 rest else None
      end
  end.
Definition ParseUint (s : string) : option Z :=
  match s with
  | EmptyString => None
  | _ => parse_digits 0 s
  end.

(** [nacosconst.ServerConfig], the fields the source sets. *)
Record ServerConfig : Type := {
  IpAddr : string;
  Port : Z;
}.

(** The call the address loop makes. *)
Inductive initE : Type -> Type :=
| logger_Errorf (port : string) : initE unit.

(** The panic of [split[1]] on a slice of length one. *)
Definition index_out_of_range : any :=
  AError "runtime error: index out of range [1] with length 1".

(** The loop of [initNacosConfigClient] over the addresses:
    [svrConfList] grows by one entry per address whose port parses; an
    address whose port does not parse is logged and passed over. *)
Fixpoint server_configs (nacosAddrs : list string) (svrConfList : list ServerConfig)
  : M initE (list ServerConfig) :=
  match nacosAddrs with
  | [] => mret svrConfList
  | nacosAddr :: rest =>
      let split := Split nacosAddr ":" in
      match split !! 1 with
      | None => panic index_out_of_range
      | Some p =>
          match ParseUint p with
          | None => call (logger_Errorf p);; server_configs rest svrConfList
          | Some port =>
              let svrconf := {| IpAddr := default EmptyString (split !! 0);
                                Port := port |} in
              server_configs rest (svrConfList ++ [svrconf])
          end
      end
  end.

(** Whether an address contains a colon. *)
Definition has_colon (s : string) : bool :=
  existsb (Ascii.eqb ":") (list_ascii_of_string s).

(** What the loop keeps of every entry it makes. *)
Definition well_formed (c : ServerConfig) : Prop :=
  has_colon (IpAddr c) = false /\ (0 <= Port c < 2 ^ 64)%Z.

End nacos.

(** ** util/pool/options.go *)

Module pool.

(** [pool.Options]. *)
Record Options : Type := {
  Transport : option server.Transport_;
  TTL : Z;
  Size : Z;
}.

Definition Option : Type := Options -> Options.

Definition Size_ (i : Z) : Option :=
  fun o => {| Transport := Transport o; TTL := TTL o; Size := i |}.

Definition Transport_ (t : option server.Transport_) : Option :=
  fun o => {| Transport := t; TTL := TTL o; Size := Size o |}.

Definition TTL_ (t : Z) : Option :=
  fun o => {| Transport := Transport o; TTL := t; Size := Size o |}.

(** An option, by the function that made it. *)
Inductive Made : Type :=
| MadeSize (i : Z)
| MadeTransport (t : option server.Transport_)
| MadeTTL (t : Z).

Definition option_of (m : Made) : Option :=
  match m with
  | MadeSize i => Size_ i
  | MadeTransport t => Transport_ t
  | MadeTTL t => TTL_ t
  end.

(** The value an option gives a field, if it sets that field. *)
Definition size_of (m : Made) : option Z :=
  match m with MadeSize i => Some i | _ => None end.
Definition transport_of (m : Made) : option (option server.Transport_) :=
  match m with MadeTransport t => Some t | _ => None end.
Definition ttl_of (m : Made) : option Z :=
  match m with MadeTTL t => Some t | _ => None end.

(** Whether two options set the same field. *)
Definition same_field (m1 m2 : Made) : bool :=
  match m1, m2 with
  | MadeSize _, MadeSize _ => true
  | MadeTransport _, MadeTransport _ => true
  | MadeTTL _, MadeTTL _ => true
  | _, _ => false
  end.

End pool.

(** ** Concrete instances, for running the embedding *)

Module sample.
Import Go errors opentracing.

(** A context: the values the embedded code stores in one. *)
Record Ctx : Type := {
  ctx_md : option metadata.Metadata;
  ctx_span : option Span;
  ctx_wait : option WaitGroup;
}.

(** [strings.Title] on ASCII text: the first letter of every word goes to
    upper case; letters, digits and the underscore make up words. *)
Definition in_range (lo hi : nat) (c : ascii) : bool :=
  (lo <=? nat_of_ascii c)%nat && (nat_of_ascii c <=? hi)%nat.
Definition isSeparator (c : ascii) : bool :=
  negb (in_range 48 57 c || in_range 97 122 c || in_range 65 90 c
        || (nat_of_ascii c =? 95)%nat || (128 <=? nat_of_ascii c)%nat).
Definition ToTitle (c : ascii) : ascii :=
  if in_range 97 122 c then ascii_of_nat (nat_of_ascii c - 32) else c.
Fixpoint title_from (prev : ascii) (s : string) : string :=
  match s with
  | EmptyString => EmptyString
  | String c rest =>
      String (if isSeparator prev then ToTitle c else c) (title_from c rest)
  end.
Definition ascii_Title (s : string) : string := title_from " "%char s.

Fixpoint error_text (e : error) : string :=
  match e with
  | InternalServerError _ detail => detail
  | New msg => msg
  | WithStack e => error_text e
  end.

Definition external : External :=
  {| GoContext := Ctx;
     Background := {| ctx_md := None; ctx_span := None; ctx_wait := None |};
     WithWait := fun ctx wg =>
       {| ctx_md := ctx_md ctx; ctx_span := ctx_span ctx; ctx_wait := Some wg |};
     FromContext := ctx_md;
     NewContext := fun ctx md =>
       {| ctx_md := Some md; ctx_span := ctx_span ctx; ctx_wait := ctx_wait ctx |};
     SpanFromContext := ctx_span;
     ContextWithSpan := fun ctx sp =>
       {| ctx_md := ctx_md ctx; ctx_span := Some sp; ctx_wait := ctx_wait ctx |};
     Title := ascii_Title;
     range_order := map_to_list;
     Error := error_text |}.

Definition external_laws : @ExternalLaws external :=
  {| range_order_perm := fun md => reflexivity (map_to_list md) |}.

(** Values for the constants of package server. *)
Definition defaults : server.Defaults :=
  {| server.DefaultAddress := ":0";
     server.DefaultName := "go.micro.server";
     server.DefaultId := "instance-1";
     server.DefaultVersion := "latest";
     server.DefaultRegisterInterval := 30000000000;
     server.DefaultRegisterTTL := 60000000000 |}.

(** A tracer that numbers its spans, writes one propagation key, and whose
    [Inject] and [Extract] fail or not as told; the wrapped function answers
    [next]. *)
Definition tracing (inject_err : option error) (extract_ok : bool)
    (next : Outcome (option error)) : Env (@jaeger.traceE external) :=
  {| World := nat;
     answer := fun X (e : @jaeger.traceE external X) (n : nat) =>
       match e in jaeger.traceE X return X * nat with
       | jaeger.GlobalTracer => (TracerRef 0, n)
       | jaeger.Extract _ _ =>
           (if extract_ok then inl (SpanContextRef 100)
            else inr (New "opentracing: SpanContext not found in Extract carrier"), n)
       | jaeger.StartSpan t _ _ =>
           ({| span_ref := n; span_Context := SpanContextRef n; span_Tracer := t |}, S n)
       | jaeger.Inject _ _ carrier =>
           ((<["uber-trace-id" := "1"]> carrier, inject_err), n)
       | jaeger.LogFields _ _ _ => (tt, n)
       | jaeger.SetTag _ _ _ => (tt, n)
       | jaeger.Finish _ => (tt, n)
       | jaeger.Next _ _ => (next, n)
       | jaeger.NextStream _ _ =>
           (match next with
            | Returned err => Returned (None, err)
            | Panicked v => Panicked v
            end, n)
       end |}.

(** A context with metadata and no span, a request, a message. *)
Definition ctx0 : @GoContext external :=
  {| ctx_md := Some {[ "Authorization" := "token" ]};
     ctx_span := None;
     ctx_wait := None |}.
Definition req0 : server.Request :=
  {| server.Service := "greeter"; server.Endpoint := "Say.Hello" |}.
Definition span0 (t : Tracer) : Span :=
  {| span_ref := 0; span_Context := SpanContextRef 0; span_Tracer := t |}.

(** [ctx0] after a span was made and its propagation key injected. *)
Definition ctx0_traced (t : Tracer) : @GoContext external :=
  {| ctx_md := Some {[ "Authorization" := "token"; "Uber-Trace-Id" := "1" ]};
     ctx_span := Some (span0 t);
     ctx_wait := None |}.

(** A socket environment: user code panics with [v] when told to, every
    other call returns. *)
Definition serving (user : Outcome unit) : Env grpc.grpcE :=
  {| World := unit;
     answer := fun X (e : grpc.grpcE X) (w : unit) =>
       match e in grpc.grpcE X return X * unit with
       | grpc.debug_Stack => ("goroutine 1 [running]", w)
       | grpc.logger_Error _ _ => (tt, w)
       | grpc.sock_Close _ => (None, w)
       | grpc.sock_Recv _ => (("ping", None), w)
       | grpc.sock_Send _ _ => (None, w)
       | grpc.user_code _ => (user, w)
       end |}.

(** A handler environment for wrapper chains. *)
Definition handling (t : Outcome (option error)) : Env chain.chainE :=
  {| World := unit;
     answer := fun X (e : chain.chainE X) (w : unit) =>
       match e in chain.chainE X return X * unit with
       | chain.Pre _ => (tt, w)
       | chain.Post _ => (tt, w)
       | chain.Terminal => (t, w)
       end |}.

(** A logger. *)
Definition logging : Env nacos.initE :=
  {| World := unit;
     answer := fun X (e : nacos.initE X) (w : unit) =>
       match e in nacos.initE X return X * unit with
       | nacos.logger_Errorf _ => (tt, w)
       end |}.

(** A nacos SDK that accepts every call. *)
Definition sdk : Env nacos.nacosE :=
  {| World := unit;
     answer := fun X (e : nacos.nacosE X) (w : unit) =>
       match e in nacos.nacosE X return X * unit with
       | nacos.sdk_PublishConfig _ _ => ((true, None), w)
       | nacos.sdk_GetConfig _ p => ((nacos.Group p, None), w)
       | nacos.logger_Infof _ => (tt, w)
       end |}.

End sample.

(* ===================================================================== *)
(** * Part II: properties                                                  *)
(* ===================================================================== *)

(** ** Equations of [run] *)

Module GoFacts.
Import Go.

Lemma run_pbind {E A B} (env : Env E) (m : Prog E A) (f : A -> Prog E B) w :
  run env (pbind m f) w =
    let '(a, tr1, w1) := run env m w in
    let '(b, tr2, w2) := run env (f a) w1 in
    (b, tr1 ++ tr2, w2).
Proof.
  revert w. induction m as [a | X e k IH]; intros w; simpl.
  - destruct (run env (f a) w) as [[b tr2] w2]. reflexivity.
  - destruct (answer env e w) as [x w1]. rewrite IH.
    destruct (run env (k x) w1) as [[a tr1] w2].
    destruct (run env (f a) w2) as [[b tr2] w3]. reflexivity.
Qed.

Lemma run_bind {E A B} (env : Env E) (m : M E A) (f : A -> M E B) w :
  run env (m ≫= f) w =
    let '(o, tr1, w1) := run env m w in
    match o with
    | Returned a =>
        let '(b, tr2, w2) := run env (f a) w1 in (b, tr1 ++ tr2, w2)
    | Panicked v => (Panicked v, tr1, w1)
    end.
Proof.
  unfold mbind, M_bind, bind. rewrite run_pbind.
  destruct (run env m w) as [[[a | v] tr1] w1]; simpl.
  - reflexivity.
  - rewrite app_nil_r. reflexivity.
Qed.

Lemma run_call {E X} (env : Env E) (e : E X) w :
  run env (call e) w = (Returned (answer env e w).1, [Evt e (answer env e w).1],
                        (answer env e w).2).
Proof. simpl. destruct (answer env e w). reflexivity. Qed.

Lemma run_invoke {E X} (env : Env E) (e : E (Outcome X)) w :
  run env (invoke e) w = ((answer env e w).1, [Evt e (answer env e w).1],
                          (answer env e w).2).
Proof. simpl. destruct (answer env e w). reflexivity. Qed.

Lemma run_mret {E A} (env : Env E) (a : A) w :
  run env (mret a : M E A) w = (Returned a, [], w).
Proof. reflexivity. Qed.

(** A deferred call runs after the body, whatever its outcome. *)
Lemma run_defer {E A} (env : Env E) (d : M E unit) (body : M E A) w :
  run env (defer d body) w =
    let '(o, tr1, w1) := run env body w in
    let '(od, tr2, w2) := run env d w1 in
    (match od with Returned _ => o | Panicked v => Panicked v end, tr1 ++ tr2, w2).
Proof.
  unfold defer. rewrite run_pbind.
  destruct (run env body w) as [[o tr1] w1]. rewrite run_pbind.
  destruct (run env d w1) as [[[u | v] tr2] w2]; simpl;
    rewrite app_nil_r; reflexivity.
Qed.

Lemma run_defer_recover {E A} (env : Env E) (h : any -> M E A) (body : M E A) w :
  run env (defer_recover h body) w =
    let '(o, tr1, w1) := run env body w in
    match o with
    | Returned a => (Returned a, tr1, w1)
    | Panicked r => let '(o', tr2, w2) := run env (h r) w1 in (o', tr1 ++ tr2, w2)
    end.
Proof.
  unfold defer_recover. rewrite run_pbind.
  destruct (run env body w) as [[[a | r] tr1] w1]; simpl.
  - rewrite app_nil_r. reflexivity.
  - reflexivity.
Qed.

End GoFacts.

(** ** transport/grpc: panics of the socket function *)

Module grpcFacts.
Import Go errors grpc GoFacts.

(** C1.  Whatever the socket function does, [Stream] returns: it never
    panics.  When the socket function returns, [Stream] returns nil after
    the same calls.  When the socket function panics with [r], [Stream]
    logs, closes the socket it built and returns
    [InternalServerError("go.micro.transport", "panic recovered: r")]. *)
Theorem Stream_contains_panic (env : Env grpcE) (m : microTransport)
    (ts : Transport_StreamServer) (w : World env) :
  let sock := new_socket m ts in
  (exists err tr w', run env (Stream m ts) w = (Returned err, tr, w')) /\
  match run env (fn m sock) w with
  | (Returned _, tr, w1) =>
      run env (Stream m ts) w = (Returned None, tr, w1)
  | (Panicked r, tr, w1) =>
      exists stack cerr w2,
        run env (Stream m ts) w =
          (Returned (Some (InternalServerError "go.micro.transport"
                             ("panic recovered: " +:+ Sprint r))),
           tr ++ recovery_trace sock r stack cerr, w2)
  end.
Proof.
  intros sock. unfold Stream. fold sock.
  rewrite run_defer_recover, run_bind.
  destruct (run env (fn m sock) w) as [[[[] | r] tr] w1]; simpl.
  - rewrite app_nil_r. split; [eauto | reflexivity].
  - destruct (answer env debug_Stack w1) as [stack w2].
    destruct (answer env (logger_Error r stack) w2) as [[] w3].
    destruct (answer env (sock_Close sock) w3) as [cerr w4].
    split; [eauto | ]. exists stack, cerr, w4. reflexivity.
Qed.

(** A socket function that reads and then panics; one that returns. *)
Example Stream_of_a_panicking_socket_function :
  run (sample.serving (Panicked (AString "boom")))
    (Stream {| addr := "127.0.0.1:8080";
               fn := fun sock => call (sock_Recv sock);; invoke (user_code 0) |}
       {| stream_ref := 1; stream_peer := Some "10.0.0.1:99" |}) tt
  = (Returned (Some (InternalServerError "go.micro.transport"
                       "panic recovered: boom")),
     let sock := {| stream := {| stream_ref := 1; stream_peer := Some "10.0.0.1:99" |};
                    local := "127.0.0.1:8080"; remote := "10.0.0.1:99" |} in
     [Evt (sock_Recv sock) ("ping", None);
      Evt (user_code 0) (Panicked (AString "boom"));
      Evt debug_Stack "goroutine 1 [running]";
      Evt (logger_Error (AString "boom") "goroutine 1 [running]") tt;
      Evt (sock_Close sock) None],
     tt).
Proof. reflexivity. Qed.

Example Stream_of_a_returning_socket_function :
  (run (sample.serving (Returned tt))
     (Stream {| addr := "127.0.0.1:8080";
                fn := fun sock => call (sock_Recv sock);; invoke (user_code 0) |}
        {| stream_ref := 1; stream_peer := None |}) tt).1.1
  = Returned None.
Proof. reflexivity. Qed.

End grpcFacts.

(** ** package server: options and the wrapper chain *)

Module serverFacts.
Import Go errors server GoFacts.

Section Options.
Context `{External} `{Defaults} {E : Type -> Type}.

Lemma apply_options_app (o : Options E) (l1 l2 : list (Option E)) :
  apply_options o (l1 ++ l2) = (o' ← apply_options o l1; apply_options o' l2).
Proof.
  revert o. induction l1 as [| f l1 IH]; intros o; simpl; [reflexivity |].
  destruct (f o) as [o1 | v]; simpl; [apply IH | reflexivity].
Qed.

(** [WrapHandler] options append to [HdlrWrappers], in the order given, and
    touch nothing else. *)
Lemma apply_WrapHandlers (o : Options E) (ws : list (HandlerWrapper E)) :
  apply_options o (map WrapHandler ws)
  = Returned (set_HdlrWrappers (opts_HdlrWrappers o ++ ws) o).
Proof.
  revert o. induction ws as [| w ws IH]; intros o; simpl.
  - rewrite app_nil_r. destruct o; reflexivity.
  - rewrite IH. destruct o; simpl. rewrite <- app_assoc. reflexivity.
Qed.

Lemma apply_WrapSubscribers (o : Options E) (ws : list (SubscriberWrapper E)) :
  apply_options o (map WrapSubscriber ws)
  = Returned (set_SubWrappers (opts_SubWrappers o ++ ws) o).
Proof.
  revert o. induction ws as [| w ws IH]; intros o; simpl.
  - rewrite app_nil_r. destruct o; reflexivity.
  - rewrite IH. destruct o; simpl. rewrite <- app_assoc. reflexivity.
Qed.

(** The two [newOptions] are the same function. *)
Lemma rpc_newOptions_eq (opt : list (Option E)) :
  rpc.newOptions opt = server.newOptions opt.
Proof. reflexivity. Qed.

(** Each [if] of [newOptions] as an assignment. *)
Lemma fill_Broker (o : Options E) :
  (if opts_Broker o is None then set_Broker (Some MemoryBroker) o else o)
  = set_Broker (Some (default MemoryBroker (opts_Broker o))) o.
Proof. destruct o as [? [] ? ? ? ? ? ? ? ? ? ? ? ? ? ? ? ? ? ? ?]; reflexivity. Qed.

Lemma fill_Registry (o : Options E) :
  (if opts_Registry o is None then set_Registry (Some MemoryRegistry) o else o)
  = set_Registry (Some (default MemoryRegistry (opts_Registry o))) o.
Proof. destruct o as [? ? [] ? ? ? ? ? ? ? ? ? ? ? ? ? ? ? ? ? ?]; reflexivity. Qed.

Lemma fill_Transport (o : Options E) :
  (if opts_Transport o is None then set_Transport (Some MemoryTransport) o else o)
  = set_Transport (Some (default MemoryTransport (opts_Transport o))) o.
Proof. destruct o as [? ? ? ? ? [] ? ? ? ? ? ? ? ? ? ? ? ? ? ? ?]; reflexivity. Qed.

Lemma fill_RegisterCheck (o : Options E) :
  (if opts_RegisterCheck o is None
   then set_RegisterCheck (Some DefaultRegisterCheck) o else o)
  = set_RegisterCheck
      (Some (default DefaultRegisterCheck (opts_RegisterCheck o))) o.
Proof. destruct o as [? ? ? ? ? ? ? ? ? ? ? ? ? ? ? [] ? ? ? ? ?]; reflexivity. Qed.

Lemma fill_Address (o : Options E) :
  (if (String.length (opts_Address o) =? 0)%nat
   then set_Address DefaultAddress o else o)
  = set_Address (or_default (opts_Address o) DefaultAddress) o.
Proof. destruct o as [? ? ? ? ? ? ? ? [] ? ? ? ? ? ? ? ? ? ? ? ?]; reflexivity. Qed.

Lemma fill_Name (o : Options E) :
  (if (String.length (opts_Name o) =? 0)%nat then set_Name DefaultName o else o)
  = set_Name (or_default (opts_Name o) DefaultName) o.
Proof. destruct o as [? ? ? ? ? ? ? [] ? ? ? ? ? ? ? ? ? ? ? ? ?]; reflexivity. Qed.

Lemma fill_Id (o : Options E) :
  (if (String.length (opts_Id o) =? 0)%nat then set_Id DefaultId o else o)
  = set_Id (or_default (opts_Id o) DefaultId) o.
Proof. destruct o as [? ? ? ? ? ? ? ? ? ? [] ? ? ? ? ? ? ? ? ? ?]; reflexivity. Qed.

Lemma fill_Version (o : Options E) :
  (if (String.length (opts_Version o) =? 0)%nat
   then set_Version DefaultVersion o else o)
  = set_Version (or_default (opts_Version o) DefaultVersion) o.
Proof. destruct o as [? ? ? ? ? ? ? ? ? ? ? ? [] ? ? ? ? ? ? ? ?]; reflexivity. Qed.

(** [newOptions], its [if]s read as assignments. *)
Lemma newOptions_unfold (opt : list (Option E)) :
  newOptions opt =
  match apply_options initial_options opt with
  | Returned set =>
      Returned
        (set_Version (or_default (opts_Version set) DefaultVersion)
        (set_Id (or_default (opts_Id set) DefaultId)
        (set_Name (or_default (opts_Name set) DefaultName)
        (set_Address (or_default (opts_Address set) DefaultAddress)
        (set_RegisterCheck
           (Some (default DefaultRegisterCheck (opts_RegisterCheck set)))
        (set_Transport (Some (default MemoryTransport (opts_Transport set)))
        (set_Registry (Some (default MemoryRegistry (opts_Registry set)))
        (set_Broker (Some (default MemoryBroker (opts_Broker set))) set))))))))
  | Panicked v => Panicked v
  end.
Proof.
  unfold newOptions.
  destruct (apply_options initial_options opt) as [set | v]; [| reflexivity].
  cbv [mbind Outcome_bind]. cbv zeta.
  rewrite fill_Broker, fill_Registry, fill_Transport, fill_RegisterCheck,
    fill_Address, fill_Name, fill_Id, fill_Version.
  destruct set; reflexivity.
Qed.

(** What [newOptions] does after the options ran: a nil collaborator gets
    the in-memory one, an empty text its default, every other field stays. *)
Lemma newOptions_after_options (opt : list (Option E)) (set : Options E) :
  apply_options initial_options opt = Returned set ->
  exists o, newOptions opt = Returned o /\
    opts_Broker o = Some (default MemoryBroker (opts_Broker set)) /\
    opts_Registry o = Some (default MemoryRegistry (opts_Registry set)) /\
    opts_Transport o = Some (default MemoryTransport (opts_Transport set)) /\
    opts_RegisterCheck o = Some (default DefaultRegisterCheck (opts_RegisterCheck set)) /\
    opts_Address o = or_default (opts_Address set) DefaultAddress /\
    opts_Name o = or_default (opts_Name set) DefaultName /\
    opts_Id o = or_default (opts_Id set) DefaultId /\
    opts_Version o = or_default (opts_Version set) DefaultVersion /\
    opts_Codecs o = opts_Codecs set /\
    opts_Trace o = opts_Trace set /\
    opts_Auth o = opts_Auth set /\
    opts_Metadata o = opts_Metadata set /\
    opts_Advertise o = opts_Advertise set /\
    opts_Namespace o = opts_Namespace set /\
    opts_HdlrWrappers o = opts_HdlrWrappers set /\
    opts_SubWrappers o = opts_SubWrappers set /\
    opts_RegisterTTL o = opts_RegisterTTL set /\
    opts_RegisterInterval o = opts_RegisterInterval set /\
    opts_Router o = opts_Router set /\
    opts_TLSConfig o = opts_TLSConfig set /\
    opts_Context o = opts_Context set.
Proof.
  intros Hset. rewrite newOptions_unfold, Hset.
  eexists. split; [reflexivity |].
  destruct set; cbn. repeat split; reflexivity.
Qed.

(** [newOptions] leaves the wrapper lists as the options made them. *)
Lemma newOptions_wrappers (opt : list (Option E)) (set o : Options E) :
  apply_options initial_options opt = Returned set ->
  newOptions opt = Returned o ->
  opts_HdlrWrappers o = opts_HdlrWrappers set /\
  opts_SubWrappers o = opts_SubWrappers set.
Proof.
  intros Hset Ho.
  destruct (newOptions_after_options opt set Hset) as (o' & Ho' & Hf).
  rewrite Ho in Ho'. injection Ho' as <-.
  split; apply Hf.
Qed.

Lemma or_default_nonempty (s d : string) :
  d <> "" -> or_default s d <> "".
Proof. destruct s; [trivial | discriminate]. Qed.

(** C8, as amended.  Both [newOptions] agree.  The struct the options work
    on starts with [RegisterInterval] and [RegisterTTL] at their defaults.
    When an option panics, so does [newOptions].  Otherwise it returns a
    struct in which [Broker], [Registry], [Transport] and [RegisterCheck]
    are non-nil: the value the options left if that was non-nil, else the
    in-memory implementation or [DefaultRegisterCheck]; [Address], [Name],
    [Id] and [Version] are the text the options left if that was non-empty,
    else the default, hence non-empty when the defaults are; and every other
    field is as the options left it. *)
Theorem newOptions_fills_defaults (opt : list (Option E)) :
  rpc.newOptions opt = server.newOptions opt /\
  opts_RegisterInterval (initial_options (E:=E)) = DefaultRegisterInterval /\
  opts_RegisterTTL (initial_options (E:=E)) = DefaultRegisterTTL /\
  match apply_options initial_options opt with
  | Panicked v => newOptions opt = Panicked v
  | Returned set =>
      exists o, newOptions opt = Returned o /\
        (opts_Broker o = Some (default MemoryBroker (opts_Broker set)) /\
         opts_Registry o = Some (default MemoryRegistry (opts_Registry set)) /\
         opts_Transport o = Some (default MemoryTransport (opts_Transport set)) /\
         opts_RegisterCheck o
           = Some (default DefaultRegisterCheck (opts_RegisterCheck set))) /\
        (opts_Address o = or_default (opts_Address set) DefaultAddress /\
         opts_Name o = or_default (opts_Name set) DefaultName /\
         opts_Id o = or_default (opts_Id set) DefaultId /\
         opts_Version o = or_default (opts_Version set) DefaultVersion) /\
        ((DefaultAddress <> "" -> opts_Address o <> "") /\
         (DefaultName <> "" -> opts_Name o <> "") /\
         (DefaultId <> "" -> opts_Id o <> "") /\
         (DefaultVersion <> "" -> opts_Version o <> "")) /\
        (opts_Codecs o = opts_Codecs set /\
         opts_Trace o = opts_Trace set /\
         opts_Auth o = opts_Auth set /\
         opts_Metadata o = opts_Metadata set /\
         opts_Advertise o = opts_Advertise set /\
         opts_Namespace o = opts_Namespace set /\
         opts_HdlrWrappers o = opts_HdlrWrappers set /\
         opts_SubWrappers o = opts_SubWrappers set /\
         opts_RegisterTTL o = opts_RegisterTTL set /\
         opts_RegisterInterval o = opts_RegisterInterval set /\
         opts_Router o = opts_Router set /\
         opts_TLSConfig o = opts_TLSConfig set /\
         opts_Context o = opts_Context set)
  end.
Proof.
  split; [apply rpc_newOptions_eq |]. do 2 (split; [reflexivity |]).
  destruct (apply_options initial_options opt) as [set | v] eqn:Hset.
  - destruct (newOptions_after_options opt set Hset)
      as (o & Ho & Hb & Hr & Ht & Hc & Ha & Hn & Hi & Hv & Hrest).
    exists o. split; [exact Ho |]. split; [auto |]. split; [auto |].
    split; [| exact Hrest].
    rewrite Ha, Hn, Hi, Hv. repeat split; apply or_default_nonempty.
  - rewrite newOptions_unfold, Hset. reflexivity.
Qed.

End Options.

(** A text that an option sets to empty is not kept: [newOptions] takes it
    for unset.  With the sample defaults, [Name("")] yields the default
    name. *)
Lemma newOptions_overwrites_empty_name :
  exists o : Options chain.chainE,
    newOptions (H:=sample.external) (H0:=sample.defaults) [Name ""] = Returned o /\
    opts_Name o = "go.micro.server" /\
    opts_Name o <> "".
Proof.
  eexists. split; [rewrite newOptions_unfold; cbn; reflexivity |].
  split; [reflexivity | discriminate].
Qed.

(** An option may panic: [TLSConfig] before any [Transport] calls a method
    on a nil interface. *)
Example newOptions_TLSConfig_without_transport :
  newOptions (H:=sample.external) (H0:=sample.defaults) (E:=chain.chainE)
    [TLSConfig (Some (TLSConfigRef 1))] = Panicked nil_dereference.
Proof. rewrite newOptions_unfold. reflexivity. Qed.

Example newOptions_keeps_what_is_set :
  exists o : Options chain.chainE,
    newOptions (H:=sample.external) (H0:=sample.defaults)
      [Name "greeter"; Broker (Some (BrokerRef 7)); RegisterTTL 5] = Returned o /\
    opts_Name o = "greeter" /\ opts_Broker o = Some (BrokerRef 7) /\
    opts_RegisterTTL o = 5%Z /\ opts_Registry o = Some MemoryRegistry /\
    opts_Address o = ":0".
Proof.
  eexists. split; [rewrite newOptions_unfold; cbn; reflexivity |].
  repeat split.
Qed.

End serverFacts.

(** ** The wrapper chain: order of invocation *)

Module chainFacts.
Import Go errors server chain GoFacts serverFacts.

Section Order.
Context `{External} `{Defaults}.

(** One reporting wrapper around [next]. *)
Lemma run_observing (env : Env chainE) n (next : HandlerFunc chainE) ctx req rsp w :
  run env (observing n next ctx req rsp) w
  = let '(o, tr, w2) := run env (next ctx req rsp) (answer env (Pre n) w).2 in
    match o with
    | Returned err =>
        (Returned err, Evt (Pre n) tt :: tr ++ [Evt (Post n) tt],
         (answer env (Post n) w2).2)
    | Panicked v => (Panicked v, Evt (Pre n) tt :: tr, w2)
    end.
Proof.
  unfold observing. rewrite run_bind, run_call.
  destruct (answer env (Pre n) w) as [[] w1]. cbn [fst snd].
  rewrite run_bind.
  destruct (run env (next ctx req rsp) w1) as [[[err | v] tr] w2]; [| reflexivity].
  rewrite run_bind, run_call.
  destruct (answer env (Post n) w2) as [[] w3]. cbn [fst snd].
  rewrite run_mret, app_nil_r. reflexivity.
Qed.

(** The calls a chain of reporting wrappers makes: every wrapper is entered
    in list order, the terminal function runs, and, when it returns, the
    wrappers are left in reverse order. *)
Lemma chain_trace (names : list string) (env : Env chainE) ctx req rsp w :
  let '(r, tr, _) :=
    run env (wrap_handler (map observing names) terminal ctx req rsp) w in
  map label tr
  = map pre names ++ ["T"] ++ (if r is Returned _ then map post (rev names) else []).
Proof.
  revert w. induction names as [| n names IH]; intros w.
  - simpl. destruct (answer env Terminal w) as [[err | v] w1]; reflexivity.
  - change (wrap_handler (map observing (n :: names)) terminal)
      with (observing n (wrap_handler (map observing names) terminal)).
    rewrite run_observing.
    specialize (IH (answer env (Pre n) w).2).
    destruct (run env (wrap_handler (map observing names) terminal ctx req rsp)
                (answer env (Pre n) w).2) as [[[err | v] tr] w1].
    + cbn [map label]. rewrite map_app, IH. cbn [map label rev].
      rewrite map_app. cbn [map]. rewrite <- !app_assoc. reflexivity.
    + cbn [map label]. rewrite IH. reflexivity.
Qed.

(** C2.  Wrappers registered with [WrapHandler], in the order of [names],
    end up in [HdlrWrappers] in that order; around a terminal function they
    are entered first to last and left last to first.  For [W1], [W2]:
    [W1-pre], [W2-pre], [T], [W2-post], [W1-post]. *)
Theorem first_registered_wrapper_is_outermost (names : list string)
    (env : Env chainE) ctx req rsp (w : World env) :
  exists o : Options chainE,
    newOptions (map (fun n => WrapHandler (observing n)) names) = Returned o /\
    opts_HdlrWrappers o = map observing names /\
    let '(r, tr, _) :=
      run env (wrap_handler (opts_HdlrWrappers o) terminal ctx req rsp) w in
    map label tr
    = map pre names ++ ["T"]
      ++ (if r is Returned _ then map post (rev names) else []).
Proof.
  assert (Hset : apply_options (E:=chainE) initial_options
                   (map (fun n => WrapHandler (observing n)) names)
                 = Returned (set_HdlrWrappers (map observing names) initial_options)).
  { rewrite <- (map_map observing WrapHandler). apply apply_WrapHandlers. }
  destruct (newOptions_after_options _ _ Hset) as (o & Ho & Hrest).
  exists o. split; [exact Ho |].
  assert (Hw : opts_HdlrWrappers o = map observing names).
  { destruct (newOptions_wrappers _ _ _ Hset Ho) as [-> _]. reflexivity. }
  split; [exact Hw |]. rewrite Hw. apply chain_trace.
Qed.

End Order.

Example chain_of_two (t : option error) ctx req rsp :
  map label (run (sample.handling (Returned t))
               (wrap_handler (H:=sample.external)
                  [observing "W1"; observing "W2"] terminal ctx req rsp) tt).1.2
  = ["W1-pre"; "W2-pre"; "T"; "W2-post"; "W1-post"].
Proof. reflexivity. Qed.

Example chain_of_two_panicking ctx req rsp :
  map label (run (sample.handling (Panicked (AString "boom")))
               (wrap_handler (H:=sample.external)
                  [observing "W1"; observing "W2"] terminal ctx req rsp) tt).1.2
  = ["W1-pre"; "W2-pre"; "T"].
Proof. reflexivity. Qed.

End chainFacts.

(** ** package jaeger: the tracing wrappers *)

Module jaegerFacts.
Import Go errors opentracing jaeger GoFacts.

Section Tracing.
Context `{External}.

Ltac run_step :=
  first [ rewrite run_bind | rewrite run_defer | rewrite run_call
        | rewrite run_invoke | rewrite run_mret ].

(** *** StartSpanFromContext *)

(** The calls of [StartSpanFromContext] and its result, in full. *)
Lemma run_StartSpanFromContext (env : Env traceE) ctx tracer name opts
    (w : World env) :
  let md := default ∅ (FromContext ctx) in
  exists popts tr_parent sp nmd err w',
    run env (StartSpanFromContext ctx tracer name opts) w
    = (Returned (match err with
                 | Some e => inr e
                 | None => inl (NewContext (ContextWithSpan ctx sp)
                                  (set_titled md nmd), sp)
                 end),
       tr_parent ++ [Evt (StartSpan tracer name popts) sp;
                     Evt (Inject (span_Tracer sp) (span_Context sp) ∅) (nmd, err)],
       w') /\
    match SpanFromContext ctx with
    | Some parent =>
        tr_parent = [] /\ popts = opts ++ [ChildOf (span_Context parent)]
    | None =>
        exists x, tr_parent = [Evt (Extract tracer md) x] /\
          popts = opts ++ match x with
                          | inl spanCtx => [ChildOf spanCtx]
                          | inr _ => []
                          end
    end.
Proof.
  intros md. unfold StartSpanFromContext.
  replace (match FromContext ctx with Some md0 => md0 | None => ∅ end) with md
    by (unfold md; destruct (FromContext ctx); reflexivity).
  rewrite run_bind.
  destruct (SpanFromContext ctx) as [parent |].
  - rewrite run_mret. rewrite run_bind, run_call. rewrite run_bind, run_call.
    destruct (answer env (StartSpan tracer name (opts ++ [ChildOf (span_Context parent)])) w)
      as [sp w1]; simpl.
    destruct (answer env (Inject (span_Tracer sp) (span_Context sp) ∅) w1)
      as [[nmd err] w2]; simpl.
    exists (opts ++ [ChildOf (span_Context parent)]), [], sp, nmd, err, w2.
    split; [destruct err; reflexivity | split; reflexivity].
  - rewrite run_bind, run_call.
    destruct (answer env (Extract tracer md) w) as [x w0]; cbn [fst snd].
    set (popts := opts ++ match x with
                          | inl spanCtx => [ChildOf spanCtx]
                          | inr _ => []
                          end).
    assert (Hp : run env (match x with
                          | inl spanCtx => mret (opts ++ [ChildOf spanCtx])
                          | inr _ => mret opts
                          end : M traceE _) w0 = (Returned popts, [], w0)).
    { unfold popts. destruct x; [reflexivity | rewrite app_nil_r; reflexivity]. }
    rewrite Hp. rewrite run_bind, run_call. rewrite run_bind, run_call.
    destruct (answer env (StartSpan tracer name popts) w0) as [sp w1]; cbn [fst snd].
    destruct (answer env (Inject (span_Tracer sp) (span_Context sp) ∅) w1)
      as [[nmd err] w2]; simpl.
    exists popts, [Evt (Extract tracer md) x], sp, nmd, err, w2.
    split; [destruct err; reflexivity | exists x; split; reflexivity].
Qed.

(** [StartSpanFromContext] never calls the wrapped function, never panics,
    and calls [Inject] once; it fails exactly when [Inject] does. *)
Lemma StartSpanFromContext_no_next (env : Env traceE) ctx tracer name opts
    (w : World env) :
  exists r, (run env (StartSpanFromContext ctx tracer name opts) w).1.1 = Returned r /\
  next_calls (run env (StartSpanFromContext ctx tracer name opts) w).1.2 = [] /\
  omap inject_error (run env (StartSpanFromContext ctx tracer name opts) w).1.2
  = [match r with inr e => Some e | inl _ => None end].
Proof.
  destruct (run_StartSpanFromContext env ctx tracer name opts w)
    as (popts & trp & sp & nmd & err & w' & -> & Hp).
  eexists. split; [reflexivity |]. cbn [fst snd].
  destruct (SpanFromContext ctx) as [parent |].
  - destruct Hp as [-> _]. destruct err; split; reflexivity.
  - destruct Hp as (x & -> & _). destruct err; split; reflexivity.
Qed.

(** *** Title-cased injection *)

(** A key that no visited entry maps to keeps its value. *)
Lemma foldl_set_other (l : list (string * string)) (md : metadata.Metadata) key :
  (forall kv, kv ∈ l -> Title kv.1 <> key) ->
  foldl set_one md l !! key = md !! key.
Proof.
  revert md. induction l as [| a l IH]; intros md Hl; simpl; [reflexivity |].
  rewrite IH.
  - unfold set_one, metadata.Set_. apply lookup_insert_ne.
    apply Hl. left.
  - intros kv Hkv. apply Hl. right. exact Hkv.
Qed.

(** A visited entry's title-cased key ends up holding the value of a
    visited entry with that title-cased key (the last one visited). *)
Lemma foldl_set_visited (l : list (string * string)) (md : metadata.Metadata) kv :
  kv ∈ l ->
  exists kv', kv' ∈ l /\ Title kv'.1 = Title kv.1 /\
    foldl set_one md l !! Title kv.1 = Some kv'.2.
Proof.
  revert md kv. induction l as [| a l IH]; intros md kv Hin.
  - inversion Hin.
  - simpl.
    destruct (decide (Exists (fun kv' => Title kv'.1 = Title kv.1) l)) as [Hex | Hno].
    + apply Exists_exists in Hex as (kv1 & Hin1 & Heq1).
      destruct (IH (set_one md a) kv1 Hin1) as (kv' & Hin' & Heq' & Hl).
      exists kv'. split; [right; exact Hin' |]. split; [congruence |].
      rewrite <- Heq1. exact Hl.
    + assert (Hother : forall kv', kv' ∈ l -> Title kv'.1 <> Title kv.1).
      { intros kv' Hin' Heq. apply Hno. apply Exists_exists. eauto. }
      apply elem_of_cons in Hin as [-> | Hin]; [| exfalso; eapply Hother; eauto].
      exists a. split; [left |]. split; [reflexivity |].
      rewrite foldl_set_other by exact Hother.
      unfold set_one, metadata.Set_. apply lookup_insert_eq.
Qed.

Section Laws.
Context `{!ExternalLaws}.

Lemma elem_of_range_order (nmd : metadata.Metadata) (kv : string * string) :
  kv ∈ range_order nmd <-> nmd !! kv.1 = Some kv.2.
Proof.
  rewrite (range_order_perm nmd). destruct kv as [k v]. apply elem_of_map_to_list.
Qed.

(** Every entry the tracer wrote is in the metadata under its title-cased
    key, with the value of an entry that has this title-cased key. *)
Lemma set_titled_injected (md nmd : metadata.Metadata) k v :
  nmd !! k = Some v ->
  exists k' v', nmd !! k' = Some v' /\ Title k' = Title k /\
    set_titled md nmd !! Title k = Some v'.
Proof.
  intros Hk. unfold set_titled.
  destruct (foldl_set_visited (range_order nmd) md (k, v))
    as ([k' v'] & Hin & Heq & Hl).
  { apply elem_of_range_order. exact Hk. }
  exists k', v'. split; [| split; assumption].
  apply elem_of_range_order in Hin. exact Hin.
Qed.

(** Every other key is as it was. *)
Lemma set_titled_other (md nmd : metadata.Metadata) key :
  (forall k, is_Some (nmd !! k) -> Title k <> key) ->
  set_titled md nmd !! key = md !! key.
Proof.
  intros Hno. unfold set_titled. apply foldl_set_other.
  intros [k v] Hin. apply Hno. apply elem_of_range_order in Hin. eauto.
Qed.

End Laws.

(** *** The part all wrappers share *)

(** [defer span.Finish()], the call of the wrapped function, the marks on
    failure and [return err]: the wrapped function's error is returned as it
    is, a panic passes through, and the span is finished either way. *)
Lemma run_traced (env : Env traceE) span (next : M traceE (option error))
    (w : World env) :
  exists w',
    run env (defer (call (Finish span))
               (err ← next; mark_failed span err;; mret err)) w
    = match run env next w with
      | (Returned err, tr1, _) =>
          (Returned err,
           tr1 ++ failure_marks span err ++ [Evt (Finish span) tt], w')
      | (Panicked v, tr1, _) =>
          (Panicked v, tr1 ++ [Evt (Finish span) tt], w')
      end.
Proof.
  rewrite run_defer, run_bind.
  destruct (run env next w) as [[[err | v] tr1] w1].
  - rewrite run_bind. destruct err as [e |]; simpl.
    + destruct (answer env (LogFields span "error" (Error e)) w1) as [[] w2].
      destruct (answer env (SetTag span "error" (TagBool true)) w2) as [[] w3].
      destruct (answer env (Finish span) w3) as [[] w4]. simpl.
      eexists. rewrite <- !app_assoc. reflexivity.
    + destruct (answer env (Finish span) w1) as [[] w4]. simpl.
      eexists. rewrite app_nil_r. reflexivity.
  - simpl. destruct (answer env (Finish span) w1) as [[] w4]. eexists. reflexivity.
Qed.

Lemma run_traced_stream (env : Env traceE) span
    (next : M traceE (option client.Stream_ * option error)) (w : World env) :
  exists w',
    run env (defer (call (Finish span))
               (r ← next;
                let '(stream, err) := r in
                mark_failed span err;; mret (stream, err))) w
    = match run env next w with
      | (Returned (stream, err), tr1, _) =>
          (Returned (stream, err),
           tr1 ++ failure_marks span err ++ [Evt (Finish span) tt], w')
      | (Panicked v, tr1, _) =>
          (Panicked v, tr1 ++ [Evt (Finish span) tt], w')
      end.
Proof.
  rewrite run_defer, run_bind.
  destruct (run env next w) as [[[[stream err] | v] tr1] w1].
  - rewrite run_bind. destruct err as [e |]; simpl.
    + destruct (answer env (LogFields span "error" (Error e)) w1) as [[] w2].
      destruct (answer env (SetTag span "error" (TagBool true)) w2) as [[] w3].
      destruct (answer env (Finish span) w3) as [[] w4]. simpl.
      eexists. rewrite <- !app_assoc. reflexivity.
    + destruct (answer env (Finish span) w1) as [[] w4]. simpl.
      eexists. rewrite app_nil_r. reflexivity.
  - simpl. destruct (answer env (Finish span) w1) as [[] w4]. eexists. reflexivity.
Qed.

Lemma run_tracer_or_global (env : Env traceE) ot (w : World env) :
  run env (tracer_or_global ot) w
  = (Returned (resolve env ot w).1.1, (resolve env ot w).1.2, (resolve env ot w).2).
Proof.
  destruct ot as [t |]; simpl; [reflexivity |].
  destruct (answer env GlobalTracer w). reflexivity.
Qed.

(** *** The wrappers, call by call *)

Lemma run_SpanKind_Set (env : Env traceE) kind span (w : World env) :
  run env (SpanKind_Set kind span) w
  = (Returned tt, [kind_tag kind span],
     (answer env (SetTag span "span.kind" (TagString kind)) w).2).
Proof.
  unfold SpanKind_Set. rewrite run_call.
  destruct (answer env (SetTag span "span.kind" (TagString kind)) w) as [[] w1].
  reflexivity.
Qed.

Lemma run_otWrapper_Call (env : Env traceE) o ctx req rsp opts (w : World env) :
  let name := client.Service req +:+ "." +:+ client.Endpoint req in
  match run env (StartSpanFromContext ctx (ot o) name []) w with
  | (Returned (inr e), tr0, w0) =>
      run env (otWrapper_Call o ctx req rsp opts) w = (Returned (Some e), tr0, w0)
  | (Returned (inl (ctx', span)), tr0, w0) =>
      exists w',
        run env (otWrapper_Call o ctx req rsp opts) w
        = match run env (client.Call (Client o) ctx' req rsp opts) w0 with
          | (Returned err, tr1, _) =>
              (Returned err,
               tr0 ++ tr1 ++ failure_marks span err ++ [Evt (Finish span) tt], w')
          | (Panicked v, tr1, _) =>
              (Panicked v, tr0 ++ tr1 ++ [Evt (Finish span) tt], w')
          end
  | (Panicked _, _, _) => False
  end.
Proof.
  intros name. unfold otWrapper_Call. fold name. rewrite run_bind.
  destruct (StartSpanFromContext_no_next env ctx (ot o) name [] w) as (r & Hr & _).
  destruct (run env (StartSpanFromContext ctx (ot o) name []) w) as [[r0 tr0] w0].
  simpl in Hr. subst r0. destruct r as [[ctx' span] | e].
  - destruct (run_traced env span (client.Call (Client o) ctx' req rsp opts) w0)
      as (w' & ->).
    exists w'.
    destruct (run env (client.Call (Client o) ctx' req rsp opts) w0)
      as [[[err | v] tr1] w1]; reflexivity.
  - rewrite run_mret, app_nil_r. reflexivity.
Qed.

(** The body of the wrappers that tag their span with a kind. *)
Lemma run_kinded (env : Env traceE) kind t ctx name
    (next : GoContext -> M traceE (option error)) (w : World env) :
  let body :=
    r ← StartSpanFromContext ctx t name [];
    match r with
    | inr err => mret (Some err)
    | inl (ctx, span) =>
        SpanKind_Set kind span;;
        defer (call (Finish span))
          (err ← next ctx; mark_failed span err;; mret err)
    end in
  match run env (StartSpanFromContext ctx t name []) w with
  | (Returned (inr e), tr0, w0) => run env body w = (Returned (Some e), tr0, w0)
  | (Returned (inl (ctx', span)), tr0, w0) =>
      exists w',
        run env body w
        = match run env (next ctx')
                  (answer env (SetTag span "span.kind" (TagString kind)) w0).2 with
          | (Returned err, tr1, _) =>
              (Returned err,
               tr0 ++ kind_tag kind span :: tr1 ++ failure_marks span err
                   ++ [Evt (Finish span) tt], w')
          | (Panicked v, tr1, _) =>
              (Panicked v, tr0 ++ kind_tag kind span :: tr1 ++ [Evt (Finish span) tt], w')
          end
  | (Panicked _, _, _) => False
  end.
Proof.
  intros body. unfold body. rewrite run_bind.
  destruct (StartSpanFromContext_no_next env ctx t name [] w) as (r & Hr & _).
  destruct (run env (StartSpanFromContext ctx t name []) w) as [[r0 tr0] w0].
  simpl in Hr. subst r0. destruct r as [[ctx' span] | e].
  - rewrite run_bind, run_SpanKind_Set.
    set (w1 := (answer env (SetTag span "span.kind" (TagString kind)) w0).2).
    destruct (run_traced env span (next ctx') w1) as (w' & ->).
    exists w'.
    destruct (run env (next ctx') w1) as [[[err | v] tr1] w2]; reflexivity.
  - rewrite run_mret, app_nil_r. reflexivity.
Qed.

(** A wrapper that first finds its tracer: the call to find it comes
    first. *)
Lemma run_with_tracer {A} (env : Env traceE) ot (body : Tracer -> M traceE A)
    (w : World env) :
  run env (t ← tracer_or_global ot; body t) w
  = let '(r, tr, w') := run env (body (resolve env ot w).1.1) (resolve env ot w).2 in
    (r, (resolve env ot w).1.2 ++ tr, w').
Proof.
  rewrite run_bind, run_tracer_or_global.
  destruct (run env (body (resolve env ot w).1.1) (resolve env ot w).2) as [[r tr] w'].
  reflexivity.
Qed.

Ltac kinded_wrapper Hk :=
  cbv zeta in Hk;
  match type of Hk with
  | context [run ?env (StartSpanFromContext ?ctx ?t ?name []) ?wt] =>
      destruct (run env (StartSpanFromContext ctx t name []) wt)
        as [[[[[ctx' span] | e] | v] tr0] w0]
  end;
  [ destruct Hk as (w' & ->); exists w';
    match goal with
    | |- context [run ?env ?n (answer ?env' ?ev ?w0).2] =>
        destruct (run env n (answer env' ev w0).2) as [[[err | v] tr1] w2]
    end; reflexivity
  | rewrite Hk; reflexivity
  | exact Hk ].

Lemma run_NewHandlerWrapper (env : Env traceE) ot (h : server.HandlerFunc traceE)
    ctx req rsp (w : World env) :
  let name := server.Service req +:+ "." +:+ server.Endpoint req in
  let '(t, trg, wt) := resolve env ot w in
  match run env (StartSpanFromContext ctx t name []) wt with
  | (Returned (inr e), tr0, w0) =>
      run env (NewHandlerWrapper ot h ctx req rsp) w
      = (Returned (Some e), trg ++ tr0, w0)
  | (Returned (inl (ctx', span)), tr0, w0) =>
      exists w',
        run env (NewHandlerWrapper ot h ctx req rsp) w
        = match run env (h ctx' req rsp)
                  (answer env (SetTag span "span.kind" (TagString "server")) w0).2 with
          | (Returned err, tr1, _) =>
              (Returned err,
               trg ++ tr0 ++ kind_tag "server" span :: tr1 ++ failure_marks span err
                   ++ [Evt (Finish span) tt], w')
          | (Panicked v, tr1, _) =>
              (Panicked v,
               trg ++ tr0 ++ kind_tag "server" span :: tr1 ++ [Evt (Finish span) tt], w')
          end
  | (Panicked _, _, _) => False
  end.
Proof.
  intros name. unfold NewHandlerWrapper. fold name. rewrite run_with_tracer.
  destruct (resolve env ot w) as [[t trg] wt]. cbn [fst snd].
  pose proof (run_kinded env "server" t ctx name (fun c => h c req rsp) wt) as Hk.
  kinded_wrapper Hk.
Qed.

Lemma run_NewCallWrapper (env : Env traceE) ot (cf : client.CallFunc traceE)
    ctx addr req rsp opts (w : World env) :
  let name := client.Service req +:+ "." +:+ client.Endpoint req in
  let '(t, trg, wt) := resolve env ot w in
  match run env (StartSpanFromContext ctx t name []) wt with
  | (Returned (inr e), tr0, w0) =>
      run env (NewCallWrapper ot cf ctx addr req rsp opts) w
      = (Returned (Some e), trg ++ tr0, w0)
  | (Returned (inl (ctx', span)), tr0, w0) =>
      exists w',
        run env (NewCallWrapper ot cf ctx addr req rsp opts) w
        = match run env (cf ctx' addr req rsp opts)
                  (answer env (SetTag span "span.kind" (TagString "client")) w0).2 with
          | (Returned err, tr1, _) =>
              (Returned err,
               trg ++ tr0 ++ kind_tag "client" span :: tr1 ++ failure_marks span err
                   ++ [Evt (Finish span) tt], w')
          | (Panicked v, tr1, _) =>
              (Panicked v,
               trg ++ tr0 ++ kind_tag "client" span :: tr1 ++ [Evt (Finish span) tt], w')
          end
  | (Panicked _, _, _) => False
  end.
Proof.
  intros name. unfold NewCallWrapper. fold name. rewrite run_with_tracer.
  destruct (resolve env ot w) as [[t trg] wt]. cbn [fst snd].
  pose proof (run_kinded env "client" t ctx name
                (fun c => cf c addr req rsp opts) wt) as Hk.
  kinded_wrapper Hk.
Qed.

Lemma run_NewSubscriberWrapper (env : Env traceE) ot
    (next : server.SubscriberFunc traceE) ctx msg (w : World env) :
  let name := "Sub from " +:+ server.Topic msg in
  let '(t, trg, wt) := resolve env ot w in
  match run env (StartSpanFromContext ctx t name []) wt with
  | (Returned (inr e), tr0, w0) =>
      run env (NewSubscriberWrapper ot next ctx msg) w
      = (Returned (Some e), trg ++ tr0, w0)
  | (Returned (inl (ctx', span)), tr0, w0) =>
      exists w',
        run env (NewSubscriberWrapper ot next ctx msg) w
        = match run env (next ctx' msg)
                  (answer env (SetTag span "span.kind" (TagString "consumer")) w0).2 with
          | (Returned err, tr1, _) =>
              (Returned err,
               trg ++ tr0 ++ kind_tag "consumer" span :: tr1 ++ failure_marks span err
                   ++ [Evt (Finish span) tt], w')
          | (Panicked v, tr1, _) =>
              (Panicked v,
               trg ++ tr0 ++ kind_tag "consumer" span :: tr1 ++ [Evt (Finish span) tt],
               w')
          end
  | (Panicked _, _, _) => False
  end.
Proof.
  intros name. unfold NewSubscriberWrapper. fold name. rewrite run_with_tracer.
  destruct (resolve env ot w) as [[t trg] wt]. cbn [fst snd].
  pose proof (run_kinded env "consumer" t ctx name (fun c => next c msg) wt) as Hk.
  kinded_wrapper Hk.
Qed.

Lemma run_otWrapper_Publish (env : Env traceE) o ctx p opts (w : World env) :
  let name := "Pub to " +:+ client.Topic p in
  match run env (StartSpanFromContext ctx (ot o) name []) w with
  | (Returned (inr e), tr0, w0) =>
      run env (otWrapper_Publish o ctx p opts) w = (Returned (Some e), tr0, w0)
  | (Returned (inl (ctx', span)), tr0, w0) =>
      exists w',
        run env (otWrapper_Publish o ctx p opts) w
        = match run env (client.Publish (Client o) ctx' p opts)
                  (answer env (SetTag span "span.kind" (TagString "producer")) w0).2 with
          | (Returned err, tr1, _) =>
              (Returned err,
               tr0 ++ kind_tag "producer" span :: tr1 ++ failure_marks span err
                   ++ [Evt (Finish span) tt], w')
          | (Panicked v, tr1, _) =>
              (Panicked v,
               tr0 ++ kind_tag "producer" span :: tr1 ++ [Evt (Finish span) tt], w')
          end
  | (Panicked _, _, _) => False
  end.
Proof.
  intros name. unfold otWrapper_Publish. fold name.
  exact (run_kinded env "producer" (ot o) ctx name
           (fun c => client.Publish (Client o) c p opts) w).
Qed.

Lemma run_otWrapper_Stream (env : Env traceE) o ctx req opts (w : World env) :
  let name := client.Service req +:+ "." +:+ client.Endpoint req in
  match run env (StartSpanFromContext ctx (ot o) name []) w with
  | (Returned (inr e), tr0, w0) =>
      run env (otWrapper_Stream o ctx req opts) w
      = (Returned (None, Some e), tr0, w0)
  | (Returned (inl (ctx', span)), tr0, w0) =>
      exists w',
        run env (otWrapper_Stream o ctx req opts) w
        = match run env (client.Stream (Client o) ctx' req opts) w0 with
          | (Returned (stream, err), tr1, _) =>
              (Returned (stream, err),
               tr0 ++ tr1 ++ failure_marks span err ++ [Evt (Finish span) tt], w')
          | (Panicked v, tr1, _) =>
              (Panicked v, tr0 ++ tr1 ++ [Evt (Finish span) tt], w')
          end
  | (Panicked _, _, _) => False
  end.
Proof.
  intros name. unfold otWrapper_Stream. fold name. rewrite run_bind.
  destruct (StartSpanFromContext_no_next env ctx (ot o) name [] w) as (r & Hr & _).
  destruct (run env (StartSpanFromContext ctx (ot o) name []) w) as [[r0 tr0] w0].
  simpl in Hr. subst r0. destruct r as [[ctx' span] | e].
  - destruct (run_traced_stream env span (client.Stream (Client o) ctx' req opts) w0)
      as (w' & ->).
    exists w'.
    destruct (run env (client.Stream (Client o) ctx' req opts) w0)
      as [[[[stream err] | v] tr1] w1]; reflexivity.
  - rewrite run_mret, app_nil_r. reflexivity.
Qed.

(** *** What a wrapper's trace shows *)

Lemma resolve_quiet (env : Env traceE) ot (w : World env) :
  next_calls (resolve env ot w).1.2 = [] /\
  omap inject_error (resolve env ot w).1.2 = [].
Proof. destruct ot; split; reflexivity. Qed.

Lemma marks_quiet span err :
  next_calls (failure_marks span err ++ [Evt (Finish span) tt]) = [] /\
  omap inject_error (failure_marks span err ++ [Evt (Finish span) tt]) = [].
Proof. destruct err; split; reflexivity. Qed.

Ltac use_quiet :=
  repeat match goal with
         | H : omap _ _ = _ |- _ => try rewrite H; clear H
         end.

Ltac summarize Hk Hq :=
  unfold summary, inject_failure, next_calls in *; cbn [fst snd] in *;
  destruct Hq as [? ?];
  match type of Hk with
  | context [run ?env (StartSpanFromContext ?ctx ?t ?name []) ?wt] =>
      let r0 := fresh "r" in
      let Hr0 := fresh "Hr" in
      destruct (StartSpanFromContext_no_next env ctx t name [] wt)
        as (r0 & Hr0 & ? & ?);
      unfold next_calls in *;
      destruct (run env (StartSpanFromContext ctx t name []) wt) as [[? ?] ?];
      cbn [fst snd] in *; subst; destruct r0 as [[? ?] | ?]
  end;
  [ let w' := fresh "w" in
    destruct Hk as (w' & ->); rewrite run_invoke;
    match goal with
    | |- context [(answer ?env ?ev ?w1).1] =>
        destruct (answer env ev w1) as [[[] | ?] ?]
    end;
    cbn [fst snd]; rewrite ?app_nil_l, !omap_app; use_quiet;
    try match goal with
        | |- context [failure_marks _ ?err] => is_var err; destruct err
        end;
    split; reflexivity
  | rewrite Hk; cbn [fst snd]; rewrite ?omap_app; use_quiet;
    repeat split; reflexivity ].

Lemma NewHandlerWrapper_summary (env : Env traceE) ot ctx req rsp (w : World env) :
  summary Some (HandlerArgs req rsp)
    (run env (StartSpanFromContext ctx (resolve env ot w).1.1
                (server.Service req +:+ "." +:+ server.Endpoint req) [])
       (resolve env ot w).2).1
    (run env (NewHandlerWrapper ot opaque_handler ctx req rsp) w).1.1
    (run env (NewHandlerWrapper ot opaque_handler ctx req rsp) w).1.2.
Proof.
  pose proof (run_NewHandlerWrapper env ot opaque_handler ctx req rsp w) as Hk.
  pose proof (resolve_quiet env ot w) as Hq.
  cbv zeta in Hk. destruct (resolve env ot w) as [[t trg] wt].
  unfold opaque_handler in *.
  summarize Hk Hq.
Qed.

Lemma NewSubscriberWrapper_summary (env : Env traceE) ot ctx msg (w : World env) :
  summary Some (SubscriberArgs msg)
    (run env (StartSpanFromContext ctx (resolve env ot w).1.1
                ("Sub from " +:+ server.Topic msg) [])
       (resolve env ot w).2).1
    (run env (NewSubscriberWrapper ot opaque_subscriber ctx msg) w).1.1
    (run env (NewSubscriberWrapper ot opaque_subscriber ctx msg) w).1.2.
Proof.
  pose proof (run_NewSubscriberWrapper env ot opaque_subscriber ctx msg w) as Hk.
  pose proof (resolve_quiet env ot w) as Hq.
  cbv zeta in Hk. destruct (resolve env ot w) as [[t trg] wt].
  unfold opaque_subscriber in *.
  summarize Hk Hq.
Qed.

Lemma NewCallWrapper_summary (env : Env traceE) ot ctx addr req rsp opts
    (w : World env) :
  summary Some (CallFuncArgs addr req rsp opts)
    (run env (StartSpanFromContext ctx (resolve env ot w).1.1
                (client.Service req +:+ "." +:+ client.Endpoint req) [])
       (resolve env ot w).2).1
    (run env (NewCallWrapper ot opaque_call ctx addr req rsp opts) w).1.1
    (run env (NewCallWrapper ot opaque_call ctx addr req rsp opts) w).1.2.
Proof.
  pose proof (run_NewCallWrapper env ot opaque_call ctx addr req rsp opts w) as Hk.
  pose proof (resolve_quiet env ot w) as Hq.
  cbv zeta in Hk. destruct (resolve env ot w) as [[t trg] wt].
  unfold opaque_call in *.
  summarize Hk Hq.
Qed.

Lemma nothing_quiet :
  next_calls [] = [] /\ omap inject_error [] = [].
Proof. split; reflexivity. Qed.

Lemma otWrapper_Call_summary (env : Env traceE) t ctx req rsp opts (w : World env) :
  summary Some (ClientCall req rsp opts)
    (run env (StartSpanFromContext ctx t
                (client.Service req +:+ "." +:+ client.Endpoint req) []) w).1
    (run env (otWrapper_Call (opaque_otWrapper t) ctx req rsp opts) w).1.1
    (run env (otWrapper_Call (opaque_otWrapper t) ctx req rsp opts) w).1.2.
Proof.
  pose proof (run_otWrapper_Call env (opaque_otWrapper t) ctx req rsp opts w) as Hk.
  pose proof nothing_quiet as Hq.
  cbv zeta in Hk. cbn [ot Client opaque_otWrapper opaque_client client.Call] in Hk.
  summarize Hk Hq.
Qed.

Lemma otWrapper_Publish_summary (env : Env traceE) t ctx p opts (w : World env) :
  summary Some (ClientPublish p opts)
    (run env (StartSpanFromContext ctx t ("Pub to " +:+ client.Topic p) []) w).1
    (run env (otWrapper_Publish (opaque_otWrapper t) ctx p opts) w).1.1
    (run env (otWrapper_Publish (opaque_otWrapper t) ctx p opts) w).1.2.
Proof.
  pose proof (run_otWrapper_Publish env (opaque_otWrapper t) ctx p opts w) as Hk.
  pose proof nothing_quiet as Hq.
  cbv zeta in Hk. cbn [ot Client opaque_otWrapper opaque_client client.Publish] in Hk.
  summarize Hk Hq.
Qed.

Lemma otWrapper_Stream_summary (env : Env traceE) t ctx req opts (w : World env) :
  summary (fun e => (None, Some e)) (ClientStream req opts)
    (run env (StartSpanFromContext ctx t
                (client.Service req +:+ "." +:+ client.Endpoint req) []) w).1
    (run env (otWrapper_Stream (opaque_otWrapper t) ctx req opts) w).1.1
    (run env (otWrapper_Stream (opaque_otWrapper t) ctx req opts) w).1.2.
Proof.
  pose proof (run_otWrapper_Stream env (opaque_otWrapper t) ctx req opts w) as Hk.
  pose proof nothing_quiet as Hq.
  cbv zeta in Hk. cbn [ot Client opaque_otWrapper opaque_client client.Stream] in Hk.
  summarize Hk Hq.
Qed.

Lemma summary_count {R} (failed : error -> R) args started r tr :
  summary failed args started r tr ->
  length (next_calls tr) = if span_created started.1 then 1 else 0.
Proof.
  unfold summary. destruct started.1 as [[[ctx' span] | e] | v]; simpl.
  - intros [-> _]. reflexivity.
  - intros [-> _]. reflexivity.
  - intros [].
Qed.

Lemma summary_failure {R} (failed : error -> R) args started r tr e :
  summary failed args started r tr ->
  inject_failure tr = Some e ->
  r = Returned (failed e) /\ next_calls tr = [].
Proof.
  unfold summary. destruct started.1 as [[[ctx' span] | e'] | v].
  - intros [_ ->]. discriminate.
  - intros (Hn & -> & ->) [= ->]. split; [reflexivity | exact Hn].
  - intros [].
Qed.

Lemma summary_context {R} (failed : error -> R) args started r tr ctx' span :
  summary failed args started r tr ->
  started.1 = Returned (inl (ctx', span)) ->
  next_calls tr = [(ctx', args)].
Proof.
  unfold summary. intros Hs Hst. rewrite Hst in Hs. apply Hs.
Qed.

(** *** The claims *)

(** C4.  When [StartSpanFromContext] gives a span, the client wrapper's
    [Call] and the handler wrapper return exactly what the wrapped function
    returns, nil or not; when that is an error [e], the span gets the log
    field [error = e.Error()] and the tag [error = true], after the call and
    before [Finish].  A panic of the wrapped function passes through. *)
Theorem tracing_wrapper_returns_error_of_next (env : Env traceE) :
  (forall o ctx req rsp opts (w : World env),
     match run env (StartSpanFromContext ctx (ot o)
                      (client.Service req +:+ "." +:+ client.Endpoint req) []) w with
     | (Returned (inl (ctx', span)), tr0, w0) =>
         match run env (client.Call (Client o) ctx' req rsp opts) w0 with
         | (Returned err, tr1, _) =>
             exists w',
               run env (otWrapper_Call o ctx req rsp opts) w
               = (Returned err,
                  tr0 ++ tr1 ++ failure_marks span err ++ [Evt (Finish span) tt], w')
         | (Panicked v, tr1, _) =>
             (run env (otWrapper_Call o ctx req rsp opts) w).1.1 = Panicked v
         end
     | _ => True
     end) /\
  (forall ot (h : server.HandlerFunc traceE) ctx req rsp (w : World env),
     match run env (StartSpanFromContext ctx (resolve env ot w).1.1
                      (server.Service req +:+ "." +:+ server.Endpoint req) [])
             (resolve env ot w).2 with
     | (Returned (inl (ctx', span)), tr0, w0) =>
         match run env (h ctx' req rsp)
                 (answer env (SetTag span "span.kind" (TagString "server")) w0).2 with
         | (Returned err, tr1, _) =>
             exists w',
               run env (NewHandlerWrapper ot h ctx req rsp) w
               = (Returned err,
                  (resolve env ot w).1.2 ++ tr0 ++ kind_tag "server" span :: tr1
                    ++ failure_marks span err ++ [Evt (Finish span) tt], w')
         | (Panicked v, tr1, _) =>
             (run env (NewHandlerWrapper ot h ctx req rsp) w).1.1 = Panicked v
         end
     | _ => True
     end) /\
  (forall span e,
     failure_marks span (Some e)
     = [Evt (LogFields span "error" (Error e)) tt;
        Evt (SetTag span "error" (TagBool true)) tt]) /\
  (forall span, failure_marks span None = []).
Proof.
  split; [| split; [| split; reflexivity]].
  - intros o ctx req rsp opts w.
    pose proof (run_otWrapper_Call env o ctx req rsp opts w) as Hk. cbv zeta in Hk.
    destruct (run env (StartSpanFromContext ctx (ot o) _ []) w)
      as [[[[[ctx' span] | e] | v] tr0] w0]; try exact I.
    destruct Hk as (w' & Hk). rewrite Hk.
    destruct (run env (client.Call (Client o) ctx' req rsp opts) w0)
      as [[[err | v] tr1] w1]; [exists w' |]; reflexivity.
  - intros ot h ctx req rsp w.
    pose proof (run_NewHandlerWrapper env ot h ctx req rsp w) as Hk. cbv zeta in Hk.
    destruct (resolve env ot w) as [[t trg] wt]. cbn [fst snd].
    destruct (run env (StartSpanFromContext ctx t _ []) wt)
      as [[[[[ctx' span] | e] | v] tr0] w0]; try exact I.
    destruct Hk as (w' & Hk). rewrite Hk.
    destruct (run env (h ctx' req rsp) _) as [[[err | v] tr1] w1];
      [exists w' |]; reflexivity.
Qed.

(** C6.  Around an opaque function, the client wrapper's [Call], the call
    wrapper, the handler wrapper and the subscriber wrapper call that
    function once when [StartSpanFromContext] gives a span and not at all
    when it fails: never more than once. *)
Theorem tracing_wrappers_call_next_once_or_never (env : Env traceE) :
  (forall t ctx req rsp opts (w : World env),
     length (next_calls
               (run env (otWrapper_Call (opaque_otWrapper t) ctx req rsp opts) w).1.2)
     = if span_created
            (run env (StartSpanFromContext ctx t
                        (client.Service req +:+ "." +:+ client.Endpoint req) []) w).1.1
       then 1 else 0) /\
  (forall ot ctx addr req rsp opts (w : World env),
     length (next_calls
               (run env (NewCallWrapper ot opaque_call ctx addr req rsp opts) w).1.2)
     = if span_created
            (run env (StartSpanFromContext ctx (resolve env ot w).1.1
                        (client.Service req +:+ "." +:+ client.Endpoint req) [])
               (resolve env ot w).2).1.1
       then 1 else 0) /\
  (forall ot ctx req rsp (w : World env),
     length (next_calls
               (run env (NewHandlerWrapper ot opaque_handler ctx req rsp) w).1.2)
     = if span_created
            (run env (StartSpanFromContext ctx (resolve env ot w).1.1
                        (server.Service req +:+ "." +:+ server.Endpoint req) [])
               (resolve env ot w).2).1.1
       then 1 else 0) /\
  (forall ot ctx msg (w : World env),
     length (next_calls
               (run env (NewSubscriberWrapper ot opaque_subscriber ctx msg) w).1.2)
     = if span_created
            (run env (StartSpanFromContext ctx (resolve env ot w).1.1
                        ("Sub from " +:+ server.Topic msg) [])
               (resolve env ot w).2).1.1
       then 1 else 0).
Proof.
  repeat apply conj.
  - intros t ctx req rsp opts w.
    exact (summary_count _ _ _ _ _ (otWrapper_Call_summary env t ctx req rsp opts w)).
  - intros tracer ctx addr req rsp opts w.
    exact (summary_count _ _ _ _ _
             (NewCallWrapper_summary env tracer ctx addr req rsp opts w)).
  - intros tracer ctx req rsp w.
    exact (summary_count _ _ _ _ _ (NewHandlerWrapper_summary env tracer ctx req rsp w)).
  - intros tracer ctx msg w.
    exact (summary_count _ _ _ _ _ (NewSubscriberWrapper_summary env tracer ctx msg w)).
Qed.

(** Around an opaque function: the one [Inject] call of a wrapper, and
    what the wrapper does when that call failed. *)
Ltac aborts Hk Hq :=
  unfold next_calls in *; cbn [fst snd] in *;
  destruct Hq as [? ?];
  match type of Hk with
  | context [run ?env (StartSpanFromContext ?ctx ?t ?name []) ?wt] =>
      let r0 := fresh "r" in
      let Hr0 := fresh "Hr" in
      destruct (StartSpanFromContext_no_next env ctx t name [] wt)
        as (r0 & Hr0 & ? & ?);
      unfold next_calls in *;
      destruct (run env (StartSpanFromContext ctx t name []) wt) as [[? ?] ?];
      cbn [fst snd] in *; subst; destruct r0 as [[? ?] | ?]
  end;
  [ let w' := fresh "w" in
    destruct Hk as (w' & ->); rewrite run_invoke;
    match goal with
    | |- context [(answer ?env ?ev ?w1).1] =>
        destruct (answer env ev w1) as [[[] | ?] ?]
    end;
    cbn [fst snd]; rewrite ?app_nil_l, !omap_app; use_quiet;
    try match goal with
        | |- context [failure_marks _ ?err] => is_var err; destruct err
        end;
    exists None; (split; [reflexivity | intros ? [=]])
  | rewrite Hk; cbn [fst snd]; rewrite ?omap_app; use_quiet;
    eexists; (split; [reflexivity | intros ? [= <-]; split; reflexivity]) ].

Lemma otWrapper_Call_aborts (env : Env traceE) t ctx req rsp opts (w : World env) :
  exists x,
    omap inject_error
      (run env (otWrapper_Call (opaque_otWrapper t) ctx req rsp opts) w).1.2 = [x] /\
    forall e, x = Some e ->
      (run env (otWrapper_Call (opaque_otWrapper t) ctx req rsp opts) w).1.1
      = Returned (Some e) /\
      next_calls (run env (otWrapper_Call (opaque_otWrapper t) ctx req rsp opts) w).1.2
      = [].
Proof.
  pose proof (run_otWrapper_Call env (opaque_otWrapper t) ctx req rsp opts w) as Hk.
  pose proof nothing_quiet as Hq.
  cbv zeta in Hk. cbn [ot Client opaque_otWrapper opaque_client client.Call] in Hk.
  aborts Hk Hq.
Qed.

Lemma otWrapper_Stream_aborts (env : Env traceE) t ctx req opts (w : World env) :
  exists x,
    omap inject_error
      (run env (otWrapper_Stream (opaque_otWrapper t) ctx req opts) w).1.2 = [x] /\
    forall e, x = Some e ->
      (run env (otWrapper_Stream (opaque_otWrapper t) ctx req opts) w).1.1
      = Returned (None, Some e) /\
      next_calls (run env (otWrapper_Stream (opaque_otWrapper t) ctx req opts) w).1.2
      = [].
Proof.
  pose proof (run_otWrapper_Stream env (opaque_otWrapper t) ctx req opts w) as Hk.
  pose proof nothing_quiet as Hq.
  cbv zeta in Hk. cbn [ot Client opaque_otWrapper opaque_client client.Stream] in Hk.
  aborts Hk Hq.
Qed.

Lemma otWrapper_Publish_aborts (env : Env traceE) t ctx p opts (w : World env) :
  exists x,
    omap inject_error
      (run env (otWrapper_Publish (opaque_otWrapper t) ctx p opts) w).1.2 = [x] /\
    forall e, x = Some e ->
      (run env (otWrapper_Publish (opaque_otWrapper t) ctx p opts) w).1.1
      = Returned (Some e) /\
      next_calls (run env (otWrapper_Publish (opaque_otWrapper t) ctx p opts) w).1.2
      = [].
Proof.
  pose proof (run_otWrapper_Publish env (opaque_otWrapper t) ctx p opts w) as Hk.
  pose proof nothing_quiet as Hq.
  cbv zeta in Hk. cbn [ot Client opaque_otWrapper opaque_client client.Publish] in Hk.
  aborts Hk Hq.
Qed.

Lemma NewHandlerWrapper_aborts (env : Env traceE) ot ctx req rsp (w : World env) :
  exists x,
    omap inject_error
      (run env (NewHandlerWrapper ot opaque_handler ctx req rsp) w).1.2 = [x] /\
    forall e, x = Some e ->
      (run env (NewHandlerWrapper ot opaque_handler ctx req rsp) w).1.1
      = Returned (Some e) /\
      next_calls (run env (NewHandlerWrapper ot opaque_handler ctx req rsp) w).1.2 = [].
Proof.
  pose proof (run_NewHandlerWrapper env ot opaque_handler ctx req rsp w) as Hk.
  pose proof (resolve_quiet env ot w) as Hq.
  cbv zeta in Hk. destruct (resolve env ot w) as [[t trg] wt].
  unfold opaque_handler in *.
  aborts Hk Hq.
Qed.

(** C10.  [StartSpanFromContext] calls [Inject] once and returns an error
    exactly when that call answered with one, and then that error.  When
    it does, the client wrapper's [Call], [Stream] and [Publish] and the
    handler wrapper, around any wrapped function, return that error
    ([Stream]: a nil stream and the error) having made no call but those of
    [StartSpanFromContext] (after [GlobalTracer], where the tracer was
    nil): the wrapped function is not run, nothing is tagged and the span
    is not finished.  Read off a wrapper's own trace, around an opaque
    function: it holds exactly one [Inject] call, and if that answered with
    an error [e], the wrapper returned [e] and the wrapped function was not
    called. *)
Theorem inject_error_aborts_the_call (env : Env traceE) :
  (forall ctx tracer name opts (w : World env),
     exists r,
       (run env (StartSpanFromContext ctx tracer name opts) w).1.1 = Returned r /\
       omap inject_error (run env (StartSpanFromContext ctx tracer name opts) w).1.2
       = [match r with inr e => Some e | inl _ => None end]) /\
  (forall o ctx req rsp opts (w : World env) e tr0 w0,
     run env (StartSpanFromContext ctx (ot o)
                (client.Service req +:+ "." +:+ client.Endpoint req) []) w
     = (Returned (inr e), tr0, w0) ->
     run env (otWrapper_Call o ctx req rsp opts) w = (Returned (Some e), tr0, w0)) /\
  (forall o ctx req opts (w : World env) e tr0 w0,
     run env (StartSpanFromContext ctx (ot o)
                (client.Service req +:+ "." +:+ client.Endpoint req) []) w
     = (Returned (inr e), tr0, w0) ->
     run env (otWrapper_Stream o ctx req opts) w
     = (Returned (None, Some e), tr0, w0)) /\
  (forall o ctx p opts (w : World env) e tr0 w0,
     run env (StartSpanFromContext ctx (ot o) ("Pub to " +:+ client.Topic p) []) w
     = (Returned (inr e), tr0, w0) ->
     run env (otWrapper_Publish o ctx p opts) w = (Returned (Some e), tr0, w0)) /\
  (forall ot (h : server.HandlerFunc traceE) ctx req rsp (w : World env) e tr0 w0,
     run env (StartSpanFromContext ctx (resolve env ot w).1.1
                (server.Service req +:+ "." +:+ server.Endpoint req) [])
       (resolve env ot w).2
     = (Returned (inr e), tr0, w0) ->
     run env (NewHandlerWrapper ot h ctx req rsp) w
     = (Returned (Some e), (resolve env ot w).1.2 ++ tr0, w0)) /\
  (forall t ctx req rsp opts (w : World env),
     exists x,
       omap inject_error
         (run env (otWrapper_Call (opaque_otWrapper t) ctx req rsp opts) w).1.2 = [x] /\
       forall e, x = Some e ->
         (run env (otWrapper_Call (opaque_otWrapper t) ctx req rsp opts) w).1.1
         = Returned (Some e) /\
         next_calls
           (run env (otWrapper_Call (opaque_otWrapper t) ctx req rsp opts) w).1.2
         = []) /\
  (forall t ctx req opts (w : World env),
     exists x,
       omap inject_error
         (run env (otWrapper_Stream (opaque_otWrapper t) ctx req opts) w).1.2 = [x] /\
       forall e, x = Some e ->
         (run env (otWrapper_Stream (opaque_otWrapper t) ctx req opts) w).1.1
         = Returned (None, Some e) /\
         next_calls
           (run env (otWrapper_Stream (opaque_otWrapper t) ctx req opts) w).1.2
         = []) /\
  (forall t ctx p opts (w : World env),
     exists x,
       omap inject_error
         (run env (otWrapper_Publish (opaque_otWrapper t) ctx p opts) w).1.2 = [x] /\
       forall e, x = Some e ->
         (run env (otWrapper_Publish (opaque_otWrapper t) ctx p opts) w).1.1
         = Returned (Some e) /\
         next_calls
           (run env (otWrapper_Publish (opaque_otWrapper t) ctx p opts) w).1.2
         = []) /\
  (forall ot ctx req rsp (w : World env),
     exists x,
       omap inject_error
         (run env (NewHandlerWrapper ot opaque_handler ctx req rsp) w).1.2 = [x] /\
       forall e, x = Some e ->
         (run env (NewHandlerWrapper ot opaque_handler ctx req rsp) w).1.1
         = Returned (Some e) /\
         next_calls (run env (NewHandlerWrapper ot opaque_handler ctx req rsp) w).1.2
         = []).
Proof.
  repeat apply conj.
  - intros ctx tracer name opts w.
    destruct (StartSpanFromContext_no_next env ctx tracer name opts w)
      as (r & Hr & _ & Hi).
    exists r. split; assumption.
  - intros o ctx req rsp opts w e tr0 w0 Hs.
    pose proof (run_otWrapper_Call env o ctx req rsp opts w) as Hk.
    cbv zeta in Hk. rewrite Hs in Hk. exact Hk.
  - intros o ctx req opts w e tr0 w0 Hs.
    pose proof (run_otWrapper_Stream env o ctx req opts w) as Hk.
    cbv zeta in Hk. rewrite Hs in Hk. exact Hk.
  - intros o ctx p opts w e tr0 w0 Hs.
    pose proof (run_otWrapper_Publish env o ctx p opts w) as Hk.
    cbv zeta in Hk. rewrite Hs in Hk. exact Hk.
  - intros tracer h ctx req rsp w e tr0 w0 Hs.
    pose proof (run_NewHandlerWrapper env tracer h ctx req rsp w) as Hk.
    cbv zeta in Hk. destruct (resolve env tracer w) as [[t trg] wt].
    cbn [fst snd] in Hs |- *. rewrite Hs in Hk. exact Hk.
  - apply otWrapper_Call_aborts.
  - apply otWrapper_Stream_aborts.
  - apply otWrapper_Publish_aborts.
  - apply NewHandlerWrapper_aborts.
Qed.

(** C5.  [StartSpanFromContext] asks the tracer for a span whose options
    end with the parent: the span of the context when it has one, and then
    [Extract] is not called; else the span context that [Extract] finds in
    the context's metadata; else none.  When [Inject] succeeds, the context
    returned is the given one with the new span and with metadata in which
    every key the tracer wrote is present title-cased, holding the value of
    an entry with that title-cased key, and every other key is as before.
    The wrappers call the wrapped function with exactly that context. *)
Theorem StartSpanFromContext_parent_and_metadata `{!ExternalLaws}
    (env : Env traceE) ctx tracer name opts (w : World env) :
  let md := default ∅ (FromContext ctx) in
  (exists popts tr_parent sp nmd err w',
     run env (StartSpanFromContext ctx tracer name opts) w
     = (Returned (match err with
                  | Some e => inr e
                  | None => inl (NewContext (ContextWithSpan ctx sp)
                                   (set_titled md nmd), sp)
                  end),
        tr_parent ++ [Evt (StartSpan tracer name popts) sp;
                      Evt (Inject (span_Tracer sp) (span_Context sp) ∅) (nmd, err)],
        w') /\
     match SpanFromContext ctx with
     | Some parent =>
         tr_parent = [] /\ popts = opts ++ [ChildOf (span_Context parent)]
     | None =>
         exists x, tr_parent = [Evt (Extract tracer md) x] /\
           popts = opts ++ match x with
                           | inl spanCtx => [ChildOf spanCtx]
                           | inr _ => []
                           end
     end /\
     (forall k v, nmd !! k = Some v ->
        exists k' v', nmd !! k' = Some v' /\ Title k' = Title k /\
          set_titled md nmd !! Title k = Some v') /\
     (forall key, (forall k, is_Some (nmd !! k) -> Title k <> key) ->
        set_titled md nmd !! key = md !! key)) /\
  (forall req rsp copts ctx' span,
     (run env (StartSpanFromContext ctx tracer
                 (client.Service req +:+ "." +:+ client.Endpoint req) []) w).1.1
     = Returned (inl (ctx', span)) ->
     next_calls
       (run env (otWrapper_Call (opaque_otWrapper tracer) ctx req rsp copts) w).1.2
     = [(ctx', ClientCall req rsp copts)]) /\
  (forall req copts ctx' span,
     (run env (StartSpanFromContext ctx tracer
                 (client.Service req +:+ "." +:+ client.Endpoint req) []) w).1.1
     = Returned (inl (ctx', span)) ->
     next_calls
       (run env (otWrapper_Stream (opaque_otWrapper tracer) ctx req copts) w).1.2
     = [(ctx', ClientStream req copts)]) /\
  (forall p popts ctx' span,
     (run env (StartSpanFromContext ctx tracer ("Pub to " +:+ client.Topic p) []) w).1.1
     = Returned (inl (ctx', span)) ->
     next_calls
       (run env (otWrapper_Publish (opaque_otWrapper tracer) ctx p popts) w).1.2
     = [(ctx', ClientPublish p popts)]) /\
  (forall addr req rsp copts ctx' span,
     (run env (StartSpanFromContext ctx tracer
                 (client.Service req +:+ "." +:+ client.Endpoint req) []) w).1.1
     = Returned (inl (ctx', span)) ->
     next_calls
       (run env (NewCallWrapper (Some tracer) opaque_call ctx addr req rsp copts) w).1.2
     = [(ctx', CallFuncArgs addr req rsp copts)]) /\
  (forall req rsp ctx' span,
     (run env (StartSpanFromContext ctx tracer
                 (server.Service req +:+ "." +:+ server.Endpoint req) []) w).1.1
     = Returned (inl (ctx', span)) ->
     next_calls
       (run env (NewHandlerWrapper (Some tracer) opaque_handler ctx req rsp) w).1.2
     = [(ctx', HandlerArgs req rsp)]) /\
  (forall msg ctx' span,
     (run env (StartSpanFromContext ctx tracer ("Sub from " +:+ server.Topic msg) []) w).1.1
     = Returned (inl (ctx', span)) ->
     next_calls
       (run env (NewSubscriberWrapper (Some tracer) opaque_subscriber ctx msg) w).1.2
     = [(ctx', SubscriberArgs msg)]).
Proof.
  intros md. split.
  - destruct (run_StartSpanFromContext env ctx tracer name opts w)
      as (popts & trp & sp & nmd & err & w' & Hrun & Hp).
    exists popts, trp, sp, nmd, err, w'.
    split; [exact Hrun |]. split; [exact Hp |]. split.
    + intros k v. apply set_titled_injected.
    + intros key. apply set_titled_other.
  - repeat apply conj.
    + intros req rsp copts ctx' span.
      exact (summary_context _ _ _ _ _ ctx' span
               (otWrapper_Call_summary env tracer ctx req rsp copts w)).
    + intros req copts ctx' span.
      exact (summary_context _ _ _ _ _ ctx' span
               (otWrapper_Stream_summary env tracer ctx req copts w)).
    + intros p popts ctx' span.
      exact (summary_context _ _ _ _ _ ctx' span
               (otWrapper_Publish_summary env tracer ctx p popts w)).
    + intros addr req rsp copts ctx' span.
      exact (summary_context _ _ _ _ _ ctx' span
               (NewCallWrapper_summary env (Some tracer) ctx addr req rsp copts w)).
    + intros req rsp ctx' span.
      exact (summary_context _ _ _ _ _ ctx' span
               (NewHandlerWrapper_summary env (Some tracer) ctx req rsp w)).
    + intros msg ctx' span.
      exact (summary_context _ _ _ _ _ ctx' span
               (NewSubscriberWrapper_summary env (Some tracer) ctx msg w)).
Qed.

End Tracing.

(** *** On a sample tracer *)

Example handler_error_is_returned_and_marked :
  run (sample.tracing None false (Returned (Some (New "boom"))))
    (NewHandlerWrapper (H:=sample.external) (Some (TracerRef 1)) opaque_handler
       sample.ctx0 sample.req0 7) 0
  = (Returned (Some (New "boom")),
     [Evt (Extract (TracerRef 1) {[ "Authorization" := "token" ]})
        (inr (New "opentracing: SpanContext not found in Extract carrier"));
      Evt (StartSpan (TracerRef 1) "greeter.Say.Hello" [])
        (sample.span0 (TracerRef 1));
      Evt (Inject (TracerRef 1) (SpanContextRef 0) ∅)
        ({[ "uber-trace-id" := "1" ]}, None);
      kind_tag "server" (sample.span0 (TracerRef 1));
      Evt (Next (sample.ctx0_traced (TracerRef 1))
             (HandlerArgs sample.req0 7))
        (Returned (Some (New "boom")));
      Evt (LogFields (sample.span0 (TracerRef 1)) "error" "boom") tt;
      Evt (SetTag (sample.span0 (TracerRef 1)) "error" (TagBool true)) tt;
      Evt (Finish (sample.span0 (TracerRef 1))) tt],
     1).
Proof. reflexivity. Qed.

Example handler_panic_passes_through :
  (run (sample.tracing None false (Panicked (AString "boom")))
     (NewHandlerWrapper (H:=sample.external) None opaque_handler
        sample.ctx0 sample.req0 7) 0).1.1
  = Panicked (AString "boom").
Proof. reflexivity. Qed.

(** The propagation metadata reaches the wrapped function, title-cased. *)
Lemma StartSpanFromContext_parent_and_metadata_witness :
  (forall md : metadata.Metadata,
     range_order (External:=sample.external) md ≡ₚ map_to_list md) /\
  next_calls
    (run (sample.tracing None false (Returned None))
       (NewHandlerWrapper (H:=sample.external) (Some (TracerRef 1)) opaque_handler
          sample.ctx0 sample.req0 7) 0).1.2
  = [(sample.ctx0_traced (TracerRef 1),
      HandlerArgs sample.req0 7)].
Proof.
  split.
  - exact (@range_order_perm sample.external sample.external_laws).
  - refine (proj1 (proj2 (proj2 (proj2 (proj2 (proj2
             (@StartSpanFromContext_parent_and_metadata sample.external
                sample.external_laws (sample.tracing None false (Returned None))
                sample.ctx0 (TracerRef 1) "greeter.Say.Hello" [] 0))))))
             sample.req0 7 _ (sample.span0 (TracerRef 1)) _).
    reflexivity.
Defined.

(** A failing [Inject] on the sample tracer, under each of the four
    wrappers: each returns the error after the calls of
    [StartSpanFromContext] and nothing else. *)
Lemma inject_error_aborts_the_call_witness :
  let env := sample.tracing (Some (New "inject failed")) false (Returned None) in
  let e := New "inject failed" in
  let o := opaque_otWrapper (H:=sample.external) (TracerRef 1) in
  let tr0 :=
    [Evt (Extract (TracerRef 1) {[ "Authorization" := "token" ]})
       (inr (New "opentracing: SpanContext not found in Extract carrier"));
     Evt (StartSpan (TracerRef 1) "greeter.Say.Hello" []) (sample.span0 (TracerRef 1));
     Evt (Inject (TracerRef 1) (SpanContextRef 0) ∅) ({[ "uber-trace-id" := "1" ]}, Some e)] in
  run env (StartSpanFromContext (H:=sample.external) sample.ctx0 (TracerRef 1)
             "greeter.Say.Hello" []) 0
  = (Returned (inr e), tr0, 1) /\
  run env (otWrapper_Call o sample.ctx0
             {| client.Service := "greeter"; client.Endpoint := "Say.Hello" |} 7 []) 0
  = (Returned (Some e), tr0, 1) /\
  run env (otWrapper_Stream o sample.ctx0
             {| client.Service := "greeter"; client.Endpoint := "Say.Hello" |} []) 0
  = (Returned (None, Some e), tr0, 1) /\
  (run env (otWrapper_Publish o sample.ctx0 {| client.Topic := "events" |} []) 0).1.1
  = Returned (Some e) /\
  run env (NewHandlerWrapper (Some (TracerRef 1)) opaque_handler
             sample.ctx0 sample.req0 7) 0
  = (Returned (Some e), tr0, 1).
Proof.
  intros env e o tr0.
  destruct (@inject_error_aborts_the_call sample.external env)
    as (_ & HCall & HStream & HPublish & HHandler & _).
  split; [reflexivity |].
  split; [apply HCall; reflexivity |].
  split; [apply HStream; reflexivity |].
  split; [erewrite HPublish by reflexivity; reflexivity |].
  apply (HHandler (Some (TracerRef 1))). reflexivity.
Defined.

End jaegerFacts.

(** ** package component: what importing package jaeger does *)

Module componentFacts.
Import Go errors server GoFacts serverFacts.

(** Importing package jaeger changes package component's registry: after
    [init], the trace key holds a server wrapper and a client wrapper that
    the empty registry lacked. *)
Lemma jaeger_init_registers_wrappers :
  @component.serverWrappers sample.external (@jaeger.traceE sample.external)
    component.empty !! "trace" = None /\
  is_Some (@component.serverWrappers sample.external (@jaeger.traceE sample.external)
             (jaeger.init "trace" component.empty) !! "trace") /\
  is_Some (@component.clientWrappers sample.external (@jaeger.traceE sample.external)
             (jaeger.init "trace" component.empty) !! "trace").
Proof.
  split; [apply lookup_empty |].
  unfold jaeger.init, component.SetClientWrapper, component.SetServerWrapper.
  cbn [component.serverWrappers component.clientWrappers].
  split; rewrite lookup_insert_eq; eauto.
Qed.

Section Registry.
Context `{External} `{Defaults}.

(** C3, as amended.  The wrapper lists of the [Options] that [newOptions]
    returns are the lists the caller's options built: [newOptions] adds
    none, and options made with [WrapHandler] and [WrapSubscriber] yield
    exactly their wrappers, in order.  Package jaeger's [init], run on
    import, does write the registry of package component: it puts the
    tracing handler wrapper and the tracing client wrapper under the trace
    key and leaves every other entry. *)
Theorem wrapper_lists_come_from_the_options :
  (forall (E : Type -> Type) (opt : list (Option E)),
     match apply_options initial_options opt, newOptions opt with
     | Returned set, Returned o =>
         opts_HdlrWrappers o = opts_HdlrWrappers set /\
         opts_SubWrappers o = opts_SubWrappers set
     | Panicked v, Panicked v' => v = v'
     | _, _ => False
     end) /\
  (forall (E : Type -> Type) (hs : list (HandlerWrapper E))
          (ss : list (SubscriberWrapper E)),
     exists o, newOptions (map WrapHandler hs ++ map WrapSubscriber ss) = Returned o /\
       opts_HdlrWrappers o = hs /\ opts_SubWrappers o = ss) /\
  (forall key (g : component.Registry jaeger.traceE),
     component.serverWrappers (jaeger.init key g)
     = <[key := jaeger.NewHandlerWrapper None]> (component.serverWrappers g) /\
     component.clientWrappers (jaeger.init key g)
     = <[key := jaeger.NewClientWrapper None]> (component.clientWrappers g)).
Proof.
  split; [| split].
  - intros E opt. rewrite newOptions_unfold.
    destruct (apply_options initial_options opt) as [set | v]; [| reflexivity].
    destruct set; split; reflexivity.
  - intros E hs ss.
    assert (Hset : apply_options (E:=E) initial_options
                     (map WrapHandler hs ++ map WrapSubscriber ss)
                   = Returned (set_SubWrappers ss
                                 (set_HdlrWrappers hs initial_options))).
    { rewrite apply_options_app, apply_WrapHandlers. cbn [mbind Outcome_bind].
      rewrite apply_WrapSubscribers. reflexivity. }
    destruct (newOptions_after_options _ _ Hset) as (o & Ho & Hf).
    exists o. split; [exact Ho |].
    destruct (newOptions_wrappers _ _ _ Hset Ho) as [-> ->]. split; reflexivity.
  - intros key g. split; reflexivity.
Qed.

End Registry.

End componentFacts.

(** ** config/source/nacos *)

Module nacosFacts.
Import Go errors nacos GoFacts.

(** *** resolvedGroup *)

Lemma prefix_empty (s : string) : String.prefix "" s = true.
Proof. destruct s; reflexivity. Qed.

Lemma replace_slash (s : string) :
  replace_scan "/" "-" 0 s = map_string dash_for_slash s.
Proof.
  induction s as [| c s IH]; [reflexivity |].
  cbn [replace_scan map_string String.prefix String.length Nat.sub].
  unfold dash_for_slash at 1.
  destruct (ascii_dec "/" c) as [<- | Hne].
  - rewrite prefix_empty, IH. reflexivity.
  - destruct (Ascii.eqb_spec c "/") as [-> | _]; [contradiction |].
    rewrite IH. reflexivity.
Qed.

Lemma resolvedGroup_map (g : string) :
  resolvedGroup g = map_string dash_for_slash g.
Proof.
  unfold resolvedGroup, ReplaceAll. destruct g as [| c g]; [reflexivity |].
  cbn [String.length Nat.leb]. apply replace_slash.
Qed.

Lemma dash_for_slash_not_slash (c : ascii) : dash_for_slash c <> "/"%char.
Proof.
  unfold dash_for_slash. destruct (Ascii.eqb_spec c "/"); [discriminate | assumption].
Qed.

Lemma dash_for_slash_idem (c : ascii) :
  dash_for_slash (dash_for_slash c) = dash_for_slash c.
Proof.
  unfold dash_for_slash at 1.
  destruct (Ascii.eqb_spec (dash_for_slash c) "/") as [Heq | _]; [| reflexivity].
  exfalso. exact (dash_for_slash_not_slash c Heq).
Qed.

Lemma map_string_slash_free (g : string) : slash_free (map_string dash_for_slash g).
Proof.
  unfold slash_free. induction g as [| c g IH]; simpl; [tauto |].
  intros [Heq | Hin]; [| exact (IH Hin)].
  exact (dash_for_slash_not_slash c Heq).
Qed.

Lemma resolvedGroup_slash_free (g : string) : slash_free (resolvedGroup g).
Proof. rewrite resolvedGroup_map. apply map_string_slash_free. Qed.

Lemma resolvedGroup_idem (g : string) :
  resolvedGroup (resolvedGroup g) = resolvedGroup g.
Proof.
  rewrite !resolvedGroup_map. induction g as [| c g IH]; simpl; [reflexivity |].
  rewrite dash_for_slash_idem, IH. reflexivity.
Qed.

(** *** The calls of PublishConfig and GetRule *)

Lemma run_lift_outcome {E A} (env : Env E) (o : Outcome A) w :
  run env (lift_outcome o) w = (o, [], w).
Proof. reflexivity. Qed.

Lemma PublishConfig_groups (env : Env nacosE) n h key group value (w : World env) :
  omap group_passed (run env (PublishConfig n h key group value) w).1.2
  = match the_client n h with
    | Returned _ => [resolvedGroup group]
    | Panicked _ => []
    end.
Proof.
  unfold PublishConfig. rewrite run_bind, run_lift_outcome.
  destruct (the_client n h) as [c | v]; [| reflexivity].
  rewrite run_bind, run_call.
  destruct (answer env _ w) as [[ok [err |]] w1]; cbn [fst snd];
    [| destruct ok]; reflexivity.
Qed.

Lemma GetRule_groups (env : Env nacosE) n h key opts (w : World env) :
  omap group_passed (run env (GetRule n h key opts) w).1.2
  = match the_client n h with
    | Returned _ =>
        [resolvedGroup
           (opt_Group (foldl (fun o opt => opt o)
                         {| opt_Key := ""; opt_Group := "" |} opts))]
    | Panicked _ => []
    end.
Proof.
  unfold GetRule. rewrite run_bind, run_lift_outcome.
  destruct (the_client n h) as [c | v]; [| reflexivity].
  rewrite run_bind, run_call.
  destruct (answer env _ w) as [[content [err |]] w1]; reflexivity.
Qed.

(** C9.  [resolvedGroup] is idempotent; its result has no ['/']: it is the
    group with ['-'] for every ['/'], the empty group being itself.  The
    group that [PublishConfig] and [GetRule] hand to the nacos SDK, when
    they get to call it, is the resolved one and so has no ['/']. *)
Theorem resolvedGroup_idempotent_and_slash_free :
  (forall g, resolvedGroup (resolvedGroup g) = resolvedGroup g) /\
  (forall g, slash_free (resolvedGroup g)) /\
  (forall g, resolvedGroup g = map_string dash_for_slash g) /\
  resolvedGroup "" = "" /\
  (forall (env : Env nacosE) n h key group value (w : World env),
     Forall slash_free
       (omap group_passed (run env (PublishConfig n h key group value) w).1.2) /\
     (forall c, the_client n h = Returned c ->
        omap group_passed (run env (PublishConfig n h key group value) w).1.2
        = [resolvedGroup group])) /\
  (forall (env : Env nacosE) n h key opts (w : World env),
     Forall slash_free (omap group_passed (run env (GetRule n h key opts) w).1.2) /\
     (forall c, the_client n h = Returned c ->
        omap group_passed (run env (GetRule n h key opts) w).1.2
        = [resolvedGroup
             (opt_Group (foldl (fun o opt => opt o)
                           {| opt_Key := ""; opt_Group := "" |} opts))])).
Proof.
  split; [exact resolvedGroup_idem |]. split; [exact resolvedGroup_slash_free |].
  split; [exact resolvedGroup_map |]. split; [reflexivity |]. split.
  - intros env n h key group value w. rewrite PublishConfig_groups. split.
    + destruct (the_client n h); repeat constructor. apply resolvedGroup_slash_free.
    + intros c ->. reflexivity.
  - intros env n h key opts w. rewrite GetRule_groups. split.
    + destruct (the_client n h); repeat constructor. apply resolvedGroup_slash_free.
    + intros c ->. reflexivity.
Qed.

Example resolvedGroup_sample : resolvedGroup "a/b//c" = "a-b--c".
Proof. reflexivity. Qed.

Example ReplaceAll_leftmost : ReplaceAll "aaaa" "aa" "b" = "bb".
Proof. reflexivity. Qed.

(** *** stop and Close *)

(** [stop] returns from every state; it closes [exit] only when [exit] is
    open and [once] has not run, and it leaves [exit] closed whenever
    [once] had not run. *)
Lemma stop_returns (n : NacosClient) :
  exists b n',
    stop n = Returned (b, n') /\
    b = exit_closed n /\
    exit_closes n' =
      (if exit_closed n || once_done n then exit_closes n else S (exit_closes n)) /\
    exit_closed n' = exit_closed n || negb (once_done n) /\
    once_done n' = once_done n || negb (exit_closed n) /\
    client n' = client n /\ name n' = name n.
Proof.
  unfold stop, once_Do, onceClose.
  destruct n as [nm c [] [] k]; cbn; eexists _, _; repeat split; reflexivity.
Qed.

(** After the first [stop] of a fresh client every further [stop] finds
    [exit] closed. *)
Lemma stop_times_fresh (k : nat) (nm : string) (cc : IConfigClient) :
  exists n',
    stop_times k (newNacosClient nm cc) = Returned n' /\
    exit_closes n' = (if k is O then 0 else 1) /\
    exit_closed n' = (if k is O then false else true).
Proof.
  destruct k as [| k]; [eexists; repeat split; reflexivity |].
  cbn [stop_times]. unfold newNacosClient at 1. cbn.
  set (c := {| name := nm; client := Some cc; exit_closed := true;
               once_done := true; exit_closes := 1 |}).
  assert (Hc : forall j, stop_times j c = Returned c).
  { induction j as [| j IH]; [reflexivity |]. cbn [stop_times]. cbn. exact IH. }
  rewrite Hc. exists c. repeat split.
Qed.

(** *** Destroy next to the task *)

Lemma started_inv root cc : destroy_inv root cc (started root cc).
Proof. unfold destroy_inv, started. cbn. repeat split. Qed.

Lemma close_fresh (cc : IConfigClient) :
  Close (Some 0) {[ 0 := newNacosClient "nacos config" cc ]}
  = Returned {[ 0 := closed_client "nacos config" ]}.
Proof.
  unfold Close. rewrite lookup_singleton_eq. cbn.
  rewrite insert_singleton_eq. reflexivity.
Qed.

Lemma closeConfigs_fresh rp w d (cc : IConfigClient) :
  closeConfigs {| rootPath := rp; wg := w; done_closed := d; n_client := Some 0 |}
    {[ 0 := newNacosClient "nacos config" cc ]}
  = Returned ({| rootPath := rp; wg := w; done_closed := d; n_client := None |},
              {[ 0 := closed_client "nacos config" ]}).
Proof.
  unfold closeConfigs. cbn [n_client set_n_client rootPath wg done_closed].
  rewrite close_fresh. reflexivity.
Qed.

Local Opaque closeConfigs.

Lemma step_inv root cc t s s' :
  destroy_inv root cc s -> step t s = Some s' -> destroy_inv root cc s'.
Proof.
  unfold destroy_inv.
  destruct s as [[rp w d p] h c r]. cbn [conf heap pc task_running rootPath wg
                                        done_closed n_client].
  intros (Hrp & Hwg & Hpc) Hstep.
  destruct t; unfold step, step_main, step_task in Hstep;
    cbn [conf heap pc task_running rootPath wg done_closed n_client] in Hstep.
  - destruct c as [| | | |v].
    + destruct Hpc as (-> & -> & ->). injection Hstep as <-. cbn.
      repeat split; auto.
    + destruct Hpc as (-> & -> & ->).
      destruct (w =? 0)%Z eqn:Hw; [| discriminate].
      injection Hstep as <-. cbn. apply Z.eqb_eq in Hw.
      destruct r; [rewrite Hwg in Hw; discriminate |]. repeat split; auto.
    + destruct Hpc as (-> & -> & -> & ->).
      rewrite closeConfigs_fresh in Hstep. cbn in Hstep.
      injection Hstep as <-. cbn. repeat split; auto.
    + discriminate.
    + discriminate.
  - destruct r; [| discriminate]. injection Hstep as <-. cbn.
    split; [exact Hrp |]. split; [rewrite Hwg; reflexivity |].
    destruct c; try exact Hpc.
    + destruct Hpc as (_ & Hr & _). discriminate.
    + destruct Hpc as (_ & Hr & _). discriminate.
Qed.

Lemma reachable_inv root cc s :
  reachable (started root cc) s -> destroy_inv root cc s.
Proof.
  induction 1 as [| s t s' _ IH Hstep]; [apply started_inv |].
  exact (step_inv root cc t s s' IH Hstep).
Qed.

(** A schedule only reaches states that steps reach. *)
Lemma exec_reachable s0 sched s :
  reachable s0 s -> reachable s0 (exec sched s).
Proof.
  revert s. induction sched as [| t rest IH]; intros s Hs; [exact Hs |].
  cbn [exec]. apply IH. destruct (step t s) as [s' |] eqn:Hstep; cbn.
  - exact (reach_step s0 s t s' Hs Hstep).
  - exact Hs.
Qed.

(** Every step brings [Destroy] and the task closer to the end. *)
Lemma step_remaining t s s' :
  step t s = Some s' -> remaining s' < remaining s.
Proof.
  destruct s as [n h c r]. unfold remaining. destruct t; cbn.
  - destruct c; cbn.
    + destruct (done_closed n); intros [= <-]; cbn; lia.
    + destruct (wg n =? 0)%Z; intros [= <-]; cbn; lia.
    + destruct (closeConfigs n h) as [[n' h'] | v]; intros [= <-]; cbn; lia.
    + discriminate.
    + discriminate.
  - unfold step_task. cbn. destruct r; intros [= <-]; cbn; lia.
Qed.

(** A state in which [Destroy] has not returned can take a step. *)
Lemma inv_progress root cc s :
  destroy_inv root cc s -> pc s <> Done -> exists t s', step t s = Some s'.
Proof.
  unfold destroy_inv. destruct s as [[rp w d p] h c r]. cbn.
  intros (_ & Hwg & Hpc) Hnd. destruct c; cbn in *.
  - exists Main. cbn. destruct d; eauto.
  - destruct r.
    + exists Task. cbn. eauto.
    + exists Main. cbn. subst w. cbn. eauto.
  - exists Main. cbn. destruct (closeConfigs _ h) as [[n' h'] | v]; eauto.
  - contradiction.
  - contradiction.
Qed.

(** From every state of the invariant, [Destroy] and the task can run to
    the end. *)
Lemma inv_finishes root cc s :
  destroy_inv root cc s -> pc (exec [Main; Task; Main; Main] s) = Done.
Proof.
  unfold destroy_inv. destruct s as [[rp w d p] h c r]. cbn [conf heap pc task_running
    rootPath wg done_closed n_client].
  intros (_ & Hwg & Hpc). destruct c; try contradiction.
  - destruct Hpc as (-> & -> & ->). subst w.
    destruct r; do 4 (cbn; rewrite ?Z.sub_diag, ?Z.eqb_refl, ?closeConfigs_fresh);
      reflexivity.
  - destruct Hpc as (-> & -> & ->). subst w.
    destruct r; do 4 (cbn; rewrite ?Z.sub_diag, ?Z.eqb_refl, ?closeConfigs_fresh);
      reflexivity.
  - destruct Hpc as (-> & -> & -> & ->). subst w.
    do 4 (cbn; rewrite ?Z.sub_diag, ?Z.eqb_refl, ?closeConfigs_fresh); reflexivity.
  - destruct Hpc as (-> & -> & -> & ->). reflexivity.
Qed.

(** C7.  In every interleaving of one [Destroy] with the task that the
    configuration started: nothing panics; [done] is closed first; the
    client is closed only after the task has ended and the wait group's
    counter is zero; [exit] is closed at most once; when [Destroy] has
    returned, [IsAvailable] is false, the configuration holds no client and
    the client it held has [exit] closed, once, and no SDK client.
    [Destroy] is never stuck for good: a state in which it has not returned
    can take a step, every step brings the end nearer, and the end can be
    reached.  [stop] itself returns from every state and closes [exit] only
    if it was open and [once] had not run; any number of [stop]s of a fresh
    client closes [exit] once. *)
Theorem Destroy_joins_the_task_then_closes_the_client root cc s :
  reachable (started root cc) s ->
  (forall v, pc s <> Crashed v) /\
  (pc s <> AtCloseDone -> done_closed (conf s) = true) /\
  (pc s = AtCloseConfigs \/ pc s = Done ->
     task_running s = false /\ wg (conf s) = 0%Z /\ done_closed (conf s) = true) /\
  (forall c, heap s !! 0 = Some c -> exit_closed c = true ->
     pc s = Done /\ task_running s = false) /\
  (forall c, heap s !! 0 = Some c -> exit_closes c <= 1) /\
  (pc s = Done ->
     IsAvailable (conf s) = false /\ n_client (conf s) = None /\
     heap s !! 0 = Some (closed_client "nacos config")) /\
  (pc s <> Done -> exists t s', step t s = Some s') /\
  (forall t s', step t s = Some s' -> remaining s' < remaining s) /\
  pc (exec [Main; Task; Main; Main] s) = Done /\
  (forall n, exists b n',
     stop n = Returned (b, n') /\
     exit_closes n' =
       (if exit_closed n || once_done n then exit_closes n else S (exit_closes n))) /\
  (forall k nm cc', exists n',
     stop_times k (newNacosClient nm cc') = Returned n' /\ exit_closes n' <= 1).
Proof.
  intros Hr. pose proof (reachable_inv root cc s Hr) as Hinv.
  pose proof Hinv as (Hrp & Hwg & Hpc).
  destruct s as [[rp w d p] h c r].
  cbn [conf heap pc task_running rootPath wg done_closed n_client] in *.
  split; [intros v ->; exact Hpc |].
  split; [intros Hne; destruct c; try tauto; contradiction |].
  split.
  { intros [-> | ->]; destruct Hpc as (-> & -> & _); subst w; repeat split. }
  split.
  { intros k Hk Hc.
    destruct c; try contradiction.
    - destruct Hpc as (_ & _ & ->). rewrite lookup_singleton_eq in Hk.
      injection Hk as <-. discriminate.
    - destruct Hpc as (_ & _ & ->). rewrite lookup_singleton_eq in Hk.
      injection Hk as <-. discriminate.
    - destruct Hpc as (_ & _ & _ & ->). rewrite lookup_singleton_eq in Hk.
      injection Hk as <-. discriminate.
    - destruct Hpc as (_ & -> & _). split; reflexivity. }
  split.
  { intros k Hk.
    destruct c; try contradiction.
    - destruct Hpc as (_ & _ & ->). rewrite lookup_singleton_eq in Hk.
      injection Hk as <-. cbn. lia.
    - destruct Hpc as (_ & _ & ->). rewrite lookup_singleton_eq in Hk.
      injection Hk as <-. cbn. lia.
    - destruct Hpc as (_ & _ & _ & ->). rewrite lookup_singleton_eq in Hk.
      injection Hk as <-. cbn. lia.
    - destruct Hpc as (_ & _ & _ & ->). rewrite lookup_singleton_eq in Hk.
      injection Hk as <-. cbn. lia. }
  split.
  { intros ->. destruct Hpc as (-> & _ & -> & ->).
    rewrite lookup_singleton_eq. repeat split. }
  split; [exact (inv_progress root cc _ Hinv) |].
  split; [intros t s'; apply step_remaining |].
  split; [exact (inv_finishes root cc _ Hinv) |].
  split.
  { intros n. destruct (stop_returns n) as (b & n' & Hs & _ & Hk & _).
    exists b, n'. split; assumption. }
  intros k nm cc'. destruct (stop_times_fresh k nm cc') as (n' & Hs & Hk & _).
  exists n'. split; [exact Hs |]. rewrite Hk. destruct k; lia.
Qed.

(** One run of [Destroy] with the task, and what it leaves. *)
Lemma Destroy_joins_the_task_then_closes_the_client_witness :
  reachable (started "/micro/config" (IConfigClientRef 1))
    (exec [Main; Task; Main; Main] (started "/micro/config" (IConfigClientRef 1))) /\
  IsAvailable
    (conf (exec [Main; Task; Main; Main]
             (started "/micro/config" (IConfigClientRef 1)))) = false.
Proof.
  pose (Hr := exec_reachable _ [Main; Task; Main; Main] _
                (reach_start (started "/micro/config" (IConfigClientRef 1)))).
  split; [exact Hr |].
  refine (proj1 (proj1 (proj2 (proj2 (proj2 (proj2 (proj2
           (Destroy_joins_the_task_then_closes_the_client _ _ _ Hr)))))) _)).
  do 4 (cbn; rewrite ?Z.sub_diag, ?Z.eqb_refl, ?closeConfigs_fresh). reflexivity.
Defined.

(** A second [Destroy] panics on [close(n.done)]. *)
Example second_Destroy_panics n h t :
  done_closed n = true ->
  step_main {| conf := n; heap := h; pc := AtCloseDone; task_running := t |}
  = Some {| conf := n; heap := h; pc := Crashed close_of_closed_channel;
            task_running := t |}.
Proof. intros Hd. unfold step_main. cbn. rewrite Hd. reflexivity. Qed.

End nacosFacts.

(** ** nacos: results of the SDK calls, Close, and the client's set-up *)

Module nacosMore.
Import Go errors nacos GoFacts nacosFacts.

(** *** PublishConfig and GetRule: results *)

(** X1.  [PublishConfig] makes one SDK call, with the key, the resolved group
    and the value, and returns nil exactly when the SDK answers
    [(true, nil)]; an SDK error comes back wrapped by [WithStack], and
    [false] without an error becomes the error
    "publish config to Nocos failed". *)
Theorem PublishConfig_result (env : Env nacosE) n h c key group value (w : World env) :
  the_client n h = Returned c ->
  let call_ := sdk_PublishConfig c {| DataId := key; Group := resolvedGroup group;
                                      Content := value |} in
  run env (PublishConfig n h key group value) w
  = (Returned match (answer env call_ w).1 with
              | (_, Some err) => Some (WithStack err)
              | (false, None) => Some (New "publish config to Nocos failed")
              | (true, None) => None
              end,
     [Evt call_ (answer env call_ w).1], (answer env call_ w).2) /\
  ((run env (PublishConfig n h key group value) w).1.1 = Returned None <->
   (answer env call_ w).1 = (true, None)).
Proof.
  intros Hc call_. unfold PublishConfig. rewrite Hc.
  rewrite run_bind, run_lift_outcome, run_bind, run_call. fold call_.
  destruct (answer env call_ w) as [[[] [err |]] w1]; cbn [fst snd];
    (split; [reflexivity |]); split; intros [=]; reflexivity.
Qed.

Lemma PublishConfig_result_witness :
  the_client {| rootPath := "/micro/config"; wg := 1; done_closed := false;
                n_client := Some 0 |}
    {[ 0 := newNacosClient "nacos config" (IConfigClientRef 1) ]}
  = Returned (IConfigClientRef 1) /\
  (run sample.sdk
     (PublishConfig {| rootPath := "/micro/config"; wg := 1; done_closed := false;
                       n_client := Some 0 |}
        {[ 0 := newNacosClient "nacos config" (IConfigClientRef 1) ]}
        "app" "a/b" "v") tt).1.1 = Returned None.
Proof.
  assert (Hc : the_client {| rootPath := "/micro/config"; wg := 1;
                             done_closed := false; n_client := Some 0 |}
                 {[ 0 := newNacosClient "nacos config" (IConfigClientRef 1) ]}
               = Returned (IConfigClientRef 1)).
  { unfold the_client. cbn [n_client]. rewrite lookup_singleton_eq. reflexivity. }
  split; [exact Hc |].
  apply (proj2 (PublishConfig_result sample.sdk _ _ _ "app" "a/b" "v" tt Hc)).
  reflexivity.
Defined.

(** X2.  [GetRule] makes one SDK call, for the key and the resolved group that
    the options leave, the last option that sets the group deciding; it
    returns the content as the SDK gave it, or the empty text and the
    error wrapped by [WithStack].  [GetProperties] and
    [GetInternalProperty] are [GetRule]. *)
Theorem GetRule_result (env : Env nacosE) n h c key opts (w : World env) :
  the_client n h = Returned c ->
  let group := opt_Group (foldl (fun o opt => opt o)
                            {| opt_Key := ""; opt_Group := "" |} opts) in
  let call_ := sdk_GetConfig c {| DataId := key; Group := resolvedGroup group;
                                  Content := "" |} in
  run env (GetRule n h key opts) w
  = (Returned match (answer env call_ w).1 with
              | (_, Some err) => ("", Some (WithStack err))
              | (content, None) => (content, None)
              end,
     [Evt call_ (answer env call_ w).1], (answer env call_ w).2) /\
  (forall g opts',
     run env (GetRule n h key
                (opts' ++ [fun o => {| opt_Key := opt_Key o; opt_Group := g |}])) w
     = run env (GetRule n h key
                  [fun o => {| opt_Key := opt_Key o; opt_Group := g |}]) w) /\
  GetProperties n h key opts = GetRule n h key opts /\
  GetInternalProperty n h key opts = GetRule n h key opts.
Proof.
  intros Hc group call_. split; [| split; [| split; reflexivity]].
  - unfold GetRule. rewrite Hc. fold group.
    rewrite run_bind, run_lift_outcome, run_bind, run_call. fold call_.
    destruct (answer env call_ w) as [[content [err |]] w1]; reflexivity.
  - intros g opts'. unfold GetRule. rewrite foldl_app. reflexivity.
Qed.

Lemma GetRule_result_witness :
  the_client {| rootPath := "/micro/config"; wg := 1; done_closed := false;
                n_client := Some 0 |}
    {[ 0 := newNacosClient "nacos config" (IConfigClientRef 1) ]}
  = Returned (IConfigClientRef 1) /\
  (run sample.sdk
     (GetRule {| rootPath := "/micro/config"; wg := 1; done_closed := false;
                 n_client := Some 0 |}
        {[ 0 := newNacosClient "nacos config" (IConfigClientRef 1) ]}
        "app" [fun o => {| opt_Key := opt_Key o; opt_Group := "a/b" |}]) tt).1.1
  = Returned ("a-b", None).
Proof.
  assert (Hc : the_client {| rootPath := "/micro/config"; wg := 1;
                             done_closed := false; n_client := Some 0 |}
                 {[ 0 := newNacosClient "nacos config" (IConfigClientRef 1) ]}
               = Returned (IConfigClientRef 1)).
  { unfold the_client. cbn [n_client]. rewrite lookup_singleton_eq. reflexivity. }
  split; [exact Hc |].
  rewrite (proj1 (GetRule_result sample.sdk _ _ _ "app"
                    [fun o => {| opt_Key := opt_Key o; opt_Group := "a/b" |}] tt Hc)).
  reflexivity.
Defined.

(** *** After Destroy *)

(** X3.  Once [Destroy] has returned, the configuration holds no client:
    [PublishConfig] and [GetRule] then panic on the nil pointer, before any
    SDK call, and the client that was closed is not valid any more. *)
Theorem use_after_Destroy_panics root cc s :
  reachable (started root cc) s ->
  pc s = Done ->
  (forall (env : Env nacosE) key group value (w : World env),
     run env (PublishConfig (conf s) (heap s) key group value) w
     = (Panicked nil_dereference, [], w)) /\
  (forall (env : Env nacosE) key opts (w : World env),
     run env (GetRule (conf s) (heap s) key opts) w
     = (Panicked nil_dereference, [], w)) /\
  (forall c, heap s !! 0 = Some c -> NacosClientValid c = false).
Proof.
  intros Hr Hd.
  pose proof (reachable_inv root cc s Hr) as (_ & _ & Hpc). rewrite Hd in Hpc.
  destruct Hpc as (_ & _ & Hn & Hheap).
  assert (Hh : heap s !! 0 = Some (closed_client "nacos config"))
    by (rewrite Hheap; apply lookup_singleton_eq).
  assert (Hc : the_client (conf s) (heap s) = Panicked nil_dereference).
  { unfold the_client. rewrite Hn. reflexivity. }
  split; [| split].
  - intros env key group value w. unfold PublishConfig. rewrite Hc. reflexivity.
  - intros env key opts w. unfold GetRule. rewrite Hc. reflexivity.
  - intros c Hk. rewrite Hh in Hk. injection Hk as <-. reflexivity.
Qed.

Lemma use_after_Destroy_panics_witness :
  pc (exec [Main; Task; Main; Main] (started "/micro/config" (IConfigClientRef 1)))
  = Done /\
  run sample.sdk
    (PublishConfig
       (conf (exec [Main; Task; Main; Main]
                (started "/micro/config" (IConfigClientRef 1))))
       (heap (exec [Main; Task; Main; Main]
                (started "/micro/config" (IConfigClientRef 1))))
       "app" "group" "v") tt
  = (Panicked nil_dereference, [], tt).
Proof.
  assert (Hd : pc (exec [Main; Task; Main; Main]
                     (started "/micro/config" (IConfigClientRef 1))) = Done).
  { apply (inv_finishes "/micro/config" (IConfigClientRef 1)). apply started_inv. }
  split; [exact Hd |].
  exact (proj1 (use_after_Destroy_panics _ _ _
                  (exec_reachable _ [Main; Task; Main; Main] _
                     (reach_start (started "/micro/config" (IConfigClientRef 1))))
                  Hd) sample.sdk "app" "group" "v" tt).
Defined.

(** *** stop and Close *)

(** X4.  [Close] never panics when the pointer is nil or points to a client;
    a nil receiver changes nothing; after it the client has [exit] closed
    and no SDK client, so it is not valid; closing again changes nothing,
    and [stop] then reports that the client was stopped already. *)
Theorem Close_is_idempotent (h : Heap) :
  Close None h = Returned h /\
  (forall a n, h !! a = Some n ->
     exists n',
       Close (Some a) h = Returned (<[a := n']> h) /\
       exit_closed n' = exit_closed n || negb (once_done n) /\
       client n' = None /\
       exit_closes n' <= S (exit_closes n) /\
       (exit_closed n' = true -> NacosClientValid n' = false /\
          Close (Some a) (<[a := n']> h) = Returned (<[a := n']> h) /\
          exists n'', stop n' = Returned (true, n''))).
Proof.
  split; [reflexivity |].
  intros a n Ha.
  destruct (stop_returns n) as (b & n1 & Hs & Hb & Hk & He & Ho & Hc & Hn).
  exists (SetClient None n1). unfold Close. rewrite Ha, Hs. cbn [mbind Outcome_bind snd].
  split; [reflexivity |]. cbn [SetClient exit_closed client exit_closes].
  split; [exact He |]. split; [reflexivity |].
  split; [rewrite Hk; destruct (exit_closed n || once_done n); lia |].
  intros Hcl. split; [unfold NacosClientValid; cbn; rewrite Hcl; reflexivity |].
  split.
  - rewrite lookup_insert_eq. unfold stop at 1. cbn [SetClient exit_closed].
    rewrite Hcl. cbn. rewrite insert_insert_eq. destruct n1; reflexivity.
  - unfold stop. cbn [SetClient exit_closed]. rewrite Hcl. eauto.
Qed.

Lemma Close_is_idempotent_witness :
  ({[ 0 := newNacosClient "nacos config" (IConfigClientRef 1) ]} : Heap) !! 0
  = Some (newNacosClient "nacos config" (IConfigClientRef 1)) /\
  exists n', Close (Some 0) {[ 0 := newNacosClient "nacos config" (IConfigClientRef 1) ]}
             = Returned (<[0 := n']>
                           {[ 0 := newNacosClient "nacos config" (IConfigClientRef 1) ]})
             /\ client n' = None.
Proof.
  assert (Hl : ({[ 0 := newNacosClient "nacos config" (IConfigClientRef 1) ]} : Heap)
                 !! 0 = Some (newNacosClient "nacos config" (IConfigClientRef 1)))
    by apply lookup_singleton_eq.
  split; [exact Hl |].
  destruct (proj2 (Close_is_idempotent _) 0 _ Hl) as (n' & Hc & _ & Hn & _).
  exists n'. split; assumption.
Defined.

(** *** The timeout handed to the SDK *)

Section Timeout.
Local Open Scope Z_scope.

(** [int32(q)] by the low 32 bits of [q]. *)
Lemma to_int32_low (q : Z) :
  to_int32 q = if q mod 2 ^ 32 <? 2 ^ 31 then q mod 2 ^ 32 else q mod 2 ^ 32 - 2 ^ 32.
Proof.
  unfold to_int32.
  pose proof (Z.mod_pos_bound q (2 ^ 32) ltac:(lia)) as Hr.
  pose proof (Z.div_mod q (2 ^ 32) ltac:(lia)) as Hq.
  destruct (Z.ltb_spec (q mod 2 ^ 32) (2 ^ 31)) as [Hlt | Hge].
  - rewrite <- (Z.mod_unique (q + 2 ^ 31) (2 ^ 32) (q / 2 ^ 32) (q mod 2 ^ 32 + 2 ^ 31));
      lia.
  - rewrite <- (Z.mod_unique (q + 2 ^ 31) (2 ^ 32) (q / 2 ^ 32 + 1)
                  (q mod 2 ^ 32 - 2 ^ 31)); lia.
Qed.

Lemma TimeoutMs_low (timeout : Z) :
  let q := timeout ÷ Millisecond in
  TimeoutMs timeout
  = if q mod 2 ^ 32 <? 2 ^ 31 then q mod 2 ^ 32 else 2 ^ 64 - 2 ^ 32 + q mod 2 ^ 32.
Proof.
  intros q. unfold TimeoutMs. fold q. rewrite to_int32_low. unfold to_uint64.
  pose proof (Z.mod_pos_bound q (2 ^ 32) ltac:(lia)) as Hr.
  destruct (Z.ltb_spec (q mod 2 ^ 32) (2 ^ 31)) as [Hlt | Hge].
  - apply Z.mod_small. lia.
  - symmetry. apply (Z.mod_unique _ _ (-1)); lia.
Qed.

Lemma quot_bounds (timeout a b : Z) :
  a <= 0 <= b ->
  (a <= timeout ÷ Millisecond <= b <->
   a * Millisecond - Millisecond < timeout < b * Millisecond + Millisecond).
Proof.
  intros Hab. unfold Millisecond.
  pose proof (Z.quot_rem' timeout 1000000) as Hq.
  destruct (Z.le_gt_cases 0 timeout) as [Hpos | Hneg].
  - pose proof (Z.rem_bound_pos timeout 1000000 Hpos ltac:(lia)). lia.
  - pose proof (Z.rem_bound_pos_neg timeout 1000000 ltac:(lia) ltac:(lia)). lia.
Qed.

(** X5.  For a timeout that is a [time.Duration] (an [int64]),
    [TimeoutMs] is [r] or [2^64 - 2^32 + r], where [r] is the low 32 bits
    of the timeout in whole milliseconds, according to whether [r] is
    below [2^31].  It equals the timeout in whole milliseconds exactly
    when the timeout is above minus one millisecond and below [2^31]
    milliseconds (about 24.8 days); it is always below [2^31] or at least
    [2^64 - 2^31].  From [2^31] up to [2^32] milliseconds, and for a
    negative timeout of one millisecond up to [2^31] milliseconds, the
    [int32] is negative and the value is above [2^63]; adding [2^32]
    milliseconds to a timeout that is not negative changes nothing. *)
Theorem TimeoutMs_range (timeout : Z) :
  - 2 ^ 63 <= timeout < 2 ^ 63 ->
  let q := timeout ÷ Millisecond in
  TimeoutMs timeout
  = (if q mod 2 ^ 32 <? 2 ^ 31 then q mod 2 ^ 32 else 2 ^ 64 - 2 ^ 32 + q mod 2 ^ 32) /\
  (TimeoutMs timeout = q <-> - Millisecond < timeout < 2 ^ 31 * Millisecond) /\
  (0 <= TimeoutMs timeout < 2 ^ 31 \/ 2 ^ 64 - 2 ^ 31 <= TimeoutMs timeout < 2 ^ 64) /\
  (2 ^ 31 * Millisecond <= timeout < 2 ^ 32 * Millisecond ->
   TimeoutMs timeout = 2 ^ 64 - 2 ^ 32 + q /\ 2 ^ 63 < TimeoutMs timeout) /\
  (- 2 ^ 31 * Millisecond - Millisecond < timeout <= - Millisecond ->
   TimeoutMs timeout = 2 ^ 64 + q /\ 2 ^ 63 < TimeoutMs timeout) /\
  (0 <= timeout ->
   TimeoutMs (timeout + 2 ^ 32 * Millisecond) = TimeoutMs timeout).
Proof.
  intros Hrange q.
  pose proof (TimeoutMs_low timeout) as Hlow. cbv zeta in Hlow. fold q in Hlow.
  pose proof (Z.mod_pos_bound q (2 ^ 32) ltac:(lia)) as Hr.
  pose proof (Z.div_mod q (2 ^ 32) ltac:(lia)) as Hdm.
  assert (Hq : - 2 ^ 44 <= q <= 2 ^ 44).
  { apply (quot_bounds timeout (- 2 ^ 44) (2 ^ 44)); unfold Millisecond; lia. }
  split; [exact Hlow |].
  split; [| split; [| split; [| split]]].
  - rewrite Hlow. split.
    + intros Heq.
      destruct (Z.ltb_spec (q mod 2 ^ 32) (2 ^ 31)) as [Hlt | Hge]; [| lia].
      assert (Hb : 0 <= q <= 2 ^ 31 - 1) by lia.
      apply (quot_bounds timeout 0 (2 ^ 31 - 1)) in Hb; unfold Millisecond in *; lia.
    + intros Hb.
      assert (Hb' : 0 <= q <= 2 ^ 31 - 1).
      { apply (quot_bounds timeout 0 (2 ^ 31 - 1)); unfold Millisecond in *; lia. }
      rewrite (Z.mod_small q) by lia.
      destruct (Z.ltb_spec q (2 ^ 31)); lia.
  - rewrite Hlow. destruct (Z.ltb_spec (q mod 2 ^ 32) (2 ^ 31)); lia.
  - intros Hb.
    assert (Hb' : 2 ^ 31 <= q <= 2 ^ 32 - 1).
    { unfold q, Millisecond in *. rewrite Z.quot_div_nonneg by lia.
      split; [apply Z.div_le_lower_bound; lia |].
      assert (timeout / 1000000 < 2 ^ 32) by (apply Z.div_lt_upper_bound; lia). lia. }
    rewrite Hlow. rewrite (Z.mod_small q) by lia.
    destruct (Z.ltb_spec q (2 ^ 31)); lia.
  - intros Hb.
    assert (Hb' : - 2 ^ 31 <= q <= -1).
    { assert (Hc : - 2 ^ 31 <= q <= 0).
      { apply (quot_bounds timeout (- 2 ^ 31) 0); unfold Millisecond in *; lia. }
      assert (q <> 0); [| lia].
      intros H0. unfold q in H0. apply Z.quot_small_iff in H0; unfold Millisecond in *; lia. }
    assert (Hm : q mod 2 ^ 32 = q + 2 ^ 32).
    { symmetry. apply (Z.mod_unique _ _ (-1)); lia. }
    rewrite Hlow, Hm. destruct (Z.ltb_spec (q + 2 ^ 32) (2 ^ 31)); lia.
  - intros Hpos.
    assert (Hs : (timeout + 2 ^ 32 * Millisecond) ÷ Millisecond = q + 2 ^ 32).
    { unfold q, Millisecond. rewrite !Z.quot_div_nonneg by lia.
      apply Z.div_add. lia. }
    rewrite (TimeoutMs_low (timeout + 2 ^ 32 * Millisecond)), Hlow. cbv zeta.
    rewrite Hs.
    replace ((q + 2 ^ 32) mod 2 ^ 32) with (q mod 2 ^ 32); [reflexivity |].
    rewrite <- (Z.mul_1_l (2 ^ 32)) at 2. rewrite Z.mod_add by lia. reflexivity.
Qed.

Lemma TimeoutMs_range_witness :
  (- 2 ^ 63 <= - 5000000 < 2 ^ 63) /\
  (- 2 ^ 31 * Millisecond - Millisecond < - 5000000 <= - Millisecond) /\
  TimeoutMs (- 5000000) = 2 ^ 64 - 5 /\
  TimeoutMs (5000000 + 2 ^ 32 * Millisecond) = 5.
Proof.
  assert (H : - 2 ^ 63 <= - 5000000 < 2 ^ 63) by lia.
  assert (H' : - 2 ^ 31 * Millisecond - Millisecond < - 5000000 <= - Millisecond)
    by (unfold Millisecond; lia).
  split; [exact H |]. split; [exact H' |]. split.
  - exact (proj1 (proj1 (proj2 (proj2 (proj2 (proj2 (TimeoutMs_range (- 5000000) H)))))
                    H')).
  - assert (H5 : - 2 ^ 63 <= 5000000 < 2 ^ 63) by lia.
    rewrite (proj2 (proj2 (proj2 (proj2 (proj2 (TimeoutMs_range 5000000 H5)))))
               ltac:(lia)).
    reflexivity.
Defined.

End Timeout.

(** *** The address loop of initNacosConfigClient *)

Lemma Split_nonempty s sep : Split s sep <> [].
Proof.
  destruct s as [| a s]; cbn; [discriminate |].
  destruct (Ascii.eqb a sep); [discriminate |].
  destruct (Split s sep); discriminate.
Qed.

(** There is a second field exactly when the separator occurs. *)
Lemma Split_second s :
  Split s ":" !! 1 = None <-> has_colon s = false.
Proof.
  unfold has_colon. induction s as [| a s IH];
    cbn [Split existsb list_ascii_of_string]; [cbn; tauto |].
  rewrite (Ascii.eqb_sym ":" a).
  pose proof (Split_nonempty s ":") as Hne.
  destruct (Ascii.eqb a ":"); cbn [orb].
  - destruct (Split s ":"); [contradiction |]. cbn. split; discriminate.
  - destruct (Split s ":") as [| hd tl]; [contradiction |]. exact IH.
Qed.

(** The first field holds no separator. *)
Lemma Split_first s :
  has_colon (default EmptyString (Split s ":" !! 0)) = false.
Proof.
  unfold has_colon. induction s as [| a s IH];
    cbn [Split existsb list_ascii_of_string]; [reflexivity |].
  pose proof (Split_nonempty s ":") as Hne.
  destruct (Ascii.eqb a ":") eqn:Ha; [reflexivity |].
  destruct (Split s ":") as [| hd tl]; [contradiction |].
  cbn [lookup list_lookup default option_map from_option id] in *.
  cbn [existsb list_ascii_of_string]. rewrite (Ascii.eqb_sym ":" a), Ha. exact IH.
Qed.

Lemma Split_none p : has_colon p = false -> Split p ":" = [p].
Proof.
  unfold has_colon. induction p as [| b p IH];
    cbn [Split existsb list_ascii_of_string]; [reflexivity |].
  rewrite (Ascii.eqb_sym ":" b). destruct (Ascii.eqb b ":"); [discriminate |].
  cbn [orb]. intros Hp. rewrite (IH Hp). reflexivity.
Qed.

Lemma Split_host_port host port :
  has_colon host = false -> has_colon port = false ->
  Split (host +:+ ":" +:+ port) ":" = [host; port].
Proof.
  intros Hh Hp. unfold has_colon in Hh. induction host as [| a host IH].
  - change ("" +:+ ":" +:+ port) with (String ":" port).
    cbn [Split]. rewrite Ascii.eqb_refl, (Split_none port Hp). reflexivity.
  - change (String a host +:+ ":" +:+ port) with (String a (host +:+ ":" +:+ port)).
    cbn [Split existsb list_ascii_of_string] in *.
    rewrite (Ascii.eqb_sym ":" a) in Hh. destruct (Ascii.eqb a ":"); [discriminate |].
    cbn [orb] in Hh. rewrite (IH Hh). reflexivity.
Qed.

Lemma parse_digits_range n s v :
  (0 <= n <= 2 ^ 64 - 1)%Z -> parse_digits n s = Some v -> (0 <= v <= 2 ^ 64 - 1)%Z.
Proof.
  revert n. induction s as [| c s IH]; intros n Hn; cbn.
  - intros [= <-]. exact Hn.
  - unfold digit.
    destruct ((48 <=? Z.of_nat (nat_of_ascii c)) && (Z.of_nat (nat_of_ascii c) <=? 57))%Z
      eqn:Hd; [| discriminate].
    apply andb_prop in Hd as [H1 H2]. apply Z.leb_le in H1, H2.
    destruct (n * 10 + (Z.of_nat (nat_of_ascii c) - 48) <=? 2 ^ 64 - 1)%Z eqn:Hle;
      [| discriminate].
    apply Z.leb_le in Hle. apply IH. lia.
Qed.

Lemma ParseUint_range s v : ParseUint s = Some v -> (0 <= v < 2 ^ 64)%Z.
Proof.
  destruct s as [| c s]; [discriminate |]. unfold ParseUint. intros Hp.
  apply parse_digits_range in Hp; lia.
Qed.

Lemma server_configs_spec (env : Env initE) addrs acc (w : World env) :
  match (run env (server_configs addrs acc) w).1.1 with
  | Panicked v => v = index_out_of_range /\ forallb has_colon addrs = false
  | Returned l =>
      forallb has_colon addrs = true /\
      exists l', l = acc ++ l' /\ length l' <= length addrs /\ Forall well_formed l'
  end.
Proof.
  revert acc w. induction addrs as [| a addrs IH]; intros acc w.
  - cbn. split; [reflexivity |]. exists []. rewrite app_nil_r. repeat constructor.
  - cbn [server_configs forallb].
    destruct (Split a ":" !! 1) as [p |] eqn:Hp.
    + assert (Hc : has_colon a = true).
      { destruct (has_colon a) eqn:Hc; [reflexivity |].
        apply Split_second in Hc. congruence. }
      rewrite Hc. cbn [andb].
      destruct (ParseUint p) as [port |] eqn:Hport.
      * specialize (IH (acc ++ [{| IpAddr := default EmptyString (Split a ":" !! 0);
                                  Port := port |}]) w).
        destruct (run env (server_configs addrs _) w) as [[[l | v] tr] w'];
          cbn [fst snd] in *; [| exact IH].
        destruct IH as (Hall & l' & -> & Hlen & Hwf). split; [exact Hall |].
        exists ({| IpAddr := default EmptyString (Split a ":" !! 0); Port := port |}
                  :: l').
        rewrite <- app_assoc. split; [reflexivity |].
        split; [cbn [length]; lia |]. constructor; [| exact Hwf].
        split; [apply Split_first | exact (ParseUint_range _ _ Hport)].
      * rewrite run_bind, run_call. cbn [fst snd].
        specialize (IH acc (answer env (logger_Errorf p) w).2).
        destruct (run env (server_configs addrs acc) _) as [[[l | v] tr] w'];
          cbn [fst snd] in *; [| exact IH].
        destruct IH as (Hall & l' & -> & Hlen & Hwf). split; [exact Hall |].
        exists l'. split; [reflexivity |]. split; [cbn [length]; lia | exact Hwf].
    + apply Split_second in Hp. rewrite Hp. cbn. split; reflexivity.
Qed.

(** X6.  The address loop panics, with an index out of range, exactly when
    some address holds no colon; otherwise it returns at most one entry per
    address, each with a host that holds no colon and a port below [2^64],
    and an address whose port is not such a number is passed over. *)
Theorem server_configs_panics_on_missing_colon (env : Env initE) addrs (w : World env) :
  ((exists v, (run env (server_configs addrs []) w).1.1 = Panicked v) <->
   forallb has_colon addrs = false) /\
  (forall v, (run env (server_configs addrs []) w).1.1 = Panicked v ->
     v = index_out_of_range) /\
  (forall l, (run env (server_configs addrs []) w).1.1 = Returned l ->
     length l <= length addrs /\ Forall well_formed l) /\
  (forall host port rest,
     has_colon host = false -> ParseUint port = None -> has_colon port = false ->
     run env (server_configs ((host +:+ ":" +:+ port) :: rest) []) w
     = let '(r, tr, w') :=
         run env (server_configs rest []) (answer env (logger_Errorf port) w).2 in
       (r, Evt (logger_Errorf port) (answer env (logger_Errorf port) w).1 :: tr, w')).
Proof.
  pose proof (server_configs_spec env addrs [] w) as Hs.
  split; [| split; [| split]].
  - destruct (run env (server_configs addrs []) w).1.1 as [l | v].
    + destruct Hs as [Hall _]. rewrite Hall. split; [intros [v [=]] | discriminate].
    + destruct Hs as [_ Hall]. split; [intros _; exact Hall | eauto].
  - intros v Hv. rewrite Hv in Hs. apply Hs.
  - intros l Hl. rewrite Hl in Hs. destruct Hs as (_ & l' & -> & Hlen & Hwf).
    split; assumption.
  - intros host port rest Hh Hp Hpc. cbn [server_configs].
    assert (Hsplit : Split (host +:+ ":" +:+ port) ":" = [host; port])
      by (apply Split_host_port; assumption).
    rewrite Hsplit. cbn [lookup list_lookup]. rewrite Hp.
    rewrite run_bind, run_call. cbn [fst snd].
    destruct (run env (server_configs rest []) _) as [[[l | v] tr] w']; reflexivity.
Qed.

Lemma server_configs_panics_on_missing_colon_witness :
  has_colon "[" = false /\ ParseUint "" = None /\ has_colon "" = false /\
  run sample.logging
    (server_configs (("[" +:+ ":" +:+ "") :: ["127.0.0.1:8848"]) []) tt
  = (Returned [{| IpAddr := "127.0.0.1"; Port := 8848 |}],
     [Evt (logger_Errorf "") tt], tt).
Proof.
  split; [reflexivity |]. split; [reflexivity |]. split; [reflexivity |].
  rewrite (proj2 (proj2 (proj2 (server_configs_panics_on_missing_colon
             sample.logging [] tt))) "[" "" ["127.0.0.1:8848"]
             eq_refl eq_refl eq_refl).
  reflexivity.
Defined.

(** An address in brackets loses its port; one without a colon panics. *)
Example server_configs_ipv6 :
  (run sample.logging (server_configs ["[::1]:8848"; "localhost"] []) tt).1.1
  = Panicked index_out_of_range.
Proof. reflexivity. Qed.

End nacosMore.

(** ** jaeger: the span of a wrapper *)

Module jaegerMore.
Import Go errors opentracing jaeger GoFacts jaegerFacts.

Section MoreTracing.
Context `{External}.

(** What [StartSpanFromContext] leaves in a trace: one span started, none
    finished, no tag and no call of a wrapped function. *)
Lemma StartSpanFromContext_marks (env : Env traceE) ctx tracer name opts
    (w : World env) :
  exists r sp,
    (run env (StartSpanFromContext ctx tracer name opts) w).1.1 = Returned r /\
    omap milestone (run env (StartSpanFromContext ctx tracer name opts) w).1.2
    = [Started sp] /\
    omap kind_or_call (run env (StartSpanFromContext ctx tracer name opts) w).1.2 = [] /\
    omap inject_error (run env (StartSpanFromContext ctx tracer name opts) w).1.2
    = [match r with inr e => Some e | inl _ => None end] /\
    match r with inl (_, sp') => sp' = sp | inr _ => True end.
Proof.
  destruct (run_StartSpanFromContext env ctx tracer name opts w)
    as (popts & trp & sp & nmd & err & w' & -> & Hp).
  eexists _, sp. split; [reflexivity |]. cbn [fst snd].
  destruct (SpanFromContext ctx) as [parent |].
  - destruct Hp as [-> _]. destruct err; repeat split; reflexivity.
  - destruct Hp as (x & -> & _). destruct err; repeat split; reflexivity.
Qed.

Lemma resolve_silent (env : Env traceE) ot (w : World env) :
  omap milestone (resolve env ot w).1.2 = [] /\
  omap kind_or_call (resolve env ot w).1.2 = [] /\
  omap inject_error (resolve env ot w).1.2 = [].
Proof. destruct ot; repeat split; reflexivity. Qed.

Lemma nothing_silent :
  omap milestone [] = [] /\ omap kind_or_call [] = [] /\ omap inject_error [] = [].
Proof. repeat split; reflexivity. Qed.

Ltac rewrite_omaps :=
  repeat match goal with
         | H : omap _ _ = _ |- _ => try rewrite H; clear H
         end.

Ltac finish_shape :=
  rewrite ?app_nil_l, ?omap_app; rewrite_omaps;
  first
    [ reflexivity
    | eexists;
      (split;
       [ reflexivity
       | first [ intros Hx; cbn in Hx; discriminate Hx
               | intros _; rewrite ?app_comm_cons, !app_assoc; apply last_snoc ] ]) ].

Ltac shape Hk Hq :=
  unfold one_span, tag_then_call, inject_failure in *; cbn [fst snd] in *;
  destruct Hq as (? & ? & ?);
  match type of Hk with
  | context [run ?env (StartSpanFromContext ?ctx ?t ?name []) ?wt] =>
      let r0 := fresh "r" in
      let sp0 := fresh "sp" in
      let Hr0 := fresh "Hr" in
      let Hs0 := fresh "Hs" in
      destruct (StartSpanFromContext_marks env ctx t name [] wt)
        as (r0 & sp0 & Hr0 & ? & ? & ? & Hs0);
      destruct (run env (StartSpanFromContext ctx t name []) wt) as [[? ?] ?];
      cbn [fst snd] in *; subst; destruct r0 as [[? ?] | ?]; try subst sp0
  end;
  [ let w' := fresh "w" in
    destruct Hk as (w' & ->); rewrite run_invoke;
    match goal with
    | |- context [(answer ?env ?ev ?w1).1] =>
        destruct (answer env ev w1) as [[[] | ?] ?]
    end;
    cbn [fst snd];
    try match goal with
        | |- context [failure_marks _ ?err] => is_var err; destruct err
        end;
    finish_shape
  | rewrite Hk; cbn [fst snd]; finish_shape ].

Lemma handler_shape (env : Env traceE) ot ctx req rsp (w : World env) :
  one_span (HandlerArgs req rsp)
       (run env (NewHandlerWrapper ot opaque_handler ctx req rsp) w).1.2 /\
  tag_then_call (Some "server") (HandlerArgs req rsp)
    (run env (NewHandlerWrapper ot opaque_handler ctx req rsp) w).1.2.
Proof.
  pose proof (run_NewHandlerWrapper env ot opaque_handler ctx req rsp w) as Hk.
  pose proof (resolve_silent env ot w) as Hq.
  cbv zeta in Hk. destruct (resolve env ot w) as [[t trg] wt].
  unfold opaque_handler in *.
  split; shape Hk Hq.
Qed.

Lemma subscriber_shape (env : Env traceE) ot ctx msg (w : World env) :
  one_span (SubscriberArgs msg)
       (run env (NewSubscriberWrapper ot opaque_subscriber ctx msg) w).1.2 /\
  tag_then_call (Some "consumer") (SubscriberArgs msg)
    (run env (NewSubscriberWrapper ot opaque_subscriber ctx msg) w).1.2.
Proof.
  pose proof (run_NewSubscriberWrapper env ot opaque_subscriber ctx msg w) as Hk.
  pose proof (resolve_silent env ot w) as Hq.
  cbv zeta in Hk. destruct (resolve env ot w) as [[t trg] wt].
  unfold opaque_subscriber in *.
  split; shape Hk Hq.
Qed.

Lemma call_wrapper_shape (env : Env traceE) ot ctx addr req rsp opts (w : World env) :
  one_span (CallFuncArgs addr req rsp opts)
       (run env (NewCallWrapper ot opaque_call ctx addr req rsp opts) w).1.2 /\
  tag_then_call (Some "client") (CallFuncArgs addr req rsp opts)
    (run env (NewCallWrapper ot opaque_call ctx addr req rsp opts) w).1.2.
Proof.
  pose proof (run_NewCallWrapper env ot opaque_call ctx addr req rsp opts w) as Hk.
  pose proof (resolve_silent env ot w) as Hq.
  cbv zeta in Hk. destruct (resolve env ot w) as [[t trg] wt].
  unfold opaque_call in *.
  split; shape Hk Hq.
Qed.

Lemma Call_shape (env : Env traceE) t ctx req rsp opts (w : World env) :
  one_span (ClientCall req rsp opts)
       (run env (otWrapper_Call (opaque_otWrapper t) ctx req rsp opts) w).1.2 /\
  tag_then_call None (ClientCall req rsp opts)
    (run env (otWrapper_Call (opaque_otWrapper t) ctx req rsp opts) w).1.2.
Proof.
  pose proof (run_otWrapper_Call env (opaque_otWrapper t) ctx req rsp opts w) as Hk.
  pose proof nothing_silent as Hq.
  cbv zeta in Hk. cbn [ot Client opaque_otWrapper opaque_client client.Call] in Hk.
  split; shape Hk Hq.
Qed.

Lemma Stream_shape (env : Env traceE) t ctx req opts (w : World env) :
  one_span (ClientStream req opts)
       (run env (otWrapper_Stream (opaque_otWrapper t) ctx req opts) w).1.2 /\
  tag_then_call None (ClientStream req opts)
    (run env (otWrapper_Stream (opaque_otWrapper t) ctx req opts) w).1.2.
Proof.
  pose proof (run_otWrapper_Stream env (opaque_otWrapper t) ctx req opts w) as Hk.
  pose proof nothing_silent as Hq.
  cbv zeta in Hk. cbn [ot Client opaque_otWrapper opaque_client client.Stream] in Hk.
  split; shape Hk Hq.
Qed.

Lemma Publish_shape (env : Env traceE) t ctx p opts (w : World env) :
  one_span (ClientPublish p opts)
       (run env (otWrapper_Publish (opaque_otWrapper t) ctx p opts) w).1.2 /\
  tag_then_call (Some "producer") (ClientPublish p opts)
    (run env (otWrapper_Publish (opaque_otWrapper t) ctx p opts) w).1.2.
Proof.
  pose proof (run_otWrapper_Publish env (opaque_otWrapper t) ctx p opts w) as Hk.
  pose proof nothing_silent as Hq.
  cbv zeta in Hk. cbn [ot Client opaque_otWrapper opaque_client client.Publish] in Hk.
  split; shape Hk Hq.
Qed.

(** X7.  Every tracing wrapper starts exactly one span per call.  When
    [Inject] succeeds the wrapper then calls the wrapped function once,
    and after that, whether the function returned nil, returned an error
    or panicked, it finishes that same span, once, as the last thing it
    does.  When [Inject] fails the span that was started is never
    finished, and the wrapped function is not called. *)
Theorem span_is_finished_once_unless_Inject_fails (env : Env traceE) :
  (forall t ctx req rsp opts (w : World env),
     one_span (ClientCall req rsp opts)
       (run env (otWrapper_Call (opaque_otWrapper t) ctx req rsp opts) w).1.2) /\
  (forall t ctx req opts (w : World env),
     one_span (ClientStream req opts)
       (run env (otWrapper_Stream (opaque_otWrapper t) ctx req opts) w).1.2) /\
  (forall t ctx p opts (w : World env),
     one_span (ClientPublish p opts)
       (run env (otWrapper_Publish (opaque_otWrapper t) ctx p opts) w).1.2) /\
  (forall ot ctx addr req rsp opts (w : World env),
     one_span (CallFuncArgs addr req rsp opts)
       (run env (NewCallWrapper ot opaque_call ctx addr req rsp opts) w).1.2) /\
  (forall ot ctx req rsp (w : World env),
     one_span (HandlerArgs req rsp)
       (run env (NewHandlerWrapper ot opaque_handler ctx req rsp) w).1.2) /\
  (forall ot ctx msg (w : World env),
     one_span (SubscriberArgs msg)
       (run env (NewSubscriberWrapper ot opaque_subscriber ctx msg) w).1.2).
Proof.
  repeat split; intros.
  - apply Call_shape.
  - apply Stream_shape.
  - apply Publish_shape.
  - apply call_wrapper_shape.
  - apply handler_shape.
  - apply subscriber_shape.
Qed.

(** X8.  The span kind each wrapper sets, and when.  The handler wrapper
    tags its span [server], the subscriber wrapper [consumer], the call
    wrapper [client] and the client wrapper's [Publish] [producer], each
    before it calls the wrapped function; the client wrapper's [Call] and
    [Stream] set no span kind.  When [Inject] fails there is neither tag nor
    call. *)
Theorem span_kind_is_set_before_the_call (env : Env traceE) :
  (forall ot ctx req rsp (w : World env),
     tag_then_call (Some "server") (HandlerArgs req rsp)
       (run env (NewHandlerWrapper ot opaque_handler ctx req rsp) w).1.2) /\
  (forall ot ctx msg (w : World env),
     tag_then_call (Some "consumer") (SubscriberArgs msg)
       (run env (NewSubscriberWrapper ot opaque_subscriber ctx msg) w).1.2) /\
  (forall ot ctx addr req rsp opts (w : World env),
     tag_then_call (Some "client") (CallFuncArgs addr req rsp opts)
       (run env (NewCallWrapper ot opaque_call ctx addr req rsp opts) w).1.2) /\
  (forall t ctx p opts (w : World env),
     tag_then_call (Some "producer") (ClientPublish p opts)
       (run env (otWrapper_Publish (opaque_otWrapper t) ctx p opts) w).1.2) /\
  (forall t ctx req rsp opts (w : World env),
     tag_then_call None (ClientCall req rsp opts)
       (run env (otWrapper_Call (opaque_otWrapper t) ctx req rsp opts) w).1.2) /\
  (forall t ctx req opts (w : World env),
     tag_then_call None (ClientStream req opts)
       (run env (otWrapper_Stream (opaque_otWrapper t) ctx req opts) w).1.2).
Proof.
  repeat split; intros.
  - apply handler_shape.
  - apply subscriber_shape.
  - apply call_wrapper_shape.
  - apply Publish_shape.
  - apply Call_shape.
  - apply Stream_shape.
Qed.

(** X9.  The client wrapper's [Stream] and [Publish], the call wrapper and
    the subscriber wrapper hand back what the function they wrap returned:
    [Stream] both the stream and the error, the others the error.  A
    non-nil error is recorded on the span first; a panic of the wrapped
    function passes through, after the deferred [Finish]. *)
Theorem tracing_wrappers_pass_the_result_on (env : Env traceE) :
  (forall o ctx req opts (w : World env),
     match run env (StartSpanFromContext ctx (ot o)
                      (client.Service req +:+ "." +:+ client.Endpoint req) []) w with
     | (Returned (inl (ctx', span)), tr0, w0) =>
         (run env (otWrapper_Stream o ctx req opts) w).1
         = match run env (client.Stream (Client o) ctx' req opts) w0 with
           | (Returned (stream, err), tr1, _) =>
               (Returned (stream, err),
                tr0 ++ tr1 ++ failure_marks span err ++ [Evt (Finish span) tt])
           | (Panicked v, tr1, _) =>
               (Panicked v, tr0 ++ tr1 ++ [Evt (Finish span) tt])
           end
     | _ => True
     end) /\
  (forall o ctx p opts (w : World env),
     match run env (StartSpanFromContext ctx (ot o)
                      ("Pub to " +:+ client.Topic p) []) w with
     | (Returned (inl (ctx', span)), tr0, w0) =>
         (run env (otWrapper_Publish o ctx p opts) w).1
         = match run env (client.Publish (Client o) ctx' p opts)
                   (answer env (SetTag span "span.kind" (TagString "producer")) w0).2 with
           | (Returned err, tr1, _) =>
               (Returned err,
                tr0 ++ kind_tag "producer" span :: tr1 ++ failure_marks span err
                    ++ [Evt (Finish span) tt])
           | (Panicked v, tr1, _) =>
               (Panicked v, tr0 ++ kind_tag "producer" span :: tr1 ++ [Evt (Finish span) tt])
           end
     | _ => True
     end) /\
  (forall ot (cf : client.CallFunc traceE) ctx addr req rsp opts (w : World env),
     match run env (StartSpanFromContext ctx (resolve env ot w).1.1
                      (client.Service req +:+ "." +:+ client.Endpoint req) [])
             (resolve env ot w).2 with
     | (Returned (inl (ctx', span)), tr0, w0) =>
         (run env (NewCallWrapper ot cf ctx addr req rsp opts) w).1
         = match run env (cf ctx' addr req rsp opts)
                   (answer env (SetTag span "span.kind" (TagString "client")) w0).2 with
           | (Returned err, tr1, _) =>
               (Returned err,
                (resolve env ot w).1.2 ++ tr0 ++ kind_tag "client" span :: tr1
                    ++ failure_marks span err ++ [Evt (Finish span) tt])
           | (Panicked v, tr1, _) =>
               (Panicked v,
                (resolve env ot w).1.2 ++ tr0 ++ kind_tag "client" span :: tr1
                    ++ [Evt (Finish span) tt])
           end
     | _ => True
     end) /\
  (forall ot (next : server.SubscriberFunc traceE) ctx msg (w : World env),
     match run env (StartSpanFromContext ctx (resolve env ot w).1.1
                      ("Sub from " +:+ server.Topic msg) [])
             (resolve env ot w).2 with
     | (Returned (inl (ctx', span)), tr0, w0) =>
         (run env (NewSubscriberWrapper ot next ctx msg) w).1
         = match run env (next ctx' msg)
                   (answer env (SetTag span "span.kind" (TagString "consumer")) w0).2 with
           | (Returned err, tr1, _) =>
               (Returned err,
                (resolve env ot w).1.2 ++ tr0 ++ kind_tag "consumer" span :: tr1
                    ++ failure_marks span err ++ [Evt (Finish span) tt])
           | (Panicked v, tr1, _) =>
               (Panicked v,
                (resolve env ot w).1.2 ++ tr0 ++ kind_tag "consumer" span :: tr1
                    ++ [Evt (Finish span) tt])
           end
     | _ => True
     end).
Proof.
  split; [| split; [| split]].
  - intros o ctx req opts w.
    pose proof (run_otWrapper_Stream env o ctx req opts w) as Hk. cbv zeta in Hk.
    destruct (run env (StartSpanFromContext ctx (ot o) _ []) w)
      as [[[[[ctx' span] | e] | v] tr0] w0]; try exact I.
    destruct Hk as (w' & ->).
    destruct (run env (client.Stream (Client o) ctx' req opts) w0)
      as [[[[stream err] | v] tr1] w1]; reflexivity.
  - intros o ctx p opts w.
    pose proof (run_otWrapper_Publish env o ctx p opts w) as Hk. cbv zeta in Hk.
    destruct (run env (StartSpanFromContext ctx (ot o) _ []) w)
      as [[[[[ctx' span] | e] | v] tr0] w0]; try exact I.
    destruct Hk as (w' & ->).
    destruct (run env (client.Publish (Client o) ctx' p opts) _)
      as [[[err | v] tr1] w1]; reflexivity.
  - intros ot cf ctx addr req rsp opts w.
    pose proof (run_NewCallWrapper env ot cf ctx addr req rsp opts w) as Hk.
    cbv zeta in Hk. destruct (resolve env ot w) as [[t trg] wt]. cbn [fst snd].
    destruct (run env (StartSpanFromContext ctx t _ []) wt)
      as [[[[[ctx' span] | e] | v] tr0] w0]; try exact I.
    destruct Hk as (w' & ->).
    destruct (run env (cf ctx' addr req rsp opts) _) as [[[err | v] tr1] w1];
      reflexivity.
  - intros ot next ctx msg w.
    pose proof (run_NewSubscriberWrapper env ot next ctx msg w) as Hk.
    cbv zeta in Hk. destruct (resolve env ot w) as [[t trg] wt]. cbn [fst snd].
    destruct (run env (StartSpanFromContext ctx t _ []) wt)
      as [[[[[ctx' span] | e] | v] tr0] w0]; try exact I.
    destruct Hk as (w' & ->).
    destruct (run env (next ctx' msg) _) as [[[err | v] tr1] w1]; reflexivity.
Qed.

End MoreTracing.

Example publish_trace :
  (run (sample.tracing None false (Panicked (AString "boom")))
     (otWrapper_Publish (H:=sample.external) (opaque_otWrapper (TracerRef 1))
        sample.ctx0 {| client.Topic := "events" |} []) 0).1
  = (Panicked (AString "boom"),
     [Evt (Extract (TracerRef 1) {[ "Authorization" := "token" ]})
        (inr (New "opentracing: SpanContext not found in Extract carrier"));
      Evt (StartSpan (TracerRef 1) "Pub to events" [])
        (sample.span0 (TracerRef 1));
      Evt (Inject (TracerRef 1) (SpanContextRef 0) ∅)
        ({[ "uber-trace-id" := "1" ]}, None);
      kind_tag "producer" (sample.span0 (TracerRef 1));
      Evt (Next (sample.ctx0_traced (TracerRef 1))
             (ClientPublish {| client.Topic := "events" |} []))
        (Panicked (AString "boom"));
      Evt (Finish (sample.span0 (TracerRef 1))) tt]).
Proof. reflexivity. Qed.

End jaegerMore.

(** ** server: the order of options *)

Module serverMore.
Import Go errors server GoFacts serverFacts.

Section MoreOptions.
Context `{External} `{Defaults} {E : Type -> Type}.

(** [newOptions] on a list in two parts. *)
Lemma newOptions_app (opt more : list (Option E)) (set : Options E) :
  apply_options initial_options opt = Returned set ->
  newOptions (opt ++ more)
  = match apply_options set more with
    | Returned set' =>
        Returned
          (set_Version (or_default (opts_Version set') DefaultVersion)
          (set_Id (or_default (opts_Id set') DefaultId)
          (set_Name (or_default (opts_Name set') DefaultName)
          (set_Address (or_default (opts_Address set') DefaultAddress)
          (set_RegisterCheck
             (Some (default DefaultRegisterCheck (opts_RegisterCheck set')))
          (set_Transport (Some (default MemoryTransport (opts_Transport set')))
          (set_Registry (Some (default MemoryRegistry (opts_Registry set')))
          (set_Broker (Some (default MemoryBroker (opts_Broker set'))) set'))))))))
    | Panicked v => Panicked v
    end.
Proof.
  intros Hset. rewrite newOptions_unfold, apply_options_app, Hset. reflexivity.
Qed.

(** X10.  Options run in list order and a later one overrides an earlier one:
    whatever options came before, a final [Name], [Address], [Id] or
    [Version] decides the text (the default if it is empty), a final
    [Broker], [Registry] or [Transport] the collaborator (the in-memory one
    if it is nil), a final [RegisterTTL] or [RegisterInterval] the duration;
    every other field is as without that last option. *)
Theorem last_option_wins (opt : list (Option E)) (set : Options E) :
  apply_options initial_options opt = Returned set ->
  exists o0, newOptions opt = Returned o0 /\
    (forall n, newOptions (opt ++ [Name n])
               = Returned (set_Name (or_default n DefaultName) o0)) /\
    (forall a, newOptions (opt ++ [Address a])
               = Returned (set_Address (or_default a DefaultAddress) o0)) /\
    (forall i, newOptions (opt ++ [Id i])
               = Returned (set_Id (or_default i DefaultId) o0)) /\
    (forall v, newOptions (opt ++ [Version v])
               = Returned (set_Version (or_default v DefaultVersion) o0)) /\
    (forall b, newOptions (opt ++ [Broker b])
               = Returned (set_Broker (Some (default MemoryBroker b)) o0)) /\
    (forall r, newOptions (opt ++ [Registry r])
               = Returned (set_Registry (Some (default MemoryRegistry r)) o0)) /\
    (forall t, newOptions (opt ++ [Transport t])
               = Returned (set_Transport (Some (default MemoryTransport t)) o0)) /\
    (forall t, newOptions (opt ++ [RegisterTTL t])
               = Returned (set_RegisterTTL t o0)) /\
    (forall t, newOptions (opt ++ [RegisterInterval t])
               = Returned (set_RegisterInterval t o0)).
Proof.
  intros Hset. eexists. split; [rewrite newOptions_unfold, Hset; reflexivity |].
  repeat split; intros x; rewrite (newOptions_app _ _ _ Hset);
    cbn [apply_options mbind Outcome_bind Name Address Id Version Broker Registry
         Transport RegisterTTL RegisterInterval];
    destruct set; reflexivity.
Qed.

(** X11.  [TLSConfig] needs a transport that an earlier option set.  Where the
    options before it leave [Transport] nil, [newOptions] panics with a nil
    dereference, whatever follows, although it would have supplied the
    in-memory transport at the end; where they set one, [TLSConfig] only
    stores the configuration. *)
Theorem TLSConfig_needs_a_transport (opt : list (Option E)) (set : Options E) c :
  apply_options initial_options opt = Returned set ->
  (opts_Transport set = None ->
   forall rest, newOptions (opt ++ TLSConfig c :: rest) = Panicked nil_dereference) /\
  (opts_Transport set <> None ->
   exists o0, newOptions opt = Returned o0 /\
     newOptions (opt ++ [TLSConfig c]) = Returned (set_TLSConfig c o0)).
Proof.
  intros Hset. split.
  - intros Ht rest. rewrite (newOptions_app _ _ _ Hset).
    cbn [apply_options]. unfold TLSConfig at 1.
    destruct set; cbn in *. rewrite Ht. reflexivity.
  - intros Ht. eexists. split; [rewrite newOptions_unfold, Hset; reflexivity |].
    rewrite (newOptions_app _ _ _ Hset). cbn [apply_options]. unfold TLSConfig.
    destruct set; cbn in *. destruct opts_Transport0; [reflexivity | contradiction].
Qed.

(** X12.  [Codec] registers a codec for a content type in the map the options
    work on: afterwards that content type has the codec, every other one is
    as before; on a nil map it panics. *)
Theorem Codec_registers (opt : list (Option E)) (set : Options E) ct c :
  apply_options initial_options opt = Returned set ->
  (forall m, opts_Codecs set = Some m ->
     exists o m', newOptions (opt ++ [Codec ct c]) = Returned o /\
       opts_Codecs o = Some m' /\ m' !! ct = Some c /\
       forall ct', ct' <> ct -> m' !! ct' = m !! ct') /\
  (opts_Codecs set = None ->
     newOptions (opt ++ [Codec ct c]) = Panicked nil_map_write).
Proof.
  intros Hset. split.
  - intros m Hm. rewrite (newOptions_app _ _ _ Hset).
    cbn [apply_options]. unfold Codec. rewrite Hm. cbn [mbind Outcome_bind].
    eexists _, (<[ct := c]> m). split; [reflexivity |].
    split; [destruct set; reflexivity |].
    split; [apply lookup_insert_eq |].
    intros ct' Hne. apply lookup_insert_ne. congruence.
  - intros Hm. rewrite (newOptions_app _ _ _ Hset).
    cbn [apply_options]. unfold Codec. rewrite Hm. reflexivity.
Qed.

(** Wrapper options of both kinds, in any order. *)
Lemma apply_wrap_options (l : list (HandlerWrapper E + SubscriberWrapper E))
    (set : Options E) :
  apply_options set (map wrap_option l)
  = Returned (set_SubWrappers (opts_SubWrappers set ++ subscriber_wrappers l)
                (set_HdlrWrappers (opts_HdlrWrappers set ++ handler_wrappers l) set)).
Proof.
  revert set. induction l as [| [w | w] l IH]; intros set.
  - cbn. rewrite !app_nil_r. destruct set; reflexivity.
  - cbn [map apply_options wrap_option WrapHandler mbind Outcome_bind].
    rewrite IH. destruct set; cbn. rewrite <- app_assoc. reflexivity.
  - cbn [map apply_options wrap_option WrapSubscriber mbind Outcome_bind].
    rewrite IH. destruct set; cbn. rewrite <- app_assoc. reflexivity.
Qed.

(** X13.  However [WrapHandler] and [WrapSubscriber] options are interleaved,
    each list gets the wrappers of its kind, in the order given, after the
    ones already there; neither option touches the other list. *)
Theorem wrappers_keep_their_order (opt : list (Option E)) (set : Options E)
    (l : list (HandlerWrapper E + SubscriberWrapper E)) :
  apply_options initial_options opt = Returned set ->
  exists o, newOptions (opt ++ map wrap_option l) = Returned o /\
    opts_HdlrWrappers o = opts_HdlrWrappers set ++ handler_wrappers l /\
    opts_SubWrappers o = opts_SubWrappers set ++ subscriber_wrappers l.
Proof.
  intros Hset. rewrite (newOptions_app _ _ _ Hset), apply_wrap_options.
  eexists. split; [reflexivity |]. destruct set; split; reflexivity.
Qed.

End MoreOptions.

Section MoreOptionsSample.
#[local] Existing Instance sample.external.
#[local] Existing Instance sample.defaults.


Lemma last_option_wins_witness :
  apply_options (E:=chain.chainE) initial_options [Name "a"]
  = Returned (set_Name "a" initial_options) /\
  exists o0, newOptions (E:=chain.chainE) [Name "a"] = Returned o0 /\
    newOptions (E:=chain.chainE) ([Name "a"] ++ [Name "b"]) = Returned (set_Name "b" o0).
Proof.
  split; [reflexivity |].
  destruct (last_option_wins (E:=chain.chainE) [Name "a"] _ eq_refl) as (o0 & Ho & Hn & _).
  exists o0. split; [exact Ho |]. exact (Hn "b").
Defined.

Lemma TLSConfig_needs_a_transport_witness :
  apply_options (E:=chain.chainE) initial_options [Name "a"]
  = Returned (set_Name "a" initial_options) /\
  opts_Transport (set_Name (E:=chain.chainE) "a" initial_options) = None /\
  newOptions (E:=chain.chainE)
    ([Name "a"] ++ TLSConfig (Some (TLSConfigRef 1))
       :: [Transport (Some (TransportRef 2))])
  = Panicked nil_dereference.
Proof.
  split; [reflexivity |]. split; [reflexivity |].
  exact (proj1 (TLSConfig_needs_a_transport (E:=chain.chainE) [Name "a"] _
                  (Some (TLSConfigRef 1)) eq_refl) eq_refl
           [Transport (Some (TransportRef 2))]).
Defined.

Lemma Codec_registers_witness :
  apply_options (E:=chain.chainE) initial_options [] = Returned initial_options /\
  opts_Codecs (initial_options (E:=chain.chainE)) = Some ∅ /\
  exists o m', newOptions (E:=chain.chainE)
                 ([] ++ [Codec "application/json" (NewCodecRef 1)]) = Returned o /\
    opts_Codecs o = Some m' /\ m' !! "application/json" = Some (NewCodecRef 1).
Proof.
  split; [reflexivity |]. split; [reflexivity |].
  destruct (proj1 (Codec_registers (E:=chain.chainE) [] _ "application/json" (NewCodecRef 1)
                     eq_refl) ∅ eq_refl) as (o & m' & Ho & Hc & Hl & _).
  exists o, m'. repeat split; assumption.
Defined.

Lemma wrappers_keep_their_order_witness :
  apply_options (E:=chain.chainE) initial_options [] = Returned initial_options /\
  exists o, newOptions (E:=chain.chainE)
              ([] ++ map wrap_option [inl (chain.observing "W1")]) = Returned o /\
    length (opts_HdlrWrappers o) = 1.
Proof.
  split; [reflexivity |].
  destruct (wrappers_keep_their_order (E:=chain.chainE) [] _ [inl (chain.observing "W1")] eq_refl)
    as (o & Ho & Hh & _).
  exists o. split; [exact Ho |]. rewrite Hh. reflexivity.
Defined.

End MoreOptionsSample.

End serverMore.

(** ** pool: options *)

Module poolFacts.
Import pool.

Lemma omap_step {A B} (f : A -> option B) (x : A) (l : list A) :
  omap f (x :: l) = match f x with Some y => y :: omap f l | None => omap f l end.
Proof. reflexivity. Qed.

Lemma default_last_cons {A} (d x : A) (l : list A) :
  default d (last (x :: l)) = default x (last l).
Proof. rewrite last_cons. destruct (last l); reflexivity. Qed.

(** Options applied one after the other, as [Option]s are meant to be: each
    field ends with the value of the last option that sets it, or is left
    as it was. *)
Lemma options_in_order (ms : list Made) (o : Options) :
  let o' := foldl (fun o f => f o) o (map option_of ms) in
  Size o' = default (Size o) (last (omap size_of ms)) /\
  Transport o' = default (Transport o) (last (omap transport_of ms)) /\
  TTL o' = default (TTL o) (last (omap ttl_of ms)).
Proof.
  revert o. induction ms as [| m ms IH]; intros o; [repeat split |].
  cbn [map foldl]. destruct (IH (option_of m o)) as (HS & HT & HL).
  cbv zeta. rewrite HS, HT, HL.
  destruct m; rewrite !omap_step; cbn [size_of transport_of ttl_of option_of];
    rewrite ?default_last_cons; repeat split.
Qed.

(** X14.  A pool option sets its own field, to the value it was made with,
    and no other: [Size(i)] sets [Size] to [i], [Transport(t)] sets
    [Transport] to [t], [TTL(t)] sets [TTL] to [t], and each leaves the
    other two fields as they were.  So after any sequence of options, each
    field has the value of the last option for it, or its old value when
    there is none; two options for different fields give the same options
    in either order, and of two options for the same field the one applied
    last decides. *)
Theorem pool_options_set_their_field :
  (forall i o,
     Size (Size_ i o) = i /\ Transport (Size_ i o) = Transport o /\
     TTL (Size_ i o) = TTL o) /\
  (forall t o,
     Transport (Transport_ t o) = t /\ Size (Transport_ t o) = Size o /\
     TTL (Transport_ t o) = TTL o) /\
  (forall t o,
     TTL (TTL_ t o) = t /\ Size (TTL_ t o) = Size o /\
     Transport (TTL_ t o) = Transport o) /\
  (forall (ms : list Made) (o : Options),
     let o' := foldl (fun o f => f o) o (map option_of ms) in
     Size o' = default (Size o) (last (omap size_of ms)) /\
     Transport o' = default (Transport o) (last (omap transport_of ms)) /\
     TTL o' = default (TTL o) (last (omap ttl_of ms))) /\
  (forall (m1 m2 : Made) (o : Options),
     if same_field m1 m2
     then option_of m1 (option_of m2 o) = option_of m1 o
     else option_of m1 (option_of m2 o) = option_of m2 (option_of m1 o)).
Proof.
  split; [| split; [| split; [| split]]].
  - intros i o. repeat split.
  - intros t o. repeat split.
  - intros t o. repeat split.
  - exact options_in_order.
  - intros m1 m2 o. destruct m1, m2; reflexivity.
Qed.

End poolFacts.
